(** * ovhacme: DNS-01 challenge orchestration against the OVH API

    A shallow embedding of [src/ovhacme.py]: the string helpers
    ([_get_zone], [_get_base_domain], the record-location computation of
    [request_certificate]), the DNS handler [OVHDNSChallenge] with its
    [record_ids] table, and the sequencing of [ACMEClient.request_certificate].

    The OVH client, the ACME client, the public resolver and the clock are
    external collaborators: they are an interface ([Collaborators]) whose
    operations transform an abstract external state and may raise.  Every
    call that crosses that interface is appended to a trace, so that
    ordering properties can be stated on the run itself. *)

From Stdlib Require Import ZArith Lia Ascii.
From stdpp Require Import base option list gmap strings.

Local Open Scope Z_scope.

(** ** Python string operations used by the source *)

Module PyStr.

(** [s.split(sep)] for a one-character separator: one piece per
    occurrence of [sep] plus one; never the empty list. *)
Fixpoint split (sep : ascii) (s : string) : list string :=
  match s with
  | EmptyString => [EmptyString]
  | String c s' =>
      if decide (c = sep) then EmptyString :: split sep s'
      else match split sep s' with
           | [] => [String c EmptyString]
           | h :: t => String c h :: t
           end
  end.

(** [sep.join(parts)] *)
Fixpoint join (sep : string) (parts : list string) : string :=
  match parts with
  | [] => EmptyString
  | [p] => p
  | p :: rest => p +:+ sep +:+ join sep rest
  end.

(** [parts[-2:]] *)
Definition last_two (parts : list string) : list string :=
  drop (length parts - 2)%nat parts.

(** [s.replace(old, new)] with a non-empty [old]: a left-to-right scan
    that replaces every non-overlapping occurrence.  [skip] counts the
    characters of a matched occurrence still to be dropped. *)
Fixpoint replace_scan (old new : string) (skip : nat) (s : string) : string :=
  match s with
  | EmptyString => EmptyString
  | String c s' =>
      match skip with
      | S k => replace_scan old new k s'
      | O =>
          if String.prefix old s
          then new +:+ replace_scan old new (String.length old - 1)%nat s'
          else String c (replace_scan old new O s')
      end
  end.

(** With an empty [old], Python inserts [new] before every character and
    at the end. *)
Fixpoint replace_empty (new : string) (s : string) : string :=
  match s with
  | EmptyString => new
  | String c s' => new +:+ String c (replace_empty new s')
  end.

Definition replace (old new s : string) : string :=
  match old with
  | EmptyString => replace_empty new s
  | _ => replace_scan old new O s
  end.

(** [s.strip(c)] for a one-character set: drops every leading and every
    trailing [c]. *)
Fixpoint lstrip (c : ascii) (s : string) : string :=
  match s with
  | String a s' => if decide (a = c) then lstrip c s' else s
  | EmptyString => EmptyString
  end.

Fixpoint rstrip (c : ascii) (s : string) : string :=
  match s with
  | EmptyString => EmptyString
  | String a s' =>
      match rstrip c s' with
      | EmptyString => if decide (a = c) then EmptyString else String a EmptyString
      | r => String a r
      end
  end.

Definition strip (c : ascii) (s : string) : string := rstrip c (lstrip c s).

(** Truthiness of a [str]: non-empty. *)
Definition truthy (s : string) : bool :=
  match s with EmptyString => false | _ => true end.

(** [s.startswith(p)] and the suffix test, for the specification side. *)
Definition startswith (p s : string) : bool := String.prefix p s.

Fixpoint drop_prefix (n : nat) (s : string) : string :=
  match n, s with
  | O, _ => s
  | S k, String _ s' => drop_prefix k s'
  | S _, EmptyString => EmptyString
  end.

Definition take_chars (n : nat) (s : string) : string := String.substring 0 n s.

Definition endswith (suf s : string) : bool :=
  bool_decide (drop_prefix (String.length s - String.length suf)%nat s = suf
               ∧ (String.length suf <= String.length s)%nat).

End PyStr.

(** ** Record locations *)

(** [OVHDNSChallenge._get_zone] *)
Definition _get_zone (domain : string) : string :=
  let parts := PyStr.split "." domain in
  if decide (2 <= length parts)%nat then PyStr.join "." (PyStr.last_two parts)
  else domain.

(** [ACMEClient._get_base_domain] *)
Definition _get_base_domain (domain : string) : string :=
  let parts := PyStr.split "." domain in
  if decide (2 <= length parts)%nat then PyStr.join "." (PyStr.last_two parts)
  else domain.

(** Lines 222-232 of [request_certificate]: the record key of a domain. *)
Definition resolve (domain_name : string) : string * string :=
  let clean_domain := PyStr.replace "*." "" domain_name in
  let base_domain := _get_base_domain clean_domain in
  let subdomain := PyStr.replace ("." +:+ base_domain) "" clean_domain in
  let subdomain := if decide (subdomain = clean_domain) then "" else subdomain in
  (base_domain, subdomain).

(** The resolver as the specification words it: strip one leading [*.],
    take the last two labels as zone, remove the [.zone] suffix. *)
Definition resolve_spec (domain : string) : string * string :=
  let d := if PyStr.startswith "*." domain then PyStr.drop_prefix 2 domain else domain in
  let parts := PyStr.split "." d in
  let zone := if decide (2 <= length parts)%nat
              then PyStr.join "." (PyStr.last_two parts) else d in
  let suffix := "." +:+ zone in
  let subdomain :=
    if decide (d = zone) then ""
    else if PyStr.endswith suffix d
         then PyStr.take_chars (String.length d - String.length suffix)%nat d
         else d in
  (zone, subdomain).

(** [f'_acme-challenge.{subdomain}' if subdomain else '_acme-challenge'] *)
Definition record_name_of (subdomain : string) : string :=
  if PyStr.truthy subdomain then "_acme-challenge." +:+ subdomain
  else "_acme-challenge".

(** ** ACME objects, as far as the orchestration reads them *)

(** [messages.STATUS_*] *)
Inductive Status :=
| STATUS_UNKNOWN | STATUS_PENDING | STATUS_PROCESSING | STATUS_VALID
| STATUS_INVALID | STATUS_REVOKED | STATUS_READY | STATUS_DEACTIVATED.

Global Instance Status_eq_dec : EqDecision Status.
Proof. solve_decision. Defined.

(** The challenge classes of [acme.challenges]. *)
Inductive ChallKind := DNS01 | HTTP01 | TLSALPN01.

Global Instance ChallKind_eq_dec : EqDecision ChallKind.
Proof. solve_decision. Defined.

(** A challenge body; [chall_validation] is what
    [challenge.chall.validation(account_key)] evaluates to. *)
Record ChallengeBody := {
  chall_kind : ChallKind;
  chall_uri : string;
  chall_validation : string
}.

Record Authorization := {
  authz_uri : string;
  identifier_value : string;
  authz_challenges : list ChallengeBody
}.

Record OrderResource := {
  order_uri : string;
  authorizations : list Authorization;
  fullchain_pem : string
}.

(** ** Exceptions, replies and the trace *)

(** What a collaborator raises. *)
Inductive CollabError :=
| ProviderError (msg : string)
| AcmeError (msg : string)
| ResolverError (msg : string).

(** The exceptions that travel through [request_certificate]: a
    collaborator's, or one the source raises itself. *)
Inductive Exn :=
| External (e : CollabError)
| KeyError (key : string)
| NoDns01Challenge
| ChallengeFailed (domain_name : string)
| PollTimeout (domain_name : string)
| UnboundLocalError (variable : string).

(** What a collaborator call comes back with. *)
Inductive Reply (A : Type) :=
| Returns (a : A)
| Throws (e : CollabError).
Arguments Returns {A} a.
Arguments Throws {A} e.

(** The methods of [OVHDNSChallenge] whose entry and exit are traced. *)
Inductive Method :=
| MCleanup (domain subdomain : string)
| MCreate (domain subdomain value : string)
| MDelete (domain subdomain : string) (value : option string).

(** Console lines of the verification step (the rest of the narration is
    not modelled). *)
Inductive Line :=
| LineCountMismatch (expected found : nat)
| LineCheckError (e : Exn)
| LineNotAllPresent
| LineAllConfirmed.

Inductive Event :=
| EvNewOrder (domains : list string)
| EvOvhList (zone record_name : string)
| EvOvhGet (zone : string) (record_id : Z)
| EvOvhCreate (zone record_name target : string) (ttl : Z)
| EvOvhDelete (zone : string) (record_id : Z)
| EvOvhRefresh (zone : string)
| EvResolve (fqdn : string)
| EvAnswer (c : ChallengeBody)
| EvPoll (a : Authorization) (r : Reply Status)
| EvFinalize (o : OrderResource) (deadline : Z)
| EvSleep (duration : Z)
| EvEnter (m : Method)
| EvLeave (m : Method)
| EvPrint (l : Line).

(** Clock readings and durations are counted in milliseconds. *)
Definition seconds (n : Z) : Z := 1000 * n.

(** [config.DNS_PROPAGATION_WAIT] *)
Definition DNS_PROPAGATION_WAIT : Z := 60.

(** ** The collaborators *)

(** The OVH client ([ovh.Client.get/post/delete] on the four routes the
    source uses), the ACME client, the public resolver and the clock, over an
    external state [X].  A record's details carry an optional [target]; the
    reply to a record creation carries an optional [id]. *)
Class Collaborators (X : Type) := {
  ovh_get_records : string -> string -> X -> Reply (list Z) * X;
  ovh_get_record : string -> Z -> X -> Reply (option string) * X;
  ovh_post_record : string -> string -> string -> Z -> X -> Reply (option Z) * X;
  ovh_delete_record : string -> Z -> X -> Reply unit * X;
  ovh_post_refresh : string -> X -> Reply unit * X;
  dns_resolve_txt : string -> X -> Reply (list string) * X;
  acme_new_order : list string -> X -> Reply OrderResource * X;
  acme_answer_challenge : ChallengeBody -> X -> Reply unit * X;
  acme_poll : Authorization -> X -> Reply Status * X;
  acme_poll_and_finalize : OrderResource -> Z -> X -> Reply OrderResource * X;
  clock : X -> Z;
  time_sleep : Z -> X -> X
}.

(** The clock never runs backwards across a poll, and a sleep lasts at
    least as long as asked. *)
Class ClockLaws (X : Type) `{Collaborators X} : Prop := {
  poll_monotone : forall a x, clock x <= clock (snd (acme_poll a x));
  sleep_advances : forall d x, clock x + d <= clock (time_sleep d x)
}.

(** ** The monad of the embedding *)

(** A run ends with a value, with a raised exception, or without an answer
    when the bound on loop iterations is used up. *)
Inductive Outcome (A : Type) :=
| Ok (a : A)
| Raise (e : Exn)
| OutOfFuel.
Arguments Ok {A} a.
Arguments Raise {A} e.
Arguments OutOfFuel {A}.

Record World (X : Type) := mkWorld {
  ext : X;
  record_ids : gmap string Z;
  trace : list Event
}.
Arguments mkWorld {X} ext record_ids trace.
Arguments ext {X} w.
Arguments record_ids {X} w.
Arguments trace {X} w.

Definition M (X A : Type) : Type := World X -> Outcome A * World X.

Definition ret {X A} (a : A) : M X A := fun w => (Ok a, w).

Definition raise {X A} (e : Exn) : M X A := fun w => (Raise e, w).

Definition diverge {X A} : M X A := fun w => (OutOfFuel, w).

Definition bind {X A B} (m : M X A) (k : A -> M X B) : M X B :=
  fun w =>
    match m w with
    | (Ok a, w') => k a w'
    | (Raise e, w') => (Raise e, w')
    | (OutOfFuel, w') => (OutOfFuel, w')
    end.

Declare Scope py_scope.
Delimit Scope py_scope with py.
Notation "x <- m ;; k" := (bind m (fun x => k))
  (at level 100, m at next level, right associativity) : py_scope.
Notation "m ;; k" := (bind m (fun _ => k))
  (at level 100, right associativity) : py_scope.
Local Open Scope py_scope.

(** [try: body except Exception as e: handler e] *)
Definition try_except {X A} (body : M X A) (handler : Exn -> M X A) : M X A :=
  fun w =>
    match body w with
    | (Raise e, w') => handler e w'
    | r => r
    end.

(** [for x in xs: body x] *)
Fixpoint for_each {X A} (xs : list A) (body : A -> M X unit) : M X unit :=
  match xs with
  | [] => ret tt
  | x :: rest => body x ;; for_each rest body
  end.

(** A [for] loop that updates local variables [s]. *)
Fixpoint for_fold {X A S} (xs : list A) (body : S -> A -> M X S) (s : S) : M X S :=
  match xs with
  | [] => ret s
  | x :: rest => s' <- body s x ;; for_fold rest body s'
  end.

Definition emit {X} (ev : Event) : M X unit :=
  fun w => (Ok tt, mkWorld (ext w) (record_ids w) (trace w ++ [ev])).

Definition print {X} (l : Line) : M X unit := emit (EvPrint l).

(** A collaborator call: run it on the external state, trace it. *)
Definition call {X A} (f : X -> Reply A * X) (ev : Reply A -> Event) : M X A :=
  fun w =>
    let '(r, x') := f (ext w) in
    let w' := mkWorld x' (record_ids w) (trace w ++ [ev r]) in
    match r with
    | Returns a => (Ok a, w')
    | Throws e => (Raise (External e), w')
    end.

(** Entry and exit of a traced method, on every way out. *)
Definition method {X A} (m : Method) (body : M X A) : M X A :=
  fun w =>
    let '(r, w') := body (mkWorld (ext w) (record_ids w) (trace w ++ [EvEnter m])) in
    (r, mkWorld (ext w') (record_ids w') (trace w' ++ [EvLeave m])).

Definition get_record_ids {X} : M X (gmap string Z) :=
  fun w => (Ok (record_ids w), w).

Definition set_record_ids {X} (t : gmap string Z) : M X unit :=
  fun w => (Ok tt, mkWorld (ext w) t (trace w)).

(** ** The program *)

(** What [challenges_by_record] holds per record location. *)
Record ChallengeInfo := {
  ci_challenge : ChallengeBody;
  ci_authz : Authorization;
  ci_domain_name : string
}.

Record RecordInfo := {
  base_domain : string;
  subdomain : string;
  validations : list string;
  challenges : list ChallengeInfo
}.

(** The dict [challenges_by_record], in insertion order. *)
Definition Groups : Type := list ((string * string) * RecordInfo).

Definition dquote : ascii := ascii_of_nat 34.

Section Program.

Context {X : Type} `{Collaborators X}.

(** *** Collaborator calls *)

Definition client_get_records (zone record_name : string) : M X (list Z) :=
  call (ovh_get_records zone record_name) (fun _ => EvOvhList zone record_name).

Definition client_get_record (zone : string) (record_id : Z) : M X (option string) :=
  call (ovh_get_record zone record_id) (fun _ => EvOvhGet zone record_id).

Definition client_post_record (zone record_name target : string) (ttl : Z)
  : M X (option Z) :=
  call (ovh_post_record zone record_name target ttl)
       (fun _ => EvOvhCreate zone record_name target ttl).

Definition client_delete_record (zone : string) (record_id : Z) : M X unit :=
  call (ovh_delete_record zone record_id) (fun _ => EvOvhDelete zone record_id).

Definition client_post_refresh (zone : string) : M X unit :=
  call (ovh_post_refresh zone) (fun _ => EvOvhRefresh zone).

Definition resolver_resolve (fqdn : string) : M X (list string) :=
  call (dns_resolve_txt fqdn) (fun _ => EvResolve fqdn).

Definition client_new_order (domains : list string) : M X OrderResource :=
  call (acme_new_order domains) (fun _ => EvNewOrder domains).

Definition client_answer_challenge (c : ChallengeBody) : M X unit :=
  call (acme_answer_challenge c) (fun _ => EvAnswer c).

Definition client_poll (a : Authorization) : M X Status :=
  call (acme_poll a) (fun r => EvPoll a r).

Definition client_poll_and_finalize (o : OrderResource) (deadline : Z)
  : M X OrderResource :=
  call (acme_poll_and_finalize o deadline) (fun _ => EvFinalize o deadline).

(** [time.time()] *)
Definition time_time : M X Z := fun w => (Ok (clock (ext w)), w).

(** [time.sleep(d)] *)
Definition sleep_for (d : Z) : M X unit :=
  fun w => (Ok tt, mkWorld (time_sleep d (ext w)) (record_ids w)
                           (trace w ++ [EvSleep d])).

(** *** [OVHDNSChallenge] *)

Definition cleanup_old_challenge_records (domain subdomain : string) : M X unit :=
  method (MCleanup domain subdomain)
    (let zone := _get_zone domain in
     let record_name := record_name_of subdomain in
     try_except
       (existing_records <- client_get_records zone record_name ;;
        match existing_records with
        | [] => ret tt
        | _ =>
            for_each existing_records
              (fun record_id => client_delete_record zone record_id) ;;
            client_post_refresh zone
        end)
       (fun e => ret tt)).

Definition create_txt_record (domain subdomain value : string) : M X Z :=
  method (MCreate domain subdomain value)
    (let zone := _get_zone domain in
     let record_name := record_name_of subdomain in
     try_except
       (result <- client_post_record zone record_name value 60 ;;
        record_id <- match result with
                     | Some i => ret i
                     | None => raise (KeyError "id")
                     end ;;
        let record_key := record_name +:+ ":" +:+ value in
        ids <- get_record_ids ;;
        set_record_ids (<[record_key := record_id]> ids) ;;
        client_post_refresh zone ;;
        ret record_id)
       (fun e => raise e)).

(** The key [delete_txt_record] looks up: [f"{record_name}:{value}"] for a
    truthy [value], the bare record name otherwise (the legacy branch). *)
Definition delete_key (record_name : string) (value : option string) : string :=
  match value with
  | Some v => if PyStr.truthy v then record_name +:+ ":" +:+ v else record_name
  | None => record_name
  end.

Definition delete_txt_record (domain subdomain : string) (value : option string)
  : M X unit :=
  method (MDelete domain subdomain value)
    (let zone := _get_zone domain in
     let record_name := record_name_of subdomain in
     let record_key := delete_key record_name value in
     ids <- get_record_ids ;;
     match ids !! record_key with
     | Some record_id =>
         try_except
           (client_delete_record zone record_id ;;
            client_post_refresh zone ;;
            ids' <- get_record_ids ;;
            set_record_ids (delete record_key ids'))
           (fun e => ret tt)
     | None => ret tt
     end).

(** *** [ACMEClient.request_certificate], step by step *)

(** Step 1: find the DNS-01 challenge of each authorization and group by
    record location. *)
Definition find_dns01 (cs : list ChallengeBody) : option ChallengeBody :=
  List.find (fun c => bool_decide (chall_kind c = DNS01)) cs.

Definition has_key (record_key : string * string) (g : Groups) : bool :=
  bool_decide (record_key ∈ g.*1).

Definition append_challenge (record_key : string * string) (validation : string)
    (ci : ChallengeInfo) (g : Groups) : Groups :=
  (fun '(k, info) =>
     if decide (k = record_key)
     then (k, {| base_domain := base_domain info;
                 subdomain := subdomain info;
                 validations := validations info ++ [validation];
                 challenges := challenges info ++ [ci] |})
     else (k, info)) <$> g.

Definition collect_authz (g : Groups) (authz : Authorization) : M X Groups :=
  let domain_name := identifier_value authz in
  match find_dns01 (authz_challenges authz) with
  | None => raise NoDns01Challenge
  | Some dns_challenge =>
      let validation := chall_validation dns_challenge in
      let '(base_domain, subdomain) := resolve domain_name in
      let record_key := (base_domain, subdomain) in
      let g1 := if has_key record_key g then g
                else g ++ [(record_key,
                            {| base_domain := base_domain;
                               subdomain := subdomain;
                               validations := [];
                               challenges := [] |})] in
      ret (append_challenge record_key validation
             {| ci_challenge := dns_challenge;
                ci_authz := authz;
                ci_domain_name := domain_name |} g1)
  end.

Definition collect_challenges (authzs : list Authorization) : M X Groups :=
  for_fold authzs collect_authz [].

(** Step 2a: clean up old records, once per location. *)
Definition cleanup_step (cleaned_locations : gset (string * string))
    (item : (string * string) * RecordInfo) : M X (gset (string * string)) :=
  let record_info := item.2 in
  let location_key := (base_domain record_info, subdomain record_info) in
  if decide (location_key ∈ cleaned_locations) then ret cleaned_locations
  else
    cleanup_old_challenge_records (base_domain record_info) (subdomain record_info) ;;
    ret ({[location_key]} ∪ cleaned_locations).

Definition cleanup_phase (g : Groups) : M X (gset (string * string)) :=
  for_fold g cleanup_step ∅.

(** Step 2b: one TXT record per validation value. *)
Definition create_step (dns_records_created : list (string * string * string))
    (item : (string * string) * RecordInfo)
  : M X (list (string * string * string)) :=
  let record_info := item.2 in
  for_fold (validations record_info)
    (fun created validation =>
       create_txt_record (base_domain record_info) (subdomain record_info) validation ;;
       ret (created ++ [(base_domain record_info, subdomain record_info, validation)]))
    dns_records_created.

Definition create_phase (g : Groups) : M X (list (string * string * string)) :=
  for_fold g create_step [].

(** Verification of the records at the provider. *)
Definition clean_target_of (record_details : option string) : string :=
  PyStr.strip dquote (default EmptyString record_details).

Definition scan_step (zone : string) (validations : list string)
    (found_values : list string) (record_id : Z) : M X (list string) :=
  record_details <- client_get_record zone record_id ;;
  let clean_target := clean_target_of record_details in
  if bool_decide (clean_target ∈ validations)
  then ret (found_values ++ [clean_target])
  else ret found_values.

Definition verify_step (all_records_present : bool)
    (item : (string * string) * RecordInfo) : M X bool :=
  let record_info := item.2 in
  let validations := validations record_info in
  let zone := _get_zone (base_domain record_info) in
  let record_name := record_name_of (subdomain record_info) in
  try_except
    (existing_records <- client_get_records zone record_name ;;
     found_values <- for_fold existing_records (scan_step zone validations) [] ;;
     if decide (length found_values ≠ length validations)
     then print (LineCountMismatch (length validations) (length found_values)) ;;
          ret false
     else ret all_records_present)
    (fun e => print (LineCheckError e) ;; ret false).

Definition verify_phase (g : Groups) : M X bool :=
  for_fold g verify_step true.

(** Step 4: the public resolver is asked, and its answer only shown. *)
Definition all_challenges (g : Groups) : list ChallengeInfo :=
  concat ((fun item => challenges item.2) <$> g).

Definition public_check (g : Groups) : M X unit :=
  for_each (all_challenges g)
    (fun ci =>
       try_except
         (resolver_resolve ("_acme-challenge." +:+ ci_domain_name ci) ;; ret tt)
         (fun e => ret tt)).

(** Step 5 *)
Definition answer_phase (g : Groups) : M X unit :=
  for_each (all_challenges g)
    (fun ci => client_answer_challenge (ci_challenge ci)).

(** Step 6: the [while time.time() < challenge_deadline] loop.  The local
    [authz_response] lives on across domains, so it is threaded through;
    [None] is the unbound variable.  The clock is read from the external
    state: time passes in collaborator calls and sleeps, and two reads with
    nothing in between see the same instant.  Readings are exact numbers:
    the source adds and compares floats, and the rounding of
    [time.time() + 90] is not modelled, so statements about the deadline
    leave the instant of the deadline itself to either side. *)
Fixpoint poll_loop (fuel : nat) (ci : ChallengeInfo) (challenge_deadline : Z)
    (authz_response : option Status) : M X (option Status) :=
  match fuel with
  | O => diverge
  | S fuel' =>
      now <- time_time ;;
      if decide (now < challenge_deadline) then
        status <- client_poll (ci_authz ci) ;;
        if decide (status = STATUS_VALID) then ret (Some status)
        else if decide (status = STATUS_INVALID)
             then raise (ChallengeFailed (ci_domain_name ci))
             else sleep_for (seconds 5) ;;
                  poll_loop fuel' ci challenge_deadline (Some status)
      else ret authz_response
  end.

Definition poll_domain (fuel : nat) (authz_response : option Status)
    (ci : ChallengeInfo) : M X (option Status) :=
  now <- time_time ;;
  let challenge_deadline := now + seconds 90 in
  authz_response <- poll_loop fuel ci challenge_deadline authz_response ;;
  match authz_response with
  | None => raise (UnboundLocalError "authz_response")
  | Some status =>
      if decide (status ≠ STATUS_VALID)
      then raise (PollTimeout (ci_domain_name ci))
      else ret authz_response
  end.

Definition poll_phase (fuel : nat) (g : Groups) : M X (option Status) :=
  for_fold (all_challenges g) (poll_domain fuel) None.

(** The clean-up loop of the handler and of step 7. *)
Definition teardown (dns_records_created : list (string * string * string))
  : M X unit :=
  for_each dns_records_created
    (fun '(base_domain, subdomain, validation) =>
       delete_txt_record base_domain subdomain (Some validation)).

(** Step 6 with its handler: on any exception the records are deleted,
    then the exception is raised again. *)
Definition poll_step (fuel : nat) (g : Groups)
    (dns_records_created : list (string * string * string)) : M X unit :=
  try_except (poll_phase fuel g ;; ret tt)
    (fun e => teardown dns_records_created ;; raise e).

(** Steps 7 and 8. *)
Definition finish (order : OrderResource)
    (dns_records_created : list (string * string * string)) : M X OrderResource :=
  teardown dns_records_created ;;
  now <- time_time ;;
  client_poll_and_finalize order (now + seconds 90).

(** Steps 6 to 8. *)
Definition after_answer (fuel : nat) (order : OrderResource) (g : Groups)
    (dns_records_created : list (string * string * string)) : M X OrderResource :=
  poll_step fuel g dns_records_created ;;
  finish order dns_records_created.

(** Steps 5 to 8. *)
Definition answer_and_poll (fuel : nat) (order : OrderResource) (g : Groups)
    (dns_records_created : list (string * string * string)) : M X OrderResource :=
  answer_phase g ;;
  after_answer fuel order g dns_records_created.

Definition verdict (all_records_present : bool) : Line :=
  if all_records_present then LineAllConfirmed else LineNotAllPresent.

(** Steps 3 to 8, from the verdict of the verification on. *)
Definition after_verification (fuel : nat) (order : OrderResource) (g : Groups)
    (dns_records_created : list (string * string * string))
    (all_records_present : bool) : M X OrderResource :=
  print (verdict all_records_present) ;;
  sleep_for (seconds DNS_PROPAGATION_WAIT) ;;
  public_check g ;;
  answer_and_poll fuel order g dns_records_created.

(** [request_certificate].  Building the key and the CSR is part of the
    [new_order] call of the ACME collaborator; [fuel] bounds the iterations
    of each poll loop. *)
Definition request_certificate (fuel : nat) (domains : list string)
  : M X OrderResource :=
  order <- client_new_order domains ;;
  challenges_by_record <- collect_challenges (authorizations order) ;;
  cleanup_phase challenges_by_record ;;
  dns_records_created <- create_phase challenges_by_record ;;
  all_records_present <- verify_phase challenges_by_record ;;
  after_verification fuel order challenges_by_record dns_records_created
    all_records_present.

End Program.

(** ** A simulated provider and ACME server

    A small in-memory zone with injectable faults and a scripted sequence of
    authorization statuses; the instance on which the statements are run. *)

Module Sim.

Inductive Fault :=
| FailList | FailGet | FailCreate | FailDelete | FailRefresh
| FailResolve | FailAnswer | FailFinalize.

Global Instance Fault_eq_dec : EqDecision Fault.
Proof. solve_decision. Defined.

Record TxtRecord := {
  rec_id : Z;
  rec_zone : string;
  rec_name : string;
  rec_target : string
}.

Record State := {
  now : Z;
  zone_records : list TxtRecord;
  next_id : Z;
  faults : list Fault;
  poll_script : list Status
}.

Definition faulty (f : Fault) (s : State) : bool := bool_decide (f ∈ faults s).

Definition guarded {A} (f : Fault) (msg : string) (s : State)
    (r : Reply A * State) : Reply A * State :=
  if faulty f s then (Throws (ProviderError msg), s) else r.

Definition at_location (zone name : string) (r : TxtRecord) : bool :=
  bool_decide (rec_zone r = zone ∧ rec_name r = name).

Definition list_records (zone name : string) (s : State) : Reply (list Z) * State :=
  guarded FailList "list" s
    (Returns (rec_id <$> List.filter (at_location zone name) (zone_records s)), s).

Definition get_record (zone : string) (i : Z) (s : State)
  : Reply (option string) * State :=
  guarded FailGet "get" s
    (match List.find (fun r => bool_decide (rec_id r = i)) (zone_records s) with
     | Some r => (Returns (Some (rec_target r)), s)
     | None => (Throws (ProviderError "no such record"), s)
     end).

Definition with_records (s : State) (rs : list TxtRecord) (n : Z) : State :=
  {| now := now s; zone_records := rs; next_id := n;
     faults := faults s; poll_script := poll_script s |}.

(** The provider stores the target between quote characters. *)
Definition quoted (v : string) : string :=
  String dquote (v +:+ String dquote EmptyString).

Definition post_record (zone name target : string) (ttl : Z) (s : State)
  : Reply (option Z) * State :=
  guarded FailCreate "create" s
    (Returns (Some (next_id s)),
     with_records s
       (zone_records s ++ [{| rec_id := next_id s; rec_zone := zone;
                              rec_name := name; rec_target := quoted target |}])
       (next_id s + 1)).

Definition delete_record (zone : string) (i : Z) (s : State) : Reply unit * State :=
  guarded FailDelete "delete" s
    (Returns tt,
     with_records s
       (List.filter (fun r => negb (bool_decide (rec_id r = i))) (zone_records s))
       (next_id s)).

Definition post_refresh (zone : string) (s : State) : Reply unit * State :=
  guarded FailRefresh "refresh" s (Returns tt, s).

Definition resolve_txt (fqdn : string) (s : State) : Reply (list string) * State :=
  if faulty FailResolve s then (Throws (ResolverError "NXDOMAIN"), s)
  else (Returns [], s).

(** One authorization per domain, an HTTP-01 and a DNS-01 challenge each. *)
Definition authz_for (d : string) : Authorization :=
  {| authz_uri := "authz/" +:+ d;
     identifier_value := d;
     authz_challenges :=
       [ {| chall_kind := HTTP01; chall_uri := "http/" +:+ d;
            chall_validation := "h-" +:+ d |};
         {| chall_kind := DNS01; chall_uri := "dns/" +:+ d;
            chall_validation := "v-" +:+ d |} ] |}.

Definition new_order (domains : list string) (s : State)
  : Reply OrderResource * State :=
  (Returns {| order_uri := "order/1";
              authorizations := authz_for <$> domains;
              fullchain_pem := EmptyString |}, s).

Definition answer_challenge (c : ChallengeBody) (s : State) : Reply unit * State :=
  if faulty FailAnswer s then (Throws (AcmeError "answer"), s)
  else (Returns tt, s).

(** A poll takes one second and reads the next scripted status; once the
    script is used up the authorization stays pending. *)
Definition poll (a : Authorization) (s : State) : Reply Status * State :=
  let s' st := {| now := now s + seconds 1; zone_records := zone_records s;
                  next_id := next_id s; faults := faults s; poll_script := st |} in
  match poll_script s with
  | [] => (Returns STATUS_PENDING, s' [])
  | st :: rest => (Returns st, s' rest)
  end.

Definition poll_and_finalize (o : OrderResource) (deadline : Z) (s : State)
  : Reply OrderResource * State :=
  if faulty FailFinalize s then (Throws (AcmeError "finalize"), s)
  else (Returns {| order_uri := order_uri o;
                   authorizations := authorizations o;
                   fullchain_pem := "PEM" |}, s).

Definition sleep (d : Z) (s : State) : State :=
  {| now := now s + Z.max 0 d; zone_records := zone_records s;
     next_id := next_id s; faults := faults s; poll_script := poll_script s |}.

Global Instance collaborators : Collaborators State := {|
  ovh_get_records := list_records;
  ovh_get_record := get_record;
  ovh_post_record := post_record;
  ovh_delete_record := delete_record;
  ovh_post_refresh := post_refresh;
  dns_resolve_txt := resolve_txt;
  acme_new_order := new_order;
  acme_answer_challenge := answer_challenge;
  acme_poll := poll;
  acme_poll_and_finalize := poll_and_finalize;
  clock := now;
  time_sleep := sleep
|}.

Definition init (fs : list Fault) (script : list Status) : State :=
  {| now := 0; zone_records := []; next_id := 1; faults := fs;
     poll_script := script |}.

Definition world (s : State) : World State := mkWorld s ∅ [].

End Sim.


(** ** Traces of runs *)

(** The kinds of events, to say which ones a piece of the program can emit. *)
Inductive Kind :=
| KNewOrder | KList | KGet | KCreate | KDelete | KRefresh | KResolve
| KAnswer | KPoll | KFinalize | KSleep | KPrint
| KCleanupEnter | KCleanupLeave | KCreateEnter | KCreateLeave
| KDeleteEnter | KDeleteLeave.

Global Instance Kind_eq_dec : EqDecision Kind.
Proof. solve_decision. Defined.

Definition kind_of (ev : Event) : Kind :=
  match ev with
  | EvNewOrder _ => KNewOrder
  | EvOvhList _ _ => KList
  | EvOvhGet _ _ => KGet
  | EvOvhCreate _ _ _ _ => KCreate
  | EvOvhDelete _ _ => KDelete
  | EvOvhRefresh _ => KRefresh
  | EvResolve _ => KResolve
  | EvAnswer _ => KAnswer
  | EvPoll _ _ => KPoll
  | EvFinalize _ _ => KFinalize
  | EvSleep _ => KSleep
  | EvPrint _ => KPrint
  | EvEnter (MCleanup _ _) => KCleanupEnter
  | EvLeave (MCleanup _ _) => KCleanupLeave
  | EvEnter (MCreate _ _ _) => KCreateEnter
  | EvLeave (MCreate _ _ _) => KCreateLeave
  | EvEnter (MDelete _ _ _) => KDeleteEnter
  | EvLeave (MDelete _ _ _) => KDeleteLeave
  end.

Definition of_kinds (ks : list Kind) (ev : Event) : Prop :=
  bool_decide (kind_of ev ∈ ks) = true.

Section TracedDef.

Context {X : Type}.

(** [traced P m]: what [m] does is a function of the external state and of
    the handle table alone, and to the trace it only appends, events that
    satisfy [P]. *)
Definition traced {A} (P : Event -> Prop) (m : M X A) : Prop :=
  forall x ids, exists r x' ids' evs,
    Forall P evs /\
    forall tr, m (mkWorld x ids tr) = (r, mkWorld x' ids' (tr ++ evs)).

End TracedDef.

Definition cleanup_kinds : list Kind :=
  [KCleanupEnter; KList; KDelete; KRefresh; KCleanupLeave].
Definition create_kinds : list Kind :=
  [KCreateEnter; KCreate; KRefresh; KCreateLeave].
Definition delete_kinds : list Kind :=
  [KDeleteEnter; KDelete; KRefresh; KDeleteLeave].
Definition verify_kinds : list Kind := [KList; KGet; KPrint].
Definition poll_kinds : list Kind := [KPoll; KSleep].
Definition finish_kinds : list Kind :=
  [KDeleteEnter; KDelete; KRefresh; KDeleteLeave; KFinalize].
Definition after_answer_kinds : list Kind :=
  [KPoll; KSleep; KDeleteEnter; KDelete; KRefresh; KDeleteLeave; KFinalize].
Definition after_create_kinds : list Kind :=
  [KList; KGet; KPrint; KSleep; KResolve; KAnswer;
   KPoll; KDeleteEnter; KDelete; KRefresh; KDeleteLeave; KFinalize].


Section TotalDef.

Context {X : Type}.

(** [total m]: [m] always ends, with a value or an exception. *)
Definition total {A} (m : M X A) : Prop :=
  forall w, fst (m w) <> OutOfFuel.

End TotalDef.

(** ** A concrete session on the simulated collaborators

    The apex-plus-wildcard request of the specification's end-to-end
    scenario. *)

Definition demo_domains : list string := ["a.com"; "*.a.com"].

Definition demo_world (fs : list Sim.Fault) (script : list Status)
  : World Sim.State :=
  Sim.world (Sim.init fs script).

Definition demo_order : OrderResource :=
  {| order_uri := "order/1";
     authorizations := Sim.authz_for <$> demo_domains;
     fullchain_pem := EmptyString |}.

Definition demo_groups : Groups :=
  match collect_challenges (authorizations demo_order) (demo_world [] []) with
  | (Ok g, _) => g
  | _ => []
  end.

Definition demo_created : list (string * string * string) :=
  [("a.com", EmptyString, "v-a.com"); ("a.com", EmptyString, "v-*.a.com")].

(** The world once both TXT records exist. *)
Definition demo_created_world (fs : list Sim.Fault) (script : list Status)
  : World Sim.State :=
  snd (create_phase demo_groups (demo_world fs script)).

(** ** Vocabulary of the statements *)

(** A status that ends no poll loop. *)
Definition pending (s : Status) : Prop :=
  s <> STATUS_VALID /\ s <> STATUS_INVALID.

(** The events of polls that came back pending: each is followed by the
    five-second sleep. *)
Definition pending_rounds (a : Authorization) (sts : list Status) : list Event :=
  List.flat_map (fun s => [EvPoll a (Returns s); EvSleep (seconds 5)]) sts.

(** The value of the local [authz_response] after the listed polls. *)
Definition last_response (sts : list Status) (authz_response : option Status)
  : option Status :=
  fold_left (fun _ s => Some s) sts authz_response.

Section Rounds.

Context {X : Type} `{Collaborators X}.

(** The external state in which the next iteration of the poll loop begins
    after a poll that came back pending: the poll was made, then five
    seconds were slept. *)
Definition next_round (a : Authorization) (x : X) : X :=
  time_sleep (seconds 5) (snd (acme_poll a x)).

Fixpoint after_rounds (a : Authorization) (n : nat) (x : X) : X :=
  match n with
  | O => x
  | S n' => after_rounds a n' (next_round a x)
  end.

(** Starting in [x], the polls of [a] come back with the statuses [sts],
    round after round, and none of them is started after [deadline]. *)
Fixpoint polled_pending (a : Authorization) (deadline : Z) (x : X)
    (sts : list Status) : Prop :=
  match sts with
  | [] => True
  | s :: rest =>
      clock x <= deadline /\
      fst (acme_poll a x) = Returns s /\
      polled_pending a deadline (next_round a x) rest
  end.

End Rounds.

Section Prefix.

Context {X : Type} `{Collaborators X}.

(** Steps 1 to 5 of [request_certificate], handing over what the later
    steps use. *)
Definition before_polling (domains : list string)
  : M X (OrderResource * Groups * list (string * string * string)) :=
  (order <- client_new_order domains ;;
   challenges_by_record <- collect_challenges (authorizations order) ;;
   cleanup_phase challenges_by_record ;;
   dns_records_created <- create_phase challenges_by_record ;;
   all_records_present <- verify_phase challenges_by_record ;;
   print (verdict all_records_present) ;;
   sleep_for (seconds DNS_PROPAGATION_WAIT) ;;
   public_check challenges_by_record ;;
   answer_phase challenges_by_record ;;
   ret (order, challenges_by_record, dns_records_created))%py.

End Prefix.

(** The challenge entry of a domain of the simulated server. *)
Definition demo_ci (d : string) : ChallengeInfo :=
  {| ci_challenge := {| chall_kind := DNS01; chall_uri := "dns/" +:+ d;
                        chall_validation := "v-" +:+ d |};
     ci_authz := Sim.authz_for d;
     ci_domain_name := d |}.

(** Three domains, the second of which is rejected. *)
Definition trio_domains : list string := ["a.com"; "b.com"; "c.com"].

Definition trio_start : World Sim.State :=
  demo_world [] [STATUS_VALID; STATUS_INVALID].

Definition trio_order : OrderResource :=
  {| order_uri := "order/1";
     authorizations := Sim.authz_for <$> trio_domains;
     fullchain_pem := EmptyString |}.

Definition trio_groups : Groups :=
  match collect_challenges (authorizations trio_order) trio_start with
  | (Ok g, _) => g
  | _ => []
  end.

Definition trio_created : list (string * string * string) :=
  [("a.com", EmptyString, "v-a.com"); ("b.com", EmptyString, "v-b.com");
   ("c.com", EmptyString, "v-c.com")].

Definition trio_polling : World Sim.State :=
  snd (before_polling trio_domains trio_start).

Definition trio_after_a : World Sim.State :=
  snd (poll_domain 19 None (demo_ci "a.com") trio_polling).

Definition trio_after_b : World Sim.State :=
  snd (poll_domain 19 (Some STATUS_VALID) (demo_ci "b.com") trio_after_a).

(** The location a group's records live at, as the loops read it from the
    group's own fields. *)
Definition locations (g : Groups) : list (string * string) :=
  (fun item => (base_domain item.2, subdomain item.2)) <$> g.

(** The locations for which [cleanup_old_challenge_records] was entered,
    and those for which it was left, in trace order. *)
Definition cleanup_enters (evs : list Event) : list (string * string) :=
  omap (fun ev => match ev with
                  | EvEnter (MCleanup d s) => Some (d, s)
                  | _ => None
                  end) evs.

Definition cleanup_leaves (evs : list Event) : list (string * string) :=
  omap (fun ev => match ev with
                  | EvLeave (MCleanup d s) => Some (d, s)
                  | _ => None
                  end) evs.

Section Reported.

Context {X : Type} `{Collaborators X}.

(** The TXT values the provider reports at a location, quotes stripped:
    the reads of the verification loop without its membership test. *)
Definition report_step (zone : string) (reported : list string) (record_id : Z)
  : M X (list string) :=
  (record_details <- client_get_record zone record_id ;;
   ret (reported ++ [clean_target_of record_details]))%py.

Definition reported_values (zone record_name : string) : M X (list string) :=
  (existing_records <- client_get_records zone record_name ;;
   for_fold existing_records (report_step zone) [])%py.

End Reported.

(** A zone in which one value is listed twice while a second expected value
    is missing. *)
Definition dup_world : World Sim.State :=
  Sim.world
    {| Sim.now := 0;
       Sim.zone_records :=
         [ {| Sim.rec_id := 1; Sim.rec_zone := "a.com";
              Sim.rec_name := "_acme-challenge"; Sim.rec_target := Sim.quoted "a" |};
           {| Sim.rec_id := 2; Sim.rec_zone := "a.com";
              Sim.rec_name := "_acme-challenge"; Sim.rec_target := Sim.quoted "a" |} ];
       Sim.next_id := 3;
       Sim.faults := [];
       Sim.poll_script := [] |}.

(** The same zone with the value listed once. *)
Definition once_world : World Sim.State :=
  Sim.world
    {| Sim.now := 0;
       Sim.zone_records :=
         [ {| Sim.rec_id := 1; Sim.rec_zone := "a.com";
              Sim.rec_name := "_acme-challenge"; Sim.rec_target := Sim.quoted "a" |} ];
       Sim.next_id := 2;
       Sim.faults := [];
       Sim.poll_script := [] |}.

Definition dup_item : (string * string) * RecordInfo :=
  (("a.com", EmptyString),
   {| base_domain := "a.com"; subdomain := EmptyString;
      validations := ["a"; "b"]; challenges := [] |}).

Definition dup_groups : Groups := [dup_item].

(** ** Further parts of the source *)

(** Whether a character occurs in a string. *)
Fixpoint has_char (c : ascii) (s : string) : bool :=
  match s with
  | EmptyString => false
  | String a s' => if decide (a = c) then true else has_char c s'
  end.

(** [main], line 453: the file name under which certificate and key are
    saved, [DOMAINS[0].replace('*.', 'wildcard-').replace('/', '-')]. *)
Definition certificate_filename (first_domain : string) : string :=
  PyStr.replace "/" "-" (PyStr.replace "*." "wildcard-" first_domain).

(** The entry that step 1 of [request_certificate] makes for an
    authorization: its first DNS-01 challenge, the authorization and its
    domain. *)
Definition challenge_info_of (authz : Authorization) : option ChallengeInfo :=
  (fun c => {| ci_challenge := c; ci_authz := authz;
               ci_domain_name := identifier_value authz |})
    <$> find_dns01 (authz_challenges authz).

Definition challenge_infos (authzs : list Authorization) : list ChallengeInfo :=
  omap challenge_info_of authzs.

(** The entries of [seen] whose domain has record location [k]. *)
Definition located_at (k : string * string) (seen : list ChallengeInfo)
  : list ChallengeInfo :=
  filter (fun ci => resolve (ci_domain_name ci) = k) seen.

(** What grouping keeps true of [challenges_by_record] once the entries
    [seen] have been filed. *)
Definition grouped (seen : list ChallengeInfo) (g : Groups) : Prop :=
  NoDup g.*1 /\
  (forall ci, ci ∈ seen -> resolve (ci_domain_name ci) ∈ g.*1) /\
  Forall (fun item : (string * string) * RecordInfo =>
            item.1 = (base_domain item.2, subdomain item.2) /\
            challenges item.2 = located_at item.1 seen /\
            validations item.2
              = (fun ci => chall_validation (ci_challenge ci)) <$> challenges item.2 /\
            challenges item.2 <> []) g.

Section TableDef.

Context {X : Type}.

(** [keeps_table m]: whatever happens, [m] leaves the handle table
    [record_ids] as it found it. *)
Definition keeps_table {A} (m : M X A) : Prop :=
  forall w, record_ids (snd (m w)) = record_ids w.

End TableDef.

(** The records that step 2 has to create: for each group in order, one
    per validation value. *)
Definition expected_records (g : Groups) : list (string * string * string) :=
  concat ((fun item : (string * string) * RecordInfo =>
             (fun v => (base_domain item.2, subdomain item.2, v))
               <$> validations item.2) <$> g).

(** The arguments with which [create_txt_record] and [delete_txt_record]
    were entered, in trace order. *)
Definition create_enters (evs : list Event) : list (string * string * string) :=
  omap (fun ev => match ev with
                  | EvEnter (MCreate d s v) => Some (d, s, v)
                  | _ => None
                  end) evs.

Definition delete_enters (evs : list Event)
  : list (string * string * option string) :=
  omap (fun ev => match ev with
                  | EvEnter (MDelete d s v) => Some (d, s, v)
                  | _ => None
                  end) evs.

Definition delete_leaves (evs : list Event)
  : list (string * string * option string) :=
  omap (fun ev => match ev with
                  | EvLeave (MDelete d s v) => Some (d, s, v)
                  | _ => None
                  end) evs.

(** ** [cleanup_acme_records.py] *)

(** Lines 27-29: the zone of the first configured domain. *)
Definition script_zone (first : string) : string :=
  let first_domain := PyStr.replace "*." "" first in
  let parts := PyStr.split "." first_domain in
  if decide (2 <= length parts)%nat then PyStr.join "." (PyStr.last_two parts)
  else first_domain.

(** How the script ends: with the [IndexError] of [DOMAINS[0]] on an empty
    list, before anything else happens, or with the outcome of its body. *)
Inductive ScriptOutcome :=
| ScriptIndexError
| ScriptDone (r : Outcome unit).

Section Script.

Context {X : Type} `{Collaborators X}.

(** Lines 34-60: list the records named [_acme-challenge], read and delete
    each, refresh the zone; any exception is printed and raised again. *)
Definition cleanup_script_body (zone : string) : M X unit :=
  try_except
    (record_ids <- client_get_records zone "_acme-challenge" ;;
     match record_ids with
     | [] => ret tt
     | _ =>
         for_each record_ids
           (fun record_id =>
              record <- client_get_record zone record_id ;;
              client_delete_record zone record_id) ;;
         client_post_refresh zone
     end)%py
    (fun e => raise e).

Definition cleanup_acme_records (domains : list string) (w : World X)
  : ScriptOutcome * World X :=
  match domains with
  | [] => (ScriptIndexError, w)
  | first :: _ =>
      let '(r, w') := cleanup_script_body (script_zone first) w in
      (ScriptDone r, w')
  end.

End Script.

Section Chains.

Context {X : Type}.

(** The external state after the calls [f a] for the [a] of [l], made in
    order, when every one of them returns; [None] when one of them raises. *)
Fixpoint all_return {A B} (f : A -> X -> Reply B * X) (l : list A) (x : X)
  : option X :=
  match l with
  | [] => Some x
  | a :: rest =>
      match f a x with
      | (Returns _, x') => all_return f rest x'
      | (Throws _, _) => None
      end
  end.

End Chains.

Section ScriptCalls.

Context {X : Type} `{Collaborators X}.

(** What the script does with one listed record, as one step on the
    external state: read it, then delete it. *)
Definition read_then_delete (zone : string) (record_id : Z) (x : X)
  : Reply unit * X :=
  match ovh_get_record zone record_id x with
  | (Returns _, x') => ovh_delete_record zone record_id x'
  | (Throws e, x') => (Throws e, x')
  end.

End ScriptCalls.

(** What steps 2 to 4 of [request_certificate] can emit: the clean-up and
    the creation of records, the verification, the wait and the public
    check. *)
Definition setup_kinds : list Kind :=
  [KCleanupEnter; KList; KDelete; KRefresh; KCleanupLeave;
   KCreateEnter; KCreate; KCreateLeave; KGet; KPrint; KSleep; KResolve].

(** The provider calls that concern one record name of one zone. *)
Definition concerns (zone record_name : string) (ev : Event) : Prop :=
  match ev with
  | EvOvhList z n => z = zone /\ n = record_name
  | EvOvhGet z _ => z = zone
  | EvOvhDelete z _ => z = zone
  | EvOvhRefresh z => z = zone
  | _ => False
  end.

(** The events of reading and deleting each listed record in turn. *)
Definition read_and_delete (zone : string) (ids : list Z) : list Event :=
  List.flat_map (fun i => [EvOvhGet zone i; EvOvhDelete zone i]) ids.

(** ** An ACME server that offers no DNS-01 challenge

    A second, trivial set of collaborators: every call returns at once and
    the order holds one authorization with an HTTP-01 challenge only. *)

Module HttpOnly.

Definition authz : Authorization :=
  {| authz_uri := "authz/1";
     identifier_value := "a.com";
     authz_challenges :=
       [ {| chall_kind := HTTP01; chall_uri := "http/1";
            chall_validation := "h" |} ] |}.

Definition order : OrderResource :=
  {| order_uri := "order/1"; authorizations := [authz];
     fullchain_pem := EmptyString |}.

Global Instance collaborators : Collaborators unit := {|
  ovh_get_records := fun _ _ x => (Returns [], x);
  ovh_get_record := fun _ _ x => (Returns None, x);
  ovh_post_record := fun _ _ _ _ x => (Returns (Some 1), x);
  ovh_delete_record := fun _ _ x => (Returns tt, x);
  ovh_post_refresh := fun _ x => (Returns tt, x);
  dns_resolve_txt := fun _ x => (Returns [], x);
  acme_new_order := fun _ x => (Returns order, x);
  acme_answer_challenge := fun _ x => (Returns tt, x);
  acme_poll := fun _ x => (Returns STATUS_VALID, x);
  acme_poll_and_finalize := fun o _ x => (Returns o, x);
  clock := fun _ => 0;
  time_sleep := fun _ x => x
|}.

Definition start : World unit := mkWorld tt ∅ [].

End HttpOnly.

(** The simulated world after one record was created. *)
Definition one_record_world (fs : list Sim.Fault) : World Sim.State :=
  snd (create_txt_record "a.com" EmptyString "v-a.com" (demo_world fs [])).

(** ** Collaborators that never fail

    A third set of collaborators, over a one-point state: the provider
    numbers every record 7, every call succeeds, every authorization is
    valid at the first poll and offers a DNS-01 challenge, and finalization
    hands back the order with a certificate chain. *)

Module AllGood.

Inductive State := here.

Global Instance collaborators : Collaborators State := {|
  ovh_get_records := fun _ _ x => (Returns [], x);
  ovh_get_record := fun _ _ x => (Returns None, x);
  ovh_post_record := fun _ _ _ _ x => (Returns (Some 7), x);
  ovh_delete_record := fun _ _ x => (Returns tt, x);
  ovh_post_refresh := fun _ x => (Returns tt, x);
  dns_resolve_txt := fun _ x => (Returns [], x);
  acme_new_order := fun ds x =>
    (Returns {| order_uri := "order/1";
                authorizations := Sim.authz_for <$> ds;
                fullchain_pem := EmptyString |}, x);
  acme_answer_challenge := fun _ x => (Returns tt, x);
  acme_poll := fun _ x => (Returns STATUS_VALID, x);
  acme_poll_and_finalize := fun o _ x =>
    (Returns {| order_uri := order_uri o;
                authorizations := authorizations o;
                fullchain_pem := "PEM" |}, x);
  clock := fun _ => 0;
  time_sleep := fun _ x => x
|}.

Definition start : World State := mkWorld here ∅ [].

End AllGood.
(** * Proofs *)

(** ** The record location of a domain *)

Example resolve_apex : resolve "example.com" = ("example.com", "").
Proof. reflexivity. Qed.

Example resolve_wildcard : resolve "*.example.com" = ("example.com", "").
Proof. reflexivity. Qed.

Example resolve_sub_wildcard :
  resolve "*.sub.example.com" = ("example.com", "sub").
Proof. reflexivity. Qed.

Example resolve_single_label : resolve "localhost" = ("localhost", "").
Proof. reflexivity. Qed.

Example resolve_spec_sub_wildcard :
  resolve_spec "*.sub.example.com" = ("example.com", "sub").
Proof. reflexivity. Qed.

(** [split] never yields the empty list, so [_get_base_domain] always has
    labels to join. *)
Lemma split_nonempty sep s : PyStr.split sep s <> [].
Proof.
  destruct s as [|c s]; simpl; [done|].
  case_decide; [done|]. by destruct (PyStr.split sep s).
Qed.

(** C3. The three record locations that the specification lists come out as
    stated, but the subdomain is computed with [str.replace], which removes
    every occurrence of [.zone] and not only the suffix: for
    [a.example.com.example.com] the source yields the subdomain [a], where
    removing the suffix yields [a.example.com]. *)
Theorem resolve_removes_every_zone_occurrence :
  resolve "example.com" = ("example.com", "") /\
  resolve "*.example.com" = ("example.com", "") /\
  resolve "*.sub.example.com" = ("example.com", "sub") /\
  resolve "a.example.com.example.com" = ("example.com", "a") /\
  resolve_spec "a.example.com.example.com" = ("example.com", "a.example.com") /\
  resolve "a.example.com.example.com" <> resolve_spec "a.example.com.example.com".
Proof. repeat split; try reflexivity. vm_compute. discriminate. Qed.

Section Traces.

Context {X : Type}.

Lemma traced_run {A} P (m : M X A) (w : World X) :
  traced P m ->
  exists r w' evs, m w = (r, w') /\ trace w' = trace w ++ evs /\ Forall P evs.
Proof.
  intros Hm. destruct w as [x ids tr].
  destruct (Hm x ids) as (r & x' & ids' & evs & HP & Hrun).
  exists r, (mkWorld x' ids' (tr ++ evs)), evs. by rewrite Hrun.
Qed.

Lemma traced_weaken {A} (P Q : Event -> Prop) (m : M X A) :
  (forall ev, P ev -> Q ev) -> traced P m -> traced Q m.
Proof.
  intros HPQ Hm x ids.
  destruct (Hm x ids) as (r & x' & ids' & evs & HP & Hrun).
  exists r, x', ids', evs. split; [|done].
  eapply Forall_impl; eauto.
Qed.

Lemma traced_ret {A} P (a : A) : traced P (ret a : M X A).
Proof.
  intros x ids. exists (Ok a), x, ids, []. split; [constructor|].
  intros tr. unfold ret. by rewrite app_nil_r.
Qed.

Lemma traced_raise {A} P e : traced P (raise e : M X A).
Proof.
  intros x ids. exists (Raise e), x, ids, []. split; [constructor|].
  intros tr. unfold raise. by rewrite app_nil_r.
Qed.

Lemma traced_diverge {A} P : traced P (diverge : M X A).
Proof.
  intros x ids. exists OutOfFuel, x, ids, []. split; [constructor|].
  intros tr. unfold diverge. by rewrite app_nil_r.
Qed.

Lemma traced_bind {A B} P (m : M X A) (k : A -> M X B) :
  traced P m -> (forall a, traced P (k a)) -> traced P (bind m k).
Proof.
  intros Hm Hk x ids.
  destruct (Hm x ids) as (r & x1 & ids1 & evs1 & HP1 & Hrun1).
  destruct r as [a|e|].
  - destruct (Hk a x1 ids1) as (r2 & x2 & ids2 & evs2 & HP2 & Hrun2).
    exists r2, x2, ids2, (evs1 ++ evs2). split; [by apply Forall_app|].
    intros tr. unfold bind. by rewrite Hrun1, Hrun2, app_assoc.
  - exists (Raise e), x1, ids1, evs1. split; [done|].
    intros tr. unfold bind. by rewrite Hrun1.
  - exists OutOfFuel, x1, ids1, evs1. split; [done|].
    intros tr. unfold bind. by rewrite Hrun1.
Qed.

Lemma traced_try_except {A} P (body : M X A) (handler : Exn -> M X A) :
  traced P body -> (forall e, traced P (handler e)) ->
  traced P (try_except body handler).
Proof.
  intros Hm Hk x ids.
  destruct (Hm x ids) as (r & x1 & ids1 & evs1 & HP1 & Hrun1).
  destruct r as [a|e|].
  - exists (Ok a), x1, ids1, evs1. split; [done|].
    intros tr. unfold try_except. by rewrite Hrun1.
  - destruct (Hk e x1 ids1) as (r2 & x2 & ids2 & evs2 & HP2 & Hrun2).
    exists r2, x2, ids2, (evs1 ++ evs2). split; [by apply Forall_app|].
    intros tr. unfold try_except. by rewrite Hrun1, Hrun2, app_assoc.
  - exists OutOfFuel, x1, ids1, evs1. split; [done|].
    intros tr. unfold try_except. by rewrite Hrun1.
Qed.

Lemma traced_for_each {A} P (xs : list A) (body : A -> M X unit) :
  (forall a, traced P (body a)) -> traced P (for_each xs body).
Proof.
  intros Hb. induction xs as [|a xs IH]; simpl.
  - apply traced_ret.
  - apply traced_bind; auto.
Qed.

Lemma traced_for_fold {A S} P (xs : list A) (body : S -> A -> M X S) (s : S) :
  (forall s a, traced P (body s a)) -> traced P (for_fold xs body s).
Proof.
  intros Hb. revert s. induction xs as [|a xs IH]; intros s; simpl.
  - apply traced_ret.
  - apply traced_bind; auto.
Qed.

Lemma traced_emit (P : Event -> Prop) ev : P ev -> traced P (emit ev : M X unit).
Proof.
  intros HP x ids. exists (Ok tt), x, ids, [ev]. split; [by repeat constructor|].
  done.
Qed.

Lemma traced_call {A} (P : Event -> Prop) (f : X -> Reply A * X) ev :
  (forall r, P (ev r)) -> traced P (call f ev).
Proof.
  intros HP x ids. unfold call. simpl.
  destruct (f x) as [r x'] eqn:Hf.
  destruct r as [a|e].
  - exists (Ok a), x', ids, [ev (Returns a)]. split; [by repeat constructor|done].
  - exists (Raise (External e)), x', ids, [ev (Throws e)].
    split; [by repeat constructor|done].
Qed.

Lemma traced_method {A} (P : Event -> Prop) m (body : M X A) :
  P (EvEnter m) -> P (EvLeave m) -> traced P body -> traced P (method m body).
Proof.
  intros HE HL Hb x ids.
  destruct (Hb x ids) as (r & x1 & ids1 & evs1 & HP1 & Hrun1).
  exists r, x1, ids1, (EvEnter m :: evs1 ++ [EvLeave m]). split.
  - constructor; [done|]. apply Forall_app. split; [done|by repeat constructor].
  - intros tr. unfold method. simpl. rewrite Hrun1. simpl.
    by rewrite <- !app_assoc.
Qed.

Lemma traced_get_record_ids P : traced P (get_record_ids : M X _).
Proof.
  intros x ids. exists (Ok ids), x, ids, []. split; [constructor|].
  intros tr. unfold get_record_ids. simpl. by rewrite app_nil_r.
Qed.

Lemma traced_set_record_ids P t : traced P (set_record_ids t : M X _).
Proof.
  intros x ids. exists (Ok tt), x, t, []. split; [constructor|].
  intros tr. unfold set_record_ids. simpl. by rewrite app_nil_r.
Qed.

End Traces.

(** ** Which events each piece of the program emits *)

Lemma of_kinds_mono (ks1 ks2 : list Kind) :
  forallb (fun k => bool_decide (k ∈ ks2)) ks1 = true ->
  forall ev, of_kinds ks1 ev -> of_kinds ks2 ev.
Proof.
  intros Hsub ev Hev. unfold of_kinds in *.
  apply bool_decide_eq_true. apply bool_decide_eq_true in Hev.
  rewrite forallb_forall in Hsub.
  specialize (Hsub (kind_of ev)).
  apply (proj1 (bool_decide_eq_true _)), Hsub. by apply list_elem_of_In.
Qed.

Ltac kinds_leaf := solve [ intros; unfold of_kinds; vm_compute; reflexivity ].

Ltac traced_auto :=
  repeat first
    [ progress intros
    | apply traced_ret | apply traced_raise | apply traced_diverge
    | apply traced_get_record_ids | apply traced_set_record_ids
    | apply traced_bind | apply traced_try_except
    | apply traced_for_each | apply traced_for_fold
    | apply traced_method | apply traced_call | apply traced_emit
    | kinds_leaf
    | case_match | case_decide ].

(** Use a lemma about a sub-program whose kinds are among those of the goal. *)
Ltac traced_by lem :=
  eapply traced_weaken; [ | apply lem ]; apply of_kinds_mono; vm_compute; reflexivity.

Section ProgramTraces.

Context {X : Type} `{Collaborators X}.

Lemma traced_time_time P : traced P (time_time : M X Z).
Proof.
  intros x ids. exists (Ok (clock x)), x, ids, []. split; [constructor|].
  intros tr. unfold time_time. simpl. by rewrite app_nil_r.
Qed.

Lemma traced_sleep_for (P : Event -> Prop) d :
  P (EvSleep d) -> traced P (sleep_for d : M X unit).
Proof.
  intros HP x ids. exists (Ok tt), (time_sleep d x), ids, [EvSleep d].
  split; [by repeat constructor|done].
Qed.

Lemma traced_cleanup domain subdomain :
  traced (of_kinds cleanup_kinds)
    (cleanup_old_challenge_records domain subdomain : M X unit).
Proof.
  unfold cleanup_old_challenge_records, client_get_records,
    client_delete_record, client_post_refresh.
  traced_auto.
Qed.

Lemma traced_create domain subdomain value :
  traced (of_kinds create_kinds) (create_txt_record domain subdomain value : M X Z).
Proof.
  unfold create_txt_record, client_post_record, client_post_refresh.
  traced_auto.
Qed.

Lemma traced_delete domain subdomain value :
  traced (of_kinds delete_kinds) (delete_txt_record domain subdomain value : M X unit).
Proof.
  unfold delete_txt_record, client_delete_record, client_post_refresh.
  traced_auto.
Qed.

Lemma traced_collect authzs :
  traced (of_kinds []) (collect_challenges authzs : M X Groups).
Proof.
  unfold collect_challenges. apply traced_for_fold. intros g a.
  unfold collect_authz. traced_auto.
Qed.

Lemma traced_cleanup_phase g :
  traced (of_kinds cleanup_kinds) (cleanup_phase g : M X _).
Proof.
  unfold cleanup_phase. apply traced_for_fold. intros s item.
  unfold cleanup_step. case_decide; [apply traced_ret|].
  apply traced_bind; [apply traced_cleanup|]. intros; apply traced_ret.
Qed.

Lemma traced_create_phase g :
  traced (of_kinds create_kinds) (create_phase g : M X _).
Proof.
  unfold create_phase. apply traced_for_fold. intros s item.
  unfold create_step. apply traced_for_fold. intros s' v.
  apply traced_bind; [apply traced_create|]. intros; apply traced_ret.
Qed.

Lemma traced_verify_phase g :
  traced (of_kinds verify_kinds) (verify_phase g : M X bool).
Proof.
  unfold verify_phase. apply traced_for_fold. intros b item.
  unfold verify_step, scan_step, client_get_records, client_get_record, print.
  traced_auto.
Qed.

Lemma traced_public_check g :
  traced (of_kinds [KResolve]) (public_check g : M X unit).
Proof. unfold public_check, resolver_resolve. traced_auto. Qed.

Lemma traced_answer_phase g :
  traced (of_kinds [KAnswer]) (answer_phase g : M X unit).
Proof. unfold answer_phase, client_answer_challenge. traced_auto. Qed.

Lemma traced_poll_loop fuel ci deadline last :
  traced (of_kinds poll_kinds) (poll_loop fuel ci deadline last : M X _).
Proof.
  revert last. induction fuel as [|fuel IH]; intros last; simpl.
  - apply traced_diverge.
  - apply traced_bind; [apply traced_time_time|]. intros now.
    case_decide; [|apply traced_ret].
    apply traced_bind; [unfold client_poll; traced_auto|]. intros st.
    repeat case_decide; try apply traced_ret; try apply traced_raise.
    apply traced_bind; [apply traced_sleep_for; kinds_leaf|]. intros _. apply IH.
Qed.

Lemma traced_poll_domain fuel last ci :
  traced (of_kinds poll_kinds) (poll_domain fuel last ci : M X _).
Proof.
  unfold poll_domain.
  apply traced_bind; [apply traced_time_time|]. intros now.
  apply traced_bind; [apply traced_poll_loop|]. intros r.
  traced_auto.
Qed.

Lemma traced_poll_phase fuel g :
  traced (of_kinds poll_kinds) (poll_phase fuel g : M X _).
Proof. apply traced_for_fold. intros. apply traced_poll_domain. Qed.

Lemma traced_teardown created :
  traced (of_kinds delete_kinds) (teardown created : M X unit).
Proof.
  apply traced_for_each. intros [[b s] v]. apply traced_delete.
Qed.

Lemma traced_finish order created :
  traced (of_kinds finish_kinds) (finish order created : M X _).
Proof.
  unfold finish.
  apply traced_bind; [traced_by traced_teardown|]. intros _.
  apply traced_bind; [apply traced_time_time|]. intros now.
  unfold client_poll_and_finalize. traced_auto.
Qed.

Lemma traced_poll_step fuel g created :
  traced (of_kinds after_answer_kinds) (poll_step fuel g created : M X unit).
Proof.
  unfold poll_step. apply traced_try_except.
  - apply traced_bind; [traced_by traced_poll_phase|]. intros; apply traced_ret.
  - intros e. apply traced_bind; [traced_by traced_teardown|].
    intros; apply traced_raise.
Qed.

Lemma traced_after_answer fuel order g created :
  traced (of_kinds after_answer_kinds) (after_answer fuel order g created : M X _).
Proof.
  unfold after_answer.
  apply traced_bind; [apply traced_poll_step|]. intros _.
  traced_by traced_finish.
Qed.

Lemma traced_answer_and_poll fuel order g created :
  traced (of_kinds after_create_kinds)
    (answer_and_poll fuel order g created : M X _).
Proof.
  unfold answer_and_poll.
  apply traced_bind; [traced_by traced_answer_phase|]. intros _.
  traced_by traced_after_answer.
Qed.

Lemma traced_after_verification fuel order g created b :
  traced (of_kinds after_create_kinds)
    (after_verification fuel order g created b : M X _).
Proof.
  unfold after_verification.
  apply traced_bind; [unfold print; traced_auto|]. intros _.
  apply traced_bind; [apply traced_sleep_for; kinds_leaf|]. intros _.
  apply traced_bind; [traced_by traced_public_check|]. intros _.
  apply traced_answer_and_poll.
Qed.

End ProgramTraces.

(** ** Pieces of the program that need no bound on iterations *)

Section Total.

Context {X : Type}.

Lemma total_ret {A} (a : A) : total (ret a : M X A).
Proof. by intros w. Qed.

Lemma total_raise {A} e : total (raise e : M X A).
Proof. by intros w. Qed.

Lemma total_bind {A B} (m : M X A) (k : A -> M X B) :
  total m -> (forall a, total (k a)) -> total (bind m k).
Proof.
  intros Hm Hk w. unfold bind. specialize (Hm w).
  destruct (m w) as [[a|e|] w']; simpl in *; [apply Hk|done|done].
Qed.

Lemma total_try_except {A} (body : M X A) handler :
  total body -> (forall e, total (handler e)) -> total (try_except body handler).
Proof.
  intros Hm Hk w. unfold try_except. specialize (Hm w).
  destruct (body w) as [[a|e|] w']; simpl in *; [done|apply Hk|done].
Qed.

Lemma total_for_each {A} (xs : list A) (body : A -> M X unit) :
  (forall a, total (body a)) -> total (for_each xs body).
Proof.
  intros Hb. induction xs as [|a xs IH]; simpl.
  - apply total_ret.
  - apply total_bind; auto.
Qed.

Lemma total_for_fold {A S} (xs : list A) (body : S -> A -> M X S) (s : S) :
  (forall s a, total (body s a)) -> total (for_fold xs body s).
Proof.
  intros Hb. revert s. induction xs as [|a xs IH]; intros s; simpl.
  - apply total_ret.
  - apply total_bind; auto.
Qed.

Lemma total_emit ev : total (emit ev : M X unit).
Proof. by intros w. Qed.

Lemma total_call {A} (f : X -> Reply A * X) ev : total (call f ev).
Proof.
  intros w. unfold call. destruct (f (ext w)) as [[a|e] x']; by simpl.
Qed.

Lemma total_method {A} m (body : M X A) : total body -> total (method m body).
Proof.
  intros Hb w. unfold method.
  specialize (Hb (mkWorld (ext w) (record_ids w) (trace w ++ [EvEnter m]))).
  by destruct (body _) as [r w'].
Qed.

Lemma total_get_record_ids : total (get_record_ids : M X _).
Proof. by intros w. Qed.

Lemma total_set_record_ids t : total (set_record_ids t : M X _).
Proof. by intros w. Qed.

(** A handler that swallows: the outcome is a plain return. *)
Lemma try_except_swallow (body : M X unit) (w : World X) :
  total body -> exists w', try_except body (fun _ => ret tt) w = (Ok tt, w').
Proof.
  intros Hb. unfold try_except. specialize (Hb w).
  destruct (body w) as [[[]|e|] w']; simpl in *; eauto. done.
Qed.

Lemma method_returns {A} m (body : M X A) (w : World X) (a : A) :
  (forall w0, exists w', body w0 = (Ok a, w')) ->
  exists w', method m body w = (Ok a, w').
Proof.
  intros Hb. unfold method.
  destruct (Hb (mkWorld (ext w) (record_ids w) (trace w ++ [EvEnter m]))) as [w' ->].
  eauto.
Qed.

End Total.

Ltac total_auto :=
  repeat first
    [ progress intros
    | apply total_ret | apply total_raise
    | apply total_get_record_ids | apply total_set_record_ids
    | apply total_bind | apply total_try_except
    | apply total_for_each | apply total_for_fold
    | apply total_method | apply total_call | apply total_emit
    | case_match | case_decide ].

(** ** The DNS handler *)

Section Handler.

Context {X : Type} `{Collaborators X}.

Lemma cleanup_never_raises domain subdomain (w : World X) :
  exists w', cleanup_old_challenge_records domain subdomain w = (Ok tt, w').
Proof.
  unfold cleanup_old_challenge_records. apply method_returns. intros w0.
  apply try_except_swallow.
  unfold client_get_records, client_delete_record, client_post_refresh.
  total_auto.
Qed.

Lemma delete_never_raises domain subdomain value (w : World X) :
  exists w', delete_txt_record domain subdomain value w = (Ok tt, w').
Proof.
  unfold delete_txt_record. apply method_returns. intros w0.
  unfold bind at 1, get_record_ids at 1.
  destruct (record_ids w0 !! _) as [record_id|]; [|by eexists].
  apply try_except_swallow.
  unfold client_delete_record, client_post_refresh.
  total_auto.
Qed.

Lemma teardown_never_raises created (w : World X) :
  exists w', teardown created w = (Ok tt, w').
Proof.
  revert w. induction created as [|[[b s] v] created IH]; intros w.
  - by eexists.
  - change (teardown ((b, s, v) :: created) w)
      with (bind (delete_txt_record b s (Some v)) (fun _ => teardown created) w).
    unfold bind.
    destruct (delete_never_raises b s (Some v) w) as [w1 ->]. apply IH.
Qed.

(** C9. [delete_txt_record] for a key that the handle table does not hold
    does nothing: it returns normally, makes no provider call (the trace
    gains only the entry and the exit of the method), and leaves the
    external state and the table as they were. *)
Theorem delete_txt_record_absent_key domain subdomain value (w : World X) :
  record_ids w !! delete_key (record_name_of subdomain) value = None ->
  delete_txt_record domain subdomain value w =
    (Ok tt,
     mkWorld (ext w) (record_ids w)
       (trace w ++ [EvEnter (MDelete domain subdomain value);
                    EvLeave (MDelete domain subdomain value)])).
Proof.
  intros Hkey. unfold delete_txt_record, method, bind, get_record_ids. simpl.
  rewrite Hkey. unfold ret. simpl. by rewrite <- app_assoc.
Qed.

(** C10. When the provider creates the record (reply with id [i]) and the
    zone refresh that follows raises [e], [create_txt_record] raises [e]
    and the table already maps the key [record_name:value] to [i]: the
    handle was stored between the two provider calls. *)
Theorem create_txt_record_stores_before_refresh
    domain subdomain value (w : World X) i x1 e x2 :
  ovh_post_record (_get_zone domain) (record_name_of subdomain) value 60 (ext w)
    = (Returns (Some i), x1) ->
  ovh_post_refresh (_get_zone domain) x1 = (Throws e, x2) ->
  exists w',
    create_txt_record domain subdomain value w = (Raise (External e), w') /\
    record_ids w' !! (record_name_of subdomain +:+ ":" +:+ value) = Some i /\
    record_ids w' = <[record_name_of subdomain +:+ ":" +:+ value := i]> (record_ids w) /\
    ext w' = x2 /\
    trace w' = trace w ++
      [EvEnter (MCreate domain subdomain value);
       EvOvhCreate (_get_zone domain) (record_name_of subdomain) value 60;
       EvOvhRefresh (_get_zone domain);
       EvLeave (MCreate domain subdomain value)].
Proof.
  intros Hpost Hrefresh.
  unfold create_txt_record, method, try_except, bind, client_post_record,
    client_post_refresh, call, get_record_ids, set_record_ids, ret, raise.
  simpl. rewrite Hpost. simpl. rewrite Hrefresh. simpl.
  eexists. split; [reflexivity|]. simpl.
  split; [apply lookup_insert_eq|]. split; [done|]. split; [done|].
  by rewrite <- !app_assoc.
Qed.

End Handler.

Lemma delete_txt_record_absent_key_witness :
  record_ids (demo_world [] []) !! delete_key (record_name_of "") (Some "v") = None /\
  delete_txt_record "a.com" "" (Some "v") (demo_world [] []) =
    (Ok tt,
     mkWorld (ext (demo_world [] [])) (record_ids (demo_world [] []))
       (trace (demo_world [] []) ++
          [EvEnter (MDelete "a.com" "" (Some "v"));
           EvLeave (MDelete "a.com" "" (Some "v"))])).
Proof.
  split; [reflexivity|].
  apply (delete_txt_record_absent_key "a.com" "" (Some "v") (demo_world [] [])).
  reflexivity.
Defined.

Lemma create_txt_record_stores_before_refresh_witness :
  exists w',
    create_txt_record "a.com" "" "v-a.com" (demo_world [Sim.FailRefresh] [])
      = (Raise (External (ProviderError "refresh")), w') /\
    record_ids w' !! "_acme-challenge:v-a.com" = Some 1.
Proof.
  destruct (create_txt_record_stores_before_refresh "a.com" "" "v-a.com"
              (demo_world [Sim.FailRefresh] []) 1
              (snd (Sim.post_record "a.com" "_acme-challenge" "v-a.com" 60
                      (Sim.init [Sim.FailRefresh] [])))
              (ProviderError "refresh")
              (snd (Sim.post_record "a.com" "_acme-challenge" "v-a.com" 60
                      (Sim.init [Sim.FailRefresh] []))))
    as (w' & Hrun & Hkey & _).
  - reflexivity.
  - reflexivity.
  - exists w'. split; [exact Hrun | exact Hkey].
Defined.

(** ** Error propagation *)

Section Propagation.

Context {X : Type} `{Collaborators X}.

Lemma create_propagates_create_error domain subdomain value (w : World X) e x1 :
  ovh_post_record (_get_zone domain) (record_name_of subdomain) value 60 (ext w)
    = (Throws e, x1) ->
  fst (create_txt_record domain subdomain value w) = Raise (External e).
Proof.
  intros Hpost.
  unfold create_txt_record, method, try_except, bind, client_post_record, call, raise.
  simpl. by rewrite Hpost.
Qed.

Lemma poll_step_reraises fuel g created (w : World X) e w1 :
  poll_phase fuel g w = (Raise e, w1) ->
  exists w2, teardown created w1 = (Ok tt, w2) /\
             poll_step fuel g created w = (Raise e, w2).
Proof.
  intros Hpoll. destruct (teardown_never_raises created w1) as [w2 Htd].
  exists w2. split; [done|].
  unfold poll_step, try_except, bind. rewrite Hpoll. by rewrite Htd.
Qed.

(** C8. The propagation policy of the handler and of the failure path:
    [cleanup_old_challenge_records] and [delete_txt_record] return normally
    whatever the provider does; [create_txt_record] raises the provider's
    error, be it from the record creation or from the zone refresh; and when
    the polling step raises [e], the clean-up handler runs to its end and it
    is [e] that leaves [request_certificate]'s steps 6 to 8. *)
Theorem error_propagation_policy :
  (forall domain subdomain (w : World X),
     exists w', cleanup_old_challenge_records domain subdomain w = (Ok tt, w')) /\
  (forall domain subdomain value (w : World X),
     exists w', delete_txt_record domain subdomain value w = (Ok tt, w')) /\
  (forall domain subdomain value (w : World X) e x1,
     ovh_post_record (_get_zone domain) (record_name_of subdomain) value 60 (ext w)
       = (Throws e, x1) ->
     fst (create_txt_record domain subdomain value w) = Raise (External e)) /\
  (forall domain subdomain value (w : World X) i x1 e x2,
     ovh_post_record (_get_zone domain) (record_name_of subdomain) value 60 (ext w)
       = (Returns (Some i), x1) ->
     ovh_post_refresh (_get_zone domain) x1 = (Throws e, x2) ->
     fst (create_txt_record domain subdomain value w) = Raise (External e)) /\
  (forall fuel order g created (w : World X) e w1,
     poll_phase fuel g w = (Raise e, w1) ->
     exists w2,
       teardown created w1 = (Ok tt, w2) /\
       poll_step fuel g created w = (Raise e, w2) /\
       after_answer fuel order g created w = (Raise e, w2)).
Proof.
  split; [apply cleanup_never_raises|].
  split; [apply delete_never_raises|].
  split; [apply create_propagates_create_error|].
  split.
  - intros domain subdomain value w i x1 e x2 Hpost Hrefresh.
    unfold create_txt_record, method, try_except, bind, client_post_record,
      client_post_refresh, call, get_record_ids, set_record_ids, ret, raise.
    simpl. rewrite Hpost. simpl. by rewrite Hrefresh.
  - intros fuel order g created w e w1 Hpoll.
    destruct (poll_step_reraises fuel g created w e w1 Hpoll) as (w2 & Htd & Hstep).
    exists w2. split; [done|]. split; [done|].
    unfold after_answer, bind. by rewrite Hstep.
Qed.

End Propagation.

Lemma error_propagation_policy_witness :
  fst (create_txt_record "a.com" "" "v-a.com" (demo_world [Sim.FailCreate] []))
    = Raise (External (ProviderError "create")) /\
  fst (create_txt_record "a.com" "" "v-a.com" (demo_world [Sim.FailRefresh] []))
    = Raise (External (ProviderError "refresh")) /\
  fst (after_answer 19 demo_order demo_groups demo_created
         (demo_created_world [Sim.FailDelete] [STATUS_INVALID]))
    = Raise (ChallengeFailed "a.com").
Proof.
  destruct (error_propagation_policy (X := Sim.State))
    as (_ & _ & Hcreate & Hrefresh & Hpoll).
  split; [|split].
  - apply (Hcreate "a.com" "" "v-a.com" (demo_world [Sim.FailCreate] [])
             (ProviderError "create") (Sim.init [Sim.FailCreate] [])).
    reflexivity.
  - apply (Hrefresh "a.com" "" "v-a.com" (demo_world [Sim.FailRefresh] []) 1
             (snd (Sim.post_record "a.com" "_acme-challenge" "v-a.com" 60
                     (Sim.init [Sim.FailRefresh] [])))
             (ProviderError "refresh")
             (snd (Sim.post_record "a.com" "_acme-challenge" "v-a.com" 60
                     (Sim.init [Sim.FailRefresh] [])))); reflexivity.
  - destruct (Hpoll 19%nat demo_order demo_groups demo_created
                (demo_created_world [Sim.FailDelete] [STATUS_INVALID])
                (ChallengeFailed "a.com")
                (snd (poll_phase 19 demo_groups
                        (demo_created_world [Sim.FailDelete] [STATUS_INVALID]))))
      as (w2 & _ & _ & Hafter).
    + vm_compute. reflexivity.
    + rewrite Hafter. reflexivity.
Defined.

(** ** Teardown *)

Section Teardown.

Context {X : Type} `{Collaborators X}.

(** A deletion never adds a handle. *)
Lemma delete_txt_record_shrinks domain subdomain value (w : World X) k :
  record_ids w !! k = None ->
  record_ids (snd (delete_txt_record domain subdomain value w)) !! k = None.
Proof.
  intros Hk. unfold delete_txt_record, method, bind, get_record_ids. simpl.
  destruct (record_ids w !! delete_key _ value) as [i|]; [|done].
  unfold try_except, bind, client_delete_record, client_post_refresh, call,
    get_record_ids, set_record_ids, ret. simpl.
  destruct (ovh_delete_record _ i (ext w)) as [[[]|e] x1]; simpl; [|done].
  destruct (ovh_post_refresh _ x1) as [[[]|e] x2]; simpl; [|done].
  destruct (decide (delete_key (record_name_of subdomain) value = k)) as [->|Hne].
  - apply lookup_delete_eq.
  - by rewrite lookup_delete_ne.
Qed.

Lemma teardown_shrinks created (w : World X) k :
  record_ids w !! k = None ->
  record_ids (snd (teardown created w)) !! k = None.
Proof.
  revert w. induction created as [|[[b s] v] created IH]; intros w Hk; [done|].
  change (teardown ((b, s, v) :: created) w)
    with (bind (delete_txt_record b s (Some v)) (fun _ => teardown created) w).
  unfold bind.
  pose proof (delete_txt_record_shrinks b s (Some v) w k Hk) as Hk1.
  destruct (delete_never_raises b s (Some v) w) as [w1 Hrun].
  rewrite Hrun in Hk1 |- *. by apply IH.
Qed.

(** With a provider whose deletions and refreshes go through, the clean-up
    loop removes the handle of every record it is given (the values being
    non-empty, as validation values are). *)
Lemma teardown_clears created (w : World X) :
  (forall zone i x, fst (ovh_delete_record zone i x) = Returns tt) ->
  (forall zone x, fst (ovh_post_refresh zone x) = Returns tt) ->
  forall b s v, (b, s, v) ∈ created -> PyStr.truthy v = true ->
  record_ids (snd (teardown created w))
    !! (record_name_of s +:+ ":" +:+ v) = None.
Proof.
  intros Hdel Href. revert w.
  induction created as [|[[b0 s0] v0] created IH]; intros w b s v Hin Hv.
  - by apply elem_of_nil in Hin.
  - change (teardown ((b0, s0, v0) :: created) w)
      with (bind (delete_txt_record b0 s0 (Some v0)) (fun _ => teardown created) w).
    unfold bind. destruct (delete_never_raises b0 s0 (Some v0) w) as [w1 Hrun].
    rewrite Hrun. apply elem_of_cons in Hin as [[= -> -> ->]|Hin]; [|by eapply IH].
    apply teardown_shrinks.
    replace w1 with (snd (delete_txt_record b0 s0 (Some v0) w)) by by rewrite Hrun.
    clear Hrun.
    unfold delete_txt_record, method, bind, get_record_ids. simpl. rewrite Hv.
    destruct (record_ids w !! _) as [i|] eqn:Hlook; [|done].
    unfold try_except, bind, client_delete_record, client_post_refresh, call,
      get_record_ids, set_record_ids, ret. simpl.
    specialize (Hdel (_get_zone b0) i (ext w)).
    destruct (ovh_delete_record _ i (ext w)) as [r x1]. simpl in Hdel. subst r.
    simpl. specialize (Href (_get_zone b0) x1).
    destruct (ovh_post_refresh _ x1) as [r x2]. simpl in Href. subst r.
    simpl. apply lookup_delete_eq.
Qed.

(** An exception of the answering step leaves [request_certificate]'s steps
    5 to 8 at once, in the world where it was raised: no handler is in
    place yet. *)
Lemma answer_failure_propagates fuel order (g : Groups) created (w w1 : World X) e :
  answer_phase g w = (Raise e, w1) ->
  answer_and_poll fuel order g created w = (Raise e, w1).
Proof. intros Hans. unfold answer_and_poll, bind. by rewrite Hans. Qed.

End Teardown.

(** ** Failure at the answering step *)

(** C1. Where the source departs from teardown completeness: step 5 runs
    outside the [try] of step 6.  On the apex-plus-wildcard request, when
    [answer_challenge] raises, the error leaves [request_certificate] with
    both handles still in the table, both TXT records still in the zone and
    no deletion attempted; when instead the first authorization turns
    invalid, the handler empties the table and the zone. *)
Theorem answer_failure_skips_teardown :
  let run_answer := request_certificate 19 demo_domains (demo_world [Sim.FailAnswer] []) in
  let run_invalid := request_certificate 19 demo_domains (demo_world [] [STATUS_INVALID]) in
  fst run_answer = Raise (External (AcmeError "answer")) /\
  record_ids (snd run_answer) !! "_acme-challenge:v-a.com" = Some 1 /\
  record_ids (snd run_answer) !! "_acme-challenge:v-*.a.com" = Some 2 /\
  Sim.rec_id <$> Sim.zone_records (ext (snd run_answer)) = [1; 2] /\
  List.filter (fun ev => bool_decide (kind_of ev ∈ [KDeleteEnter; KDelete]))
    (trace (snd run_answer)) = [] /\
  fst run_invalid = Raise (ChallengeFailed "a.com") /\
  record_ids (snd run_invalid) = ∅ /\
  Sim.zone_records (ext (snd run_invalid)) = [].
Proof. vm_compute. repeat split; reflexivity. Qed.

(** ** Loops *)

Section Loops.

Context {X : Type}.

Lemma for_fold_app {A S} (xs ys : list A) (body : S -> A -> M X S) s (w : World X) :
  for_fold (xs ++ ys) body s w =
  bind (for_fold xs body s) (fun s' => for_fold ys body s') w.
Proof.
  revert s w. induction xs as [|x xs IH]; intros s w; simpl.
  - done.
  - unfold bind. destruct (body s x w) as [[s'|e|] w']; [|done|done].
    rewrite IH. by unfold bind.
Qed.

End Loops.

(** ** The authorization poll loop *)

Section Polling.

Context {X : Type} `{Collaborators X}.

Lemma poll_loop_keeps_response fuel ci deadline s (w : World X) r w' :
  poll_loop fuel ci deadline (Some s) w = (Ok r, w') -> is_Some r.
Proof.
  revert s w. induction fuel as [|fuel IH]; intros s w; simpl; [done|].
  unfold bind, time_time, client_poll, call, sleep_for, ret, raise. simpl.
  case_decide; [|intros [= <- <-]; eauto].
  destruct (acme_poll (ci_authz ci) (ext w)) as [[st|x] x1]; [|done].
  repeat case_decide; try done.
  - intros [= <- <-]. eauto.
  - apply IH.
Qed.

Lemma poll_loop_first_response fuel ci deadline last (w : World X) r w' :
  clock (ext w) < deadline ->
  poll_loop fuel ci deadline last w = (Ok r, w') -> is_Some r.
Proof.
  intros Hlt. destruct fuel as [|fuel]; simpl; [done|].
  unfold bind, time_time, client_poll, call, sleep_for, ret, raise. simpl.
  case_decide; [|done].
  destruct (acme_poll (ci_authz ci) (ext w)) as [[st|x] x1]; [|done].
  repeat case_decide; try done.
  - intros [= <- <-]. eauto.
  - apply poll_loop_keeps_response.
Qed.

Lemma poll_loop_raises fuel ci deadline last (w : World X) e w' :
  poll_loop fuel ci deadline last w = (Raise e, w') ->
  e = ChallengeFailed (ci_domain_name ci) \/ exists x, e = External x.
Proof.
  revert last w. induction fuel as [|fuel IH]; intros last w; simpl; [done|].
  unfold bind, time_time, client_poll, call, sleep_for, ret, raise. simpl.
  case_decide; [|done].
  destruct (acme_poll (ci_authz ci) (ext w)) as [[st|x] x1].
  - repeat case_decide; try done.
    + intros [= <- <-]. by left.
    + apply IH.
  - intros [= <- <-]. right. eauto.
Qed.

(** An exception that leaves the poll of a domain is the rejection or the
    timeout of that very domain, or comes from the ACME client. *)
Lemma poll_domain_raises fuel last ci (w : World X) e w' :
  poll_domain fuel last ci w = (Raise e, w') ->
  e = ChallengeFailed (ci_domain_name ci) \/
  e = PollTimeout (ci_domain_name ci) \/
  exists x, e = External x.
Proof.
  unfold poll_domain, bind, time_time. simpl.
  destruct (poll_loop fuel ci (clock (ext w) + seconds 90) last w)
    as [[r|e'|] w1] eqn:Hloop; [| |done].
  - apply poll_loop_first_response in Hloop as [st ->]; [|unfold seconds; lia].
    case_decide; [|done]. intros [= <- <-]. right. by left.
  - intros [= <- <-]. apply poll_loop_raises in Hloop as [->|[x ->]]; eauto.
Qed.

(** C6. Polling is sequential and stops at the first failure: when the
    domains before [ci] were validated and the poll of [ci] raises [e]
    (its authorization turned invalid, or its deadline passed), then [e]
    names [ci]'s domain unless it is the ACME client's own error, the polling
    step ends right there, in the world [w2] where [ci] failed, whatever
    domains come after, [request_certificate] fails with [e], and what
    follows in the trace (the clean-up) holds no poll. *)
Theorem poll_failure_short_circuits
    fuel domains order g created pre ci post last e (w0 w w1 w2 : World X) :
  before_polling domains w0 = (Ok (order, g, created), w) ->
  all_challenges g = pre ++ ci :: post ->
  for_fold pre (poll_domain fuel) None w = (Ok last, w1) ->
  poll_domain fuel last ci w1 = (Raise e, w2) ->
  (e = ChallengeFailed (ci_domain_name ci) \/
   e = PollTimeout (ci_domain_name ci) \/
   exists x, e = External x) /\
  poll_phase fuel g w = (Raise e, w2) /\
  exists w3 evs,
    request_certificate fuel domains w0 = (Raise e, w3) /\
    trace w3 = trace w2 ++ evs /\
    Forall (fun ev => kind_of ev <> KPoll) evs.
Proof.
  intros Hpre Hsplit Hbefore Hfail.
  split; [by eapply poll_domain_raises|].
  assert (Hphase : poll_phase fuel g w = (Raise e, w2)).
  { unfold poll_phase. rewrite Hsplit, for_fold_app. unfold bind at 1.
    rewrite Hbefore. simpl. unfold bind. by rewrite Hfail. }
  split; [done|].
  destruct (traced_run (of_kinds delete_kinds) (teardown created) w2
              (traced_teardown created)) as (r & w3 & evs & Htd & Htr & Hev).
  destruct (teardown_never_raises created w2) as [w3' Hok].
  rewrite Hok in Htd. injection Htd as <- <-.
  exists w3', evs. split; [|split; [done|]].
  - revert Hpre. unfold before_polling, request_certificate, after_verification,
      answer_and_poll, after_answer, poll_step, try_except, bind.
    destruct (client_new_order domains w0) as [[o|?|] wa]; [|done|done].
    destruct (collect_challenges (authorizations o) wa) as [[g'|?|] wb]; [|done|done].
    destruct (cleanup_phase g' wb) as [[?|?|] wc]; [|done|done].
    destruct (create_phase g' wc) as [[cr|?|] wd]; [|done|done].
    destruct (verify_phase g' wd) as [[b|?|] we]; [|done|done].
    destruct (print (verdict b) we) as [[?|?|] wf]; [|done|done].
    destruct (sleep_for (seconds DNS_PROPAGATION_WAIT) wf) as [[?|?|] wg]; [|done|done].
    destruct (public_check g' wg) as [[?|?|] wh]; [|done|done].
    destruct (answer_phase g' wh) as [[?|?|] wi]; [|done|done].
    unfold ret. intros [= -> -> -> ->].
    rewrite Hphase. unfold raise. by rewrite Hok.
  - eapply Forall_impl; [exact Hev|]. intros ev Hk Heq.
    unfold of_kinds in Hk. rewrite Heq in Hk. vm_compute in Hk. done.
Qed.

End Polling.

Lemma poll_failure_short_circuits_witness :
  exists w3 evs,
    request_certificate 19 trio_domains trio_start
      = (Raise (ChallengeFailed "b.com"), w3) /\
    trace w3 = trace trio_after_b ++ evs /\
    Forall (fun ev => kind_of ev <> KPoll) evs.
Proof.
  destruct (poll_failure_short_circuits (X := Sim.State) 19 trio_domains
              trio_order trio_groups trio_created
              [demo_ci "a.com"] (demo_ci "b.com") [demo_ci "c.com"]
              (Some STATUS_VALID) (ChallengeFailed "b.com")
              trio_start trio_polling trio_after_a trio_after_b)
    as (_ & _ & w3 & evs & Hrun & Htrace & Hpolls).
  - vm_compute. reflexivity.
  - vm_compute. reflexivity.
  - vm_compute. reflexivity.
  - vm_compute. reflexivity.
  - exists w3, evs. split; [exact Hrun|]. split; [exact Htrace | exact Hpolls].
Defined.

(** ** The poll loop under a clock that advances *)

Lemma last_response_pending sts last :
  sts <> [] -> Forall pending sts ->
  exists s, last_response sts last = Some s /\ pending s.
Proof.
  unfold last_response.
  destruct sts as [|s0 sts] using rev_ind; [done|]. intros _ Hall.
  apply Forall_app in Hall as [_ Hs0]. apply Forall_cons in Hs0 as [Hs0 _].
  exists s0. by rewrite fold_left_app.
Qed.

Section PollingClock.

Context {X : Type} `{Collaborators X} `{!ClockLaws X}.

Lemma poll_loop_spec fuel ci deadline last (w : World X) :
  (1 <= fuel)%nat ->
  deadline - clock (ext w) <= seconds 5 * (Z.of_nat fuel - 1) ->
  exists sts tail r w',
    poll_loop fuel ci deadline last w = (r, w') /\
    Forall pending sts /\
    (sts = [] \/ seconds 5 * (Z.of_nat (length sts) - 1) < deadline - clock (ext w)) /\
    polled_pending (ci_authz ci) deadline (ext w) sts /\
    record_ids w' = record_ids w /\
    trace w' = trace w ++ pending_rounds (ci_authz ci) sts ++ tail /\
    ((clock (after_rounds (ci_authz ci) (length sts) (ext w)) < deadline /\
      ((acme_poll (ci_authz ci) (after_rounds (ci_authz ci) (length sts) (ext w))
          = (Returns STATUS_VALID, ext w') /\
        r = Ok (Some STATUS_VALID) /\
        tail = [EvPoll (ci_authz ci) (Returns STATUS_VALID)]) \/
       (acme_poll (ci_authz ci) (after_rounds (ci_authz ci) (length sts) (ext w))
          = (Returns STATUS_INVALID, ext w') /\
        r = Raise (ChallengeFailed (ci_domain_name ci)) /\
        tail = [EvPoll (ci_authz ci) (Returns STATUS_INVALID)]) \/
       (exists e,
          acme_poll (ci_authz ci) (after_rounds (ci_authz ci) (length sts) (ext w))
            = (Throws e, ext w') /\
          r = Raise (External e) /\
          tail = [EvPoll (ci_authz ci) (Throws e)]))) \/
     (deadline <= clock (after_rounds (ci_authz ci) (length sts) (ext w)) /\
      ext w' = after_rounds (ci_authz ci) (length sts) (ext w) /\
      r = Ok (last_response sts last) /\ tail = [] /\
      (sts = [] -> deadline <= clock (ext w)))).
Proof.
  revert last w. induction fuel as [|fuel IH]; intros last w Hfuel Hbudget; [lia|].
  simpl. unfold bind at 1. unfold time_time at 1. simpl.
  case_decide as Hnow.
  - unfold bind at 1. unfold client_poll, call. simpl.
    pose proof (poll_monotone (ci_authz ci) (ext w)) as Hmono.
    destruct (acme_poll (ci_authz ci) (ext w)) as [[st|x] x1] eqn:Hpoll;
      simpl in Hmono.
    + case_decide as Hvalid; [|case_decide as Hinvalid].
      * subst st. exists [], [EvPoll (ci_authz ci) (Returns STATUS_VALID)].
        eexists _, _. split; [reflexivity|]. split; [constructor|].
        split; [by left|]. split; [done|]. split; [done|]. split; [done|].
        left. split; [done|]. left. simpl. by rewrite Hpoll.
      * subst st. exists [], [EvPoll (ci_authz ci) (Returns STATUS_INVALID)].
        eexists _, _. split; [reflexivity|]. split; [constructor|].
        split; [by left|]. split; [done|]. split; [done|]. split; [done|].
        left. split; [done|]. right. left. simpl. by rewrite Hpoll.
      * unfold bind at 1. unfold sleep_for at 1. simpl.
        pose proof (sleep_advances (seconds 5) x1) as Hsleep.
        set (w2 := mkWorld (time_sleep (seconds 5) x1) (record_ids w)
                     ((trace w ++ [EvPoll (ci_authz ci) (Returns st)])
                        ++ [EvSleep (seconds 5)])).
        destruct (IH (Some st) w2)
          as (sts & tail & r & w' & Hrun & Hall & Hlen & Hpp & Hids & Htr & Hcases).
        { unfold seconds in *. lia. }
        { subst w2. simpl. unfold seconds in *. lia. }
        assert (Hnext : next_round (ci_authz ci) (ext w) = ext w2).
        { unfold next_round. by rewrite Hpoll. }
        exists (st :: sts), tail, r, w'. split; [exact Hrun|].
        split; [by constructor|]. split.
        { right. simpl length. subst w2. simpl in Hlen.
          destruct Hlen as [->|Hlen]; simpl; unfold seconds in *; lia. }
        split.
        { simpl. rewrite Hpoll, Hnext. simpl. split; [lia|]. by split. }
        split; [by rewrite Hids|].
        split.
        { rewrite Htr. subst w2. simpl. by rewrite <- !app_assoc. }
        simpl length. cbn [after_rounds]. rewrite Hnext.
        destruct Hcases as [Hc|(Hdl & Hext & -> & -> & _)]; [by left|].
        right. done.
    + exists [], [EvPoll (ci_authz ci) (Throws x)].
      eexists _, _. split; [reflexivity|]. split; [constructor|].
      split; [by left|]. split; [done|]. split; [done|]. split; [done|].
      left. split; [done|]. right. right. exists x. simpl. by rewrite Hpoll.
  - exists [], [], (Ok last), w. split; [done|]. split; [constructor|].
    split; [by left|]. split; [done|]. split; [done|].
    split; [by rewrite app_nil_r|].
    right. simpl. repeat split; try done; lia.
Qed.

(** C5. The poll loop of one domain, with a clock that does not run
    backwards across a poll and sleeps that last as long as asked.  With room
    for 20 iterations the loop always ends.  It runs in rounds: a poll that
    comes back neither valid nor invalid is followed by a sleep of five
    seconds, and there are at most 19 such rounds.  The deadline is the clock
    reading at the start plus 90 seconds, and it is pinned from both sides:
    no poll, neither of a pending round nor the last one, is started after
    the deadline, and the loop is left without a poll only once the deadline
    is reached.  The loop ends with success on the first valid status, with
    the error naming the domain on the first invalid status, with the ACME
    client's error if a poll raises, each time in the state that very poll
    left; and otherwise with the timeout error naming the domain, after at
    least one poll, in a state whose clock has reached the deadline.  The
    handle table is untouched.  (The instant of the deadline itself is left
    to either side: the source compares floats, whose sum is rounded.) *)
Theorem poll_domain_behaviour fuel last ci (w : World X) :
  (20 <= fuel)%nat ->
  exists sts tail r w',
    poll_domain fuel last ci w = (r, w') /\
    Forall pending sts /\
    (length sts <= 19)%nat /\
    polled_pending (ci_authz ci) (clock (ext w) + seconds 90) (ext w) sts /\
    record_ids w' = record_ids w /\
    trace w' = trace w ++ pending_rounds (ci_authz ci) sts ++ tail /\
    ((clock (after_rounds (ci_authz ci) (length sts) (ext w))
        <= clock (ext w) + seconds 90 /\
      ((acme_poll (ci_authz ci) (after_rounds (ci_authz ci) (length sts) (ext w))
          = (Returns STATUS_VALID, ext w') /\
        r = Ok (Some STATUS_VALID) /\
        tail = [EvPoll (ci_authz ci) (Returns STATUS_VALID)]) \/
       (acme_poll (ci_authz ci) (after_rounds (ci_authz ci) (length sts) (ext w))
          = (Returns STATUS_INVALID, ext w') /\
        r = Raise (ChallengeFailed (ci_domain_name ci)) /\
        tail = [EvPoll (ci_authz ci) (Returns STATUS_INVALID)]) \/
       (exists e,
          acme_poll (ci_authz ci) (after_rounds (ci_authz ci) (length sts) (ext w))
            = (Throws e, ext w') /\
          r = Raise (External e) /\
          tail = [EvPoll (ci_authz ci) (Throws e)]))) \/
     (clock (ext w) + seconds 90
        <= clock (after_rounds (ci_authz ci) (length sts) (ext w)) /\
      ext w' = after_rounds (ci_authz ci) (length sts) (ext w) /\
      sts <> [] /\
      r = Raise (PollTimeout (ci_domain_name ci)) /\ tail = [])).
Proof.
  intros Hfuel.
  destruct (poll_loop_spec fuel ci (clock (ext w) + seconds 90) last w)
    as (sts & tail & r & w' & Hrun & Hall & Hlen & Hpp & Hids & Htr & Hcases).
  { lia. }
  { unfold seconds. lia. }
  assert (Hbound : (length sts <= 19)%nat).
  { destruct Hlen as [->|Hlen]; simpl; [lia|]. unfold seconds in Hlen. lia. }
  unfold poll_domain, bind, time_time. simpl. rewrite Hrun.
  destruct Hcases
    as [(Hlt & [(Hp & -> & ->)|[(Hp & -> & ->)|(e & Hp & -> & ->)]])
       |(Hdl & Hext & -> & -> & Hempty)].
  - exists sts, [EvPoll (ci_authz ci) (Returns STATUS_VALID)]. eexists _, _.
    split; [by rewrite decide_False by (by intros ?)|].
    do 5 (split; [done|]). left. split; [lia|]. by left.
  - exists sts, [EvPoll (ci_authz ci) (Returns STATUS_INVALID)]. eexists _, _.
    split; [done|]. do 5 (split; [done|]). left. split; [lia|]. right. by left.
  - exists sts, [EvPoll (ci_authz ci) (Throws e)]. eexists _, _.
    split; [done|]. do 5 (split; [done|]). left. split; [lia|]. right. right. eauto.
  - assert (Hne : sts <> []).
    { intros Heq. specialize (Hempty Heq). unfold seconds in Hempty. lia. }
    destruct (last_response_pending sts last Hne Hall) as (s & -> & Hs1 & Hs2).
    exists sts, []. eexists _, _.
    split; [by rewrite decide_True by done|].
    do 5 (split; [done|]). right. done.
Qed.

End PollingClock.

Global Instance sim_clock_laws : ClockLaws Sim.State.
Proof.
  split.
  - intros a x. simpl. unfold Sim.poll, seconds.
    destruct (Sim.poll_script x); simpl; lia.
  - intros d x. simpl. lia.
Qed.

Lemma poll_domain_behaviour_witness :
  exists w',
    poll_domain 20 None (demo_ci "a.com") (demo_world [] [STATUS_PENDING; STATUS_VALID])
      = (Ok (Some STATUS_VALID), w') /\
    clock (ext w') = seconds 7 /\
    trace w' = [EvPoll (Sim.authz_for "a.com") (Returns STATUS_PENDING);
                EvSleep (seconds 5);
                EvPoll (Sim.authz_for "a.com") (Returns STATUS_VALID)].
Proof.
  destruct (poll_domain_behaviour (X := Sim.State) 20 None (demo_ci "a.com")
              (demo_world [] [STATUS_PENDING; STATUS_VALID]))
    as (sts & tail & r & w' & Hrun & _).
  - lia.
  - exists w'. revert Hrun. vm_compute. intros [= <- <-]. repeat split.
Defined.

(** ** Clean-up before creation *)

Lemma of_kinds_not_in ks bad ev :
  of_kinds ks ev ->
  forallb (fun k => bool_decide (k ∉ ks)) bad = true ->
  kind_of ev ∉ bad.
Proof.
  intros Hk Hbad Hin. rewrite forallb_forall in Hbad.
  apply list_elem_of_In, Hbad in Hin.
  apply (proj1 (bool_decide_eq_true _)) in Hin.
  apply (proj1 (bool_decide_eq_true _)) in Hk. done.
Qed.

Lemma cleanup_enters_none evs :
  Forall (fun ev => kind_of ev <> KCleanupEnter) evs -> cleanup_enters evs = [].
Proof.
  induction 1 as [|ev evs Hev _ IH]; [done|].
  destruct ev as [| | | | | | | | | | |[]|[]|]; simpl in Hev; try done;
    exact IH.
Qed.

Lemma cleanup_leaves_none evs :
  Forall (fun ev => kind_of ev <> KCleanupLeave) evs -> cleanup_leaves evs = [].
Proof.
  induction 1 as [|ev evs Hev _ IH]; [done|].
  destruct ev as [| | | | | | | | | | |[]|[]|]; simpl in Hev; try done;
    exact IH.
Qed.

Lemma of_kinds_exclude ks k evs :
  bool_decide (k ∈ ks) = false ->
  Forall (of_kinds ks) evs -> Forall (fun ev => kind_of ev <> k) evs.
Proof.
  intros Hk Hall. eapply Forall_impl; [exact Hall|]. intros ev Hev Heq.
  unfold of_kinds in Hev. rewrite Heq in Hev. congruence.
Qed.

Section CleanupFirst.

Context {X : Type} `{Collaborators X}.

(** One call of the clean-up: it returns, and its events are its entry,
    provider calls, and its exit. *)
Lemma cleanup_call_trace domain subdomain (w : World X) :
  exists w' inner,
    cleanup_old_challenge_records domain subdomain w = (Ok tt, w') /\
    trace w' = trace w ++ EvEnter (MCleanup domain subdomain) :: inner
                 ++ [EvLeave (MCleanup domain subdomain)] /\
    Forall (of_kinds [KList; KDelete; KRefresh]) inner.
Proof.
  destruct (cleanup_never_raises domain subdomain w) as [w' Hok].
  revert Hok. unfold cleanup_old_challenge_records, method.
  match goal with
  | |- context [try_except ?b ?h] => set (body := try_except b h)
  end.
  assert (Hbody : traced (of_kinds [KList; KDelete; KRefresh]) body).
  { subst body. unfold client_get_records, client_delete_record, client_post_refresh.
    traced_auto. }
  destruct (traced_run _ body
              (mkWorld (ext w) (record_ids w)
                 (trace w ++ [EvEnter (MCleanup domain subdomain)])) Hbody)
    as (r & w1 & inner & Hrun & Htr & Hin).
  rewrite Hrun. intros [= -> <-]. eexists _, inner.
  split; [reflexivity|]. split; [|done].
  simpl. rewrite Htr. simpl. by rewrite <- !app_assoc.
Qed.

Lemma cleanup_phase_trace (g : Groups) cleaned (w : World X) :
  exists cleaned' w' evs,
    for_fold g cleanup_step cleaned w = (Ok cleaned', w') /\
    trace w' = trace w ++ evs /\
    Forall (of_kinds cleanup_kinds) evs /\
    cleanup_leaves evs = cleanup_enters evs /\
    NoDup (cleanup_enters evs) /\
    (forall loc, loc ∈ cleanup_enters evs <-> loc ∈ locations g /\ loc ∉ cleaned).
Proof.
  revert cleaned w. induction g as [|item g IH]; intros cleaned w.
  - exists cleaned, w, []. simpl. rewrite app_nil_r.
    split; [done|]. split; [done|]. split; [constructor|]. split; [done|].
    split; [constructor|]. intros loc. split.
    + by intros ?%elem_of_nil.
    + by intros [?%elem_of_nil _].
  - simpl for_fold. unfold bind at 1. unfold cleanup_step at 1.
    set (loc0 := (base_domain item.2, subdomain item.2)).
    case_decide as Hseen.
    + unfold ret at 1.
      destruct (IH cleaned w) as (c' & w' & evs & Hrun & Htr & Hk & Hbal & Hnd & Hiff).
      exists c', w', evs.
      split; [done|]. split; [done|]. split; [done|]. split; [done|].
      split; [done|].
      intros loc. rewrite Hiff. unfold locations. simpl. fold (locations g).
      rewrite elem_of_cons. fold loc0. split.
      * intros [Hg Hc]. split; [by right|done].
      * intros [[->|Hg] Hc]; [done|]. done.
    + unfold bind at 1.
      destruct (cleanup_call_trace (base_domain item.2) (subdomain item.2) w)
        as (w1 & inner & -> & Htr1 & Hinner).
      unfold ret at 1.
      destruct (IH ({[loc0]} ∪ cleaned) w1)
        as (c' & w' & evs & Hrun & Htr & Hk & Hbal & Hnd & Hiff).
      exists c', w',
        (EvEnter (MCleanup (base_domain item.2) (subdomain item.2)) :: inner
           ++ [EvLeave (MCleanup (base_domain item.2) (subdomain item.2))] ++ evs).
      assert (Hin_e : cleanup_enters inner = []).
      { apply cleanup_enters_none. eapply of_kinds_exclude; [|exact Hinner]. done. }
      assert (Hin_l : cleanup_leaves inner = []).
      { apply cleanup_leaves_none. eapply of_kinds_exclude; [|exact Hinner]. done. }
      assert (He : cleanup_enters
                     (EvEnter (MCleanup (base_domain item.2) (subdomain item.2)) :: inner
                        ++ [EvLeave (MCleanup (base_domain item.2) (subdomain item.2))]
                        ++ evs) = loc0 :: cleanup_enters evs).
      { unfold cleanup_enters in *. simpl. rewrite omap_app, Hin_e. done. }
      assert (Hl : cleanup_leaves
                     (EvEnter (MCleanup (base_domain item.2) (subdomain item.2)) :: inner
                        ++ [EvLeave (MCleanup (base_domain item.2) (subdomain item.2))]
                        ++ evs) = loc0 :: cleanup_leaves evs).
      { unfold cleanup_leaves in *. simpl. rewrite omap_app, Hin_l. done. }
      split; [done|]. split.
      { rewrite Htr, Htr1. rewrite <- app_assoc. simpl.
        by rewrite <- app_assoc. }
      split.
      { constructor; [done|]. apply Forall_app. split.
        - eapply Forall_impl; [exact Hinner|].
          apply of_kinds_mono. done.
        - constructor; [done|done]. }
      split; [by rewrite He, Hl, Hbal|].
      split.
      { rewrite He. constructor; [|done].
        intros Hin. apply Hiff in Hin as [_ Hc].
        apply Hc, elem_of_union. left. by apply elem_of_singleton. }
      intros loc. rewrite He. rewrite elem_of_cons, Hiff.
      unfold locations. simpl. fold (locations g). rewrite elem_of_cons.
      fold loc0. split.
      * intros [->|[Hg Hc]]; [by split; [left|]|]. split; [by right|].
        intros Hx. apply Hc, elem_of_union. by right.
      * intros [[->|Hg] Hc]; [by left|].
        destruct (decide (loc = loc0)) as [->|Hne]; [by left|].
        right. split; [done|].
        intros [Hx%elem_of_singleton|Hx]%elem_of_union; done.
Qed.

End CleanupFirst.

(** ** Grouping *)

Lemma append_challenge_keys record_key validation ci (g : Groups) :
  (append_challenge record_key validation ci g).*1 = g.*1.
Proof.
  unfold append_challenge. induction g as [|[k info] g IH]; [done|].
  rewrite !fmap_cons. f_equal; [by case_decide|exact IH].
Qed.

Lemma append_challenge_locations record_key validation ci (g : Groups) :
  locations (append_challenge record_key validation ci g) = locations g.
Proof.
  unfold append_challenge, locations. induction g as [|[k info] g IH]; [done|].
  rewrite !fmap_cons. f_equal; [by case_decide|exact IH].
Qed.

Section Grouping.

Context {X : Type} `{Collaborators X}.

Lemma collect_authz_spec (g : Groups) authz (w : World X) g' w' :
  collect_authz g authz w = (Ok g', w') ->
  g.*1 = locations g ->
  w' = w /\ g'.*1 = locations g' /\
  (forall loc, loc ∈ locations g' <->
               loc ∈ locations g \/ loc = resolve (identifier_value authz)).
Proof.
  unfold collect_authz. destruct (find_dns01 _) as [c|]; [|done].
  destruct (resolve (identifier_value authz)) as [b s] eqn:Hres.
  unfold ret. intros [= <- <-] Hkeys. split; [done|].
  rewrite append_challenge_keys, append_challenge_locations.
  unfold has_key. case_bool_decide as Hin.
  - split; [done|]. intros loc. split; [by left|].
    intros [?| ->]; [done|]. by rewrite <- Hkeys.
  - split.
    + rewrite fmap_app. unfold locations. rewrite fmap_app. simpl.
      fold (locations g). by rewrite Hkeys.
    + intros loc. unfold locations. rewrite fmap_app. simpl.
      fold (locations g). rewrite elem_of_app, list_elem_of_singleton. done.
Qed.

Lemma collect_challenges_spec authzs (g0 : Groups) (w : World X) g w' :
  for_fold authzs collect_authz g0 w = (Ok g, w') ->
  g0.*1 = locations g0 ->
  w' = w /\ g.*1 = locations g /\
  (forall loc, loc ∈ locations g <->
               loc ∈ locations g0 \/
               exists a, a ∈ authzs /\ resolve (identifier_value a) = loc).
Proof.
  revert g0 w. induction authzs as [|a authzs IH]; intros g0 w; simpl.
  - unfold ret. intros [= <- <-] Hkeys. split; [done|]. split; [done|].
    intros loc. split; [by left|]. intros [?|(a & Ha%elem_of_nil & _)]; done.
  - unfold bind.
    destruct (collect_authz g0 a w) as [[g1|e|] w1] eqn:Hstep; [|done|done].
    intros Hrest Hkeys.
    destruct (collect_authz_spec _ _ _ _ _ Hstep Hkeys) as (-> & Hkeys1 & Hloc1).
    destruct (IH _ _ Hrest Hkeys1) as (-> & Hkeys' & Hloc').
    split; [done|]. split; [done|].
    intros loc. rewrite Hloc', Hloc1. split.
    + intros [[?| ->]|(a' & Ha' & Hr)].
      * by left.
      * right. exists a. split; [by left|done].
      * right. exists a'. split; [by right|done].
    + intros [?|(a' & Ha' & Hr)]; [by left; left|].
      apply elem_of_cons in Ha' as [->|Ha'].
      * left. by right.
      * right. eauto.
Qed.

End Grouping.

Section CleanupOrder.

Context {X : Type} `{Collaborators X}.

Lemma new_order_trace domains (w : World X) :
  trace (snd (client_new_order domains w)) = trace w ++ [EvNewOrder domains].
Proof.
  unfold client_new_order, call.
  by destruct (acme_new_order domains (ext w)) as [[o|e] x1].
Qed.

Lemma traced_from_create fuel order (g : Groups) :
  traced (of_kinds (create_kinds ++ after_create_kinds))
    (dns_records_created <- create_phase g ;;
     all_records_present <- verify_phase g ;;
     after_verification fuel order g dns_records_created all_records_present
     : M X OrderResource).
Proof.
  apply traced_bind; [traced_by traced_create_phase|]. intros created.
  apply traced_bind; [traced_by traced_verify_phase|]. intros b.
  traced_by traced_after_verification.
Qed.

(** C7. In every run of [request_certificate] the new events split in two
    parts.  The first holds every clean-up call: each location is entered at
    most once, every call entered there is also left there, and no record
    creation occurs in it.  The second, where the records are created, holds
    no clean-up call.  When the order and the grouping succeed, the locations
    cleaned are exactly the record locations of the order's domains. *)
Theorem cleanup_once_and_before_create fuel domains (w : World X) :
  exists evs1 evs2,
    trace (snd (request_certificate fuel domains w)) = trace w ++ evs1 ++ evs2 /\
    NoDup (cleanup_enters evs1) /\
    cleanup_leaves evs1 = cleanup_enters evs1 /\
    Forall (fun ev => kind_of ev ∉ [KCreateEnter; KCreate; KCreateLeave]) evs1 /\
    Forall (fun ev => kind_of ev ∉ [KCleanupEnter; KCleanupLeave]) evs2 /\
    (forall order w1 g w2,
       client_new_order domains w = (Ok order, w1) ->
       collect_challenges (authorizations order) w1 = (Ok g, w2) ->
       forall loc, loc ∈ cleanup_enters evs1 <->
                   exists a, a ∈ authorizations order /\
                             resolve (identifier_value a) = loc).
Proof.
  assert (Hnone : forall r : Outcome OrderResource * World X,
             trace (snd r) = trace w ++ [EvNewOrder domains] ->
             (forall order w1 g w2,
                client_new_order domains w = (Ok order, w1) ->
                collect_challenges (authorizations order) w1 = (Ok g, w2) -> False) ->
             exists evs1 evs2,
               trace (snd r) = trace w ++ evs1 ++ evs2 /\
               NoDup (cleanup_enters evs1) /\
               cleanup_leaves evs1 = cleanup_enters evs1 /\
               Forall (fun ev => kind_of ev ∉ [KCreateEnter; KCreate; KCreateLeave]) evs1 /\
               Forall (fun ev => kind_of ev ∉ [KCleanupEnter; KCleanupLeave]) evs2 /\
               (forall order w1 g w2,
                  client_new_order domains w = (Ok order, w1) ->
                  collect_challenges (authorizations order) w1 = (Ok g, w2) ->
                  forall loc, loc ∈ cleanup_enters evs1 <->
                              exists a, a ∈ authorizations order /\
                                        resolve (identifier_value a) = loc)).
  { intros r Htr Habs. exists [EvNewOrder domains], [].
    split; [by rewrite app_nil_r|]. split; [constructor|]. split; [done|].
    split; [apply Forall_singleton, (proj1 (bool_decide_eq_false _)); reflexivity|].
    split; [constructor|].
    intros order w1 g w2 Hno Hc. destruct (Habs _ _ _ _ Hno Hc). }
  pose proof (new_order_trace domains w) as Htr0.
  unfold request_certificate, bind.
  destruct (client_new_order domains w) as [[order|e|] w1] eqn:Hno; simpl in Htr0.
  2,3: apply Hnone; [done|]; intros ? ? ? ? [=].
  destruct (collect_challenges (authorizations order) w1) as [[g|e|] w2] eqn:Hc.
  2,3: destruct (traced_run _ _ w1 (traced_collect (authorizations order)))
         as (r & w' & evs & Hrun & Htr & Hev); rewrite Hc in Hrun;
       injection Hrun as <- <-; destruct evs as [|ev evs];
       [|apply Forall_cons in Hev as [Hev _]; vm_compute in Hev; done];
       apply Hnone; [simpl; by rewrite Htr, app_nil_r|];
       intros ? ? ? ? [= <- <-]; rewrite Hc; done.
  destruct (collect_challenges_spec _ [] _ _ _ Hc eq_refl) as (-> & Hkeys & Hloc).
  destruct (cleanup_phase_trace g ∅ w1)
    as (cleaned & w3 & evs_c & Hclean & Htr3 & Hk3 & Hbal & Hnd & Hiff).
  unfold cleanup_phase. rewrite Hclean.
  destruct (traced_run _ _ w3 (traced_from_create fuel order g))
    as (r & w4 & evs2 & Hrun & Htr4 & Hk4).
  unfold bind in Hrun. rewrite Hrun. simpl.
  exists (EvNewOrder domains :: evs_c), evs2.
  split; [by rewrite Htr4, Htr3, Htr0, <- !app_assoc|].
  split; [done|]. split; [done|].
  split.
  { constructor; [apply (proj1 (bool_decide_eq_false _)); reflexivity|].
    eapply Forall_impl; [exact Hk3|]. intros ev Hev.
    eapply of_kinds_not_in; [exact Hev|done]. }
  split.
  { eapply Forall_impl; [exact Hk4|]. intros ev Hev.
    eapply of_kinds_not_in; [exact Hev|done]. }
  intros order' w1' g' w2' [= <- <-]. rewrite Hc. intros [= <-] loc.
  change (cleanup_enters (EvNewOrder domains :: evs_c)) with (cleanup_enters evs_c).
  rewrite Hiff, Hloc. split.
  - intros [[Hnil%elem_of_nil|?] _]; done.
  - intros Ha. split; [by right|]. apply not_elem_of_empty.
Qed.

End CleanupOrder.

Lemma cleanup_once_and_before_create_witness :
  exists evs1 evs2,
    trace (snd (request_certificate 19 demo_domains (demo_world [] [STATUS_VALID; STATUS_VALID])))
      = trace (demo_world [] [STATUS_VALID; STATUS_VALID]) ++ evs1 ++ evs2 /\
    NoDup (cleanup_enters evs1) /\
    cleanup_leaves evs1 = cleanup_enters evs1 /\
    (forall loc, loc ∈ cleanup_enters evs1 <->
                 exists a, a ∈ authorizations demo_order /\
                           resolve (identifier_value a) = loc).
Proof.
  destruct (cleanup_once_and_before_create (X := Sim.State) 19 demo_domains
              (demo_world [] [STATUS_VALID; STATUS_VALID]))
    as (evs1 & evs2 & Htr & Hnd & Hbal & _ & _ & Hloc).
  exists evs1, evs2. split; [exact Htr|]. split; [exact Hnd|]. split; [exact Hbal|].
  apply (Hloc demo_order (snd (client_new_order demo_domains
                                 (demo_world [] [STATUS_VALID; STATUS_VALID])))
           demo_groups
           (snd (client_new_order demo_domains
                   (demo_world [] [STATUS_VALID; STATUS_VALID])))).
  - reflexivity.
  - vm_compute. reflexivity.
Defined.

(** ** The verification step *)

Section Verification.

Context {X : Type} `{Collaborators X}.

Lemma try_except_handled {A} (body : M X A) handler (w : World X) :
  total body ->
  (forall e w0, exists a w', handler e w0 = (Ok a, w')) ->
  exists a w', try_except body handler w = (Ok a, w').
Proof.
  intros Hb Hh. unfold try_except. specialize (Hb w).
  destruct (body w) as [[a|e|] w']; simpl in *; eauto. done.
Qed.

Lemma verify_step_returns b item (w : World X) :
  exists b' w', verify_step b item w = (Ok b', w').
Proof.
  unfold verify_step. apply try_except_handled.
  - unfold scan_step, client_get_records, client_get_record, print. total_auto.
  - intros e w0. by eexists _, _.
Qed.

Lemma verify_fold_returns (g : Groups) b (w : World X) :
  exists b' w', for_fold g verify_step b w = (Ok b', w').
Proof.
  revert b w. induction g as [|item g IH]; intros b w; simpl.
  - by eexists _, _.
  - unfold bind. destruct (verify_step_returns b item w) as (b1 & w1 & ->).
    apply IH.
Qed.

Lemma public_probe_returns fqdn (w : World X) :
  try_except (resolver_resolve fqdn ;; ret tt) (fun _ => ret tt) w =
  (Ok tt, mkWorld (snd (dns_resolve_txt fqdn (ext w))) (record_ids w)
            (trace w ++ [EvResolve fqdn])).
Proof.
  unfold try_except, bind, resolver_resolve, call, ret.
  by destruct (dns_resolve_txt fqdn (ext w)) as [[a|e] x1].
Qed.

Lemma public_check_trace (g : Groups) (w : World X) :
  exists w',
    public_check g w = (Ok tt, w') /\
    trace w' = trace w ++
      ((fun ci => EvResolve ("_acme-challenge." +:+ ci_domain_name ci))
         <$> all_challenges g).
Proof.
  unfold public_check. generalize (all_challenges g). intros cs. revert w.
  induction cs as [|ci cs IH]; intros w.
  - exists w. simpl. by rewrite app_nil_r.
  - cbn [for_each]. unfold bind at 1. rewrite public_probe_returns.
    match goal with
    | |- context [for_each cs ?body ?w1] => destruct (IH w1) as (w' & Hrun & Htr)
    end.
    exists w'. split; [exact Hrun|]. rewrite Htr. simpl.
    by rewrite <- app_assoc.
Qed.

Lemma traced_after_print fuel order (g : Groups) created :
  traced (of_kinds after_create_kinds)
    (sleep_for (seconds DNS_PROPAGATION_WAIT) ;;
     public_check g ;;
     answer_and_poll fuel order g created : M X OrderResource).
Proof.
  apply traced_bind; [apply traced_sleep_for; kinds_leaf|]. intros _.
  apply traced_bind; [traced_by traced_public_check|]. intros _.
  apply traced_answer_and_poll.
Qed.

(** C4. The verification of the records at the provider is advisory.
    Whatever the provider answers to the listing and the reads, the step
    returns a flag and raises nothing.  The run then prints its verdict,
    waits [DNS_PROPAGATION_WAIT] seconds, queries the public resolver and
    goes on with the answering and polling steps.  The flag decides which
    line is printed and nothing else: the outcome, the external state, the
    handle table and every other event are the same for both flags. *)
Theorem verification_is_advisory fuel order (g : Groups) created (w : World X) :
  exists b w1,
    verify_phase g w = (Ok b, w1) /\
    (exists w2,
       trace w2 = trace w1 ++
         EvPrint (verdict b) :: EvSleep (seconds DNS_PROPAGATION_WAIT) ::
         ((fun ci => EvResolve ("_acme-challenge." +:+ ci_domain_name ci))
            <$> all_challenges g) /\
       after_verification fuel order g created b w1
         = answer_and_poll fuel order g created w2) /\
    (exists r x ids evs,
       forall b', after_verification fuel order g created b' w1
                  = (r, mkWorld x ids (trace w1 ++ EvPrint (verdict b') :: evs))).
Proof.
  destruct (verify_fold_returns g true w) as (b & w1 & Hv).
  exists b, w1. split; [exact Hv|]. split.
  - set (wp := mkWorld (time_sleep (seconds DNS_PROPAGATION_WAIT) (ext w1))
                 (record_ids w1)
                 ((trace w1 ++ [EvPrint (verdict b)])
                    ++ [EvSleep (seconds DNS_PROPAGATION_WAIT)])).
    destruct (public_check_trace g wp) as (w2 & Hpc & Htr).
    exists w2. split.
    + rewrite Htr. subst wp. simpl. by rewrite <- !app_assoc.
    + unfold after_verification, bind, print, emit, sleep_for. simpl.
      fold wp. by rewrite Hpc.
  - destruct (traced_after_print fuel order g created (ext w1) (record_ids w1))
      as (r & x & ids & evs & _ & Hrun).
    exists r, x, ids, evs. intros b'.
    unfold after_verification. unfold bind at 1. unfold print, emit. simpl.
    rewrite Hrun. by rewrite <- app_assoc.
Qed.

(** *** What a true flag guarantees *)

Lemma report_step_run zone racc i (w : World X) :
  report_step zone racc i w =
  let w1 := mkWorld (snd (ovh_get_record zone i (ext w))) (record_ids w)
              (trace w ++ [EvOvhGet zone i]) in
  match fst (ovh_get_record zone i (ext w)) with
  | Returns d => (Ok (racc ++ [clean_target_of d]), w1)
  | Throws e => (Raise (External e), w1)
  end.
Proof.
  unfold report_step, bind, client_get_record, call, ret.
  by destruct (ovh_get_record zone i (ext w)) as [[d|e] x1].
Qed.

Lemma scan_step_run zone vals acc i (w : World X) :
  scan_step zone vals acc i w =
  let w1 := mkWorld (snd (ovh_get_record zone i (ext w))) (record_ids w)
              (trace w ++ [EvOvhGet zone i]) in
  match fst (ovh_get_record zone i (ext w)) with
  | Returns d =>
      (Ok (if bool_decide (clean_target_of d ∈ vals)
           then acc ++ [clean_target_of d] else acc), w1)
  | Throws e => (Raise (External e), w1)
  end.
Proof.
  unfold scan_step, bind, client_get_record, call, ret.
  destruct (ovh_get_record zone i (ext w)) as [[d|e] x1]; simpl; [|done].
  by case_bool_decide.
Qed.

Lemma scan_report zone vals ids acc racc (w : World X) :
  match for_fold ids (report_step zone) racc w with
  | (Ok rep, w') =>
      exists new, rep = racc ++ new /\
        for_fold ids (scan_step zone vals) acc w
          = (Ok (acc ++ filter (fun v => v ∈ vals) new), w')
  | (Raise e, w') => for_fold ids (scan_step zone vals) acc w = (Raise e, w')
  | (OutOfFuel, w') => for_fold ids (scan_step zone vals) acc w = (OutOfFuel, w')
  end.
Proof.
  revert acc racc w. induction ids as [|i ids IH]; intros acc racc w.
  - simpl. unfold ret. exists []. by rewrite !app_nil_r.
  - cbn [for_fold]. unfold bind. rewrite report_step_run, scan_step_run. simpl.
    destruct (fst (ovh_get_record zone i (ext w))) as [d|e]; [|done].
    set (w1 := mkWorld _ _ _).
    case_bool_decide as Hin.
    + specialize (IH (acc ++ [clean_target_of d]) (racc ++ [clean_target_of d]) w1).
      destruct (for_fold ids (report_step zone) _ w1) as [[rep|e|] w']; [|done|done].
      destruct IH as (new & -> & ->). exists (clean_target_of d :: new).
      split; [by rewrite <- app_assoc|].
      rewrite filter_cons_True by done. by rewrite <- app_assoc.
    + specialize (IH acc (racc ++ [clean_target_of d]) w1).
      destruct (for_fold ids (report_step zone) _ w1) as [[rep|e|] w']; [|done|done].
      destruct IH as (new & -> & ->). exists (clean_target_of d :: new).
      split; [by rewrite <- app_assoc|].
      by rewrite filter_cons_False by done.
Qed.

Lemma verify_step_true b item (w w' : World X) :
  verify_step b item w = (Ok true, w') ->
  b = true /\
  exists reported,
    reported_values (_get_zone (base_domain item.2))
      (record_name_of (subdomain item.2)) w = (Ok reported, w') /\
    length (filter (fun v => v ∈ validations item.2) reported)
      = length (validations item.2).
Proof.
  unfold verify_step, reported_values, try_except, bind.
  destruct (client_get_records _ _ w) as [[ids|e|] w1]; [| |done].
  - pose proof (scan_report (_get_zone (base_domain item.2)) (validations item.2)
                  ids [] [] w1) as Hscan.
    destruct (for_fold ids (report_step _) [] w1) as [[rep|e|] w2].
    + destruct Hscan as (new & -> & ->). simpl.
      case_decide as Hlen.
      * unfold print, emit, ret. simpl. done.
      * unfold ret. intros [= -> <-]. split; [done|]. exists new.
        split; done.
    + rewrite Hscan. unfold print, emit, ret. simpl. done.
    + rewrite Hscan. done.
  - unfold print, emit, ret. simpl. done.
Qed.

Lemma verify_fold_true (g : Groups) b (w w' : World X) :
  for_fold g verify_step b w = (Ok true, w') -> b = true.
Proof.
  revert b w. induction g as [|item g IH]; intros b w; simpl.
  - unfold ret. by intros [= ->].
  - unfold bind. destruct (verify_step b item w) as [[b1|e|] w1] eqn:Hs; [|done|done].
    intros Hrest. apply IH in Hrest as ->.
    by apply verify_step_true in Hs as [-> _].
Qed.

(** X27. What a true flag does guarantee.  When the flag is true then,
    for every group, at the moment its check begins: listing and reading the
    records succeeds, and the number of reported values (quotes stripped)
    that are among the group's validation values equals the number of
    validation values.  If moreover those matching reported values are
    pairwise distinct, every validation value of the group is among the
    reported ones. *)
Theorem verification_flag_counts (g : Groups) (w w' : World X) :
  verify_phase g w = (Ok true, w') ->
  forall pre item post, g = pre ++ item :: post ->
  exists wi reported wi',
    verify_phase pre w = (Ok true, wi) /\
    reported_values (_get_zone (base_domain item.2))
      (record_name_of (subdomain item.2)) wi = (Ok reported, wi') /\
    let found := filter (fun v => v ∈ validations item.2) reported in
    length found = length (validations item.2) /\
    (NoDup found -> forall v, v ∈ validations item.2 -> v ∈ reported).
Proof.
  unfold verify_phase. intros Hrun pre item post ->.
  rewrite for_fold_app in Hrun. unfold bind at 1 in Hrun.
  destruct (verify_fold_returns pre true w) as (b1 & wi & Hpre).
  rewrite Hpre in Hrun. simpl in Hrun. unfold bind in Hrun.
  destruct (verify_step_returns b1 item wi) as (b2 & wi' & Hstep).
  rewrite Hstep in Hrun. apply verify_fold_true in Hrun as ->.
  destruct (verify_step_true _ _ _ _ Hstep) as (-> & reported & Hrep & Hlen).
  exists wi, reported, wi'. split; [done|]. split; [done|]. simpl.
  split; [done|]. intros Hnd v Hv.
  assert (Hincl : incl (validations item.2)
                    (filter (fun v => v ∈ validations item.2) reported)).
  { apply NoDup_length_incl; [by apply NoDup_ListNoDup|lia|].
    intros x Hx%list_elem_of_In. by apply list_elem_of_filter in Hx as [Hx _];
      apply list_elem_of_In. }
  apply list_elem_of_In, Hincl, list_elem_of_In in Hv.
  by apply list_elem_of_filter in Hv as [_ Hv].
Qed.

End Verification.

(** C2. The flag misses a missing value.  Two values, [a] and [b], are
    expected at one location, and the provider lists two records there, both
    holding [a].  Each of them is among the expected values, so two values
    are found where two are expected: the comparison of the counts passes,
    nothing is printed and the flag is true, although [b] is not among the
    values the provider reports.  With [a] listed once, the same comparison
    does notice that a value is missing: it prints the mismatch and the flag
    is false. *)
Theorem verification_flag_misses_value :
  fst (verify_phase dup_groups dup_world) = Ok true /\
  trace (snd (verify_phase dup_groups dup_world)) =
    [EvOvhList "a.com" "_acme-challenge"; EvOvhGet "a.com" 1; EvOvhGet "a.com" 2] /\
  fst (reported_values "a.com" "_acme-challenge" dup_world) = Ok ["a"; "a"] /\
  validations dup_item.2 = ["a"; "b"] /\
  ~ (forall v, v ∈ validations dup_item.2 -> v ∈ ["a"; "a"]) /\
  fst (verify_phase dup_groups once_world) = Ok false /\
  trace (snd (verify_phase dup_groups once_world)) =
    [EvOvhList "a.com" "_acme-challenge"; EvOvhGet "a.com" 1;
     EvPrint (LineCountMismatch 2 1)].
Proof.
  split; [vm_compute; reflexivity|]. split; [vm_compute; reflexivity|].
  split; [vm_compute; reflexivity|]. split; [reflexivity|].
  split; [|split; vm_compute; reflexivity].
  intros Hall. specialize (Hall "b"). simpl in Hall.
  assert (Hb : "b" ∈ ["a"; "b"]) by (right; left).
  apply Hall in Hb. apply elem_of_cons in Hb as [Hb|Hb]; [discriminate|].
  apply elem_of_cons in Hb as [Hb|Hb]; [discriminate|]. by apply elem_of_nil in Hb.
Qed.

Lemma verification_flag_counts_witness :
  fst (verify_phase demo_groups (demo_created_world [] [])) = Ok true /\
  exists reported,
    fst (reported_values "a.com" "_acme-challenge" (demo_created_world [] []))
      = Ok reported /\
    forall v, v ∈ ["v-a.com"; "v-*.a.com"] -> v ∈ reported.
Proof.
  split; [vm_compute; reflexivity|].
  destruct (verification_flag_counts (X := Sim.State) demo_groups
              (demo_created_world [] [])
              (snd (verify_phase demo_groups (demo_created_world [] []))))
    with (pre := @nil ((string * string) * RecordInfo))
         (item := (("a.com", EmptyString),
                   {| base_domain := "a.com"; subdomain := EmptyString;
                      validations := ["v-a.com"; "v-*.a.com"];
                      challenges := [demo_ci "a.com"; demo_ci "*.a.com"] |}))
         (post := @nil ((string * string) * RecordInfo))
    as (wi & reported & wi' & Hpre & Hrep & Hlen & Hall).
  - vm_compute. reflexivity.
  - vm_compute. reflexivity.
  - injection Hpre as <-.
    assert (Hval : reported = ["v-a.com"; "v-*.a.com"]).
    { revert Hrep. vm_compute. by intros [= <- _]. }
    exists reported. split; [rewrite Hval; vm_compute; reflexivity|].
    apply Hall. rewrite Hval. simpl.
    rewrite filter_cons_True by (by left).
    rewrite filter_cons_True by (right; by left).
    rewrite filter_nil.
    apply NoDup_cons. split.
    + intros Hin. apply elem_of_cons in Hin as [Hin|Hin]; [discriminate|].
      by apply elem_of_nil in Hin.
    + apply NoDup_cons. split; [by intros ?%elem_of_nil|apply NoDup_nil_2].
Defined.

(** * Further properties of the source *)

(** ** Strings *)

Lemma prefix_empty s : String.prefix EmptyString s = true.
Proof. by destruct s. Qed.

Lemma prefix_refl s : String.prefix s s = true.
Proof.
  induction s as [|a s IH]; [done|]. simpl.
  by destruct (ascii_dec a a).
Qed.

Lemma string_app_cons x a b : String x a +:+ b = String x (a +:+ b).
Proof. reflexivity. Qed.

Lemma string_app_empty_l b : EmptyString +:+ b = b.
Proof. reflexivity. Qed.

Lemma string_app_empty_r s : s +:+ EmptyString = s.
Proof. induction s as [|a s IH]; [done|]. by rewrite string_app_cons, IH. Qed.

Lemma string_app_assoc a b c : (a +:+ b) +:+ c = a +:+ (b +:+ c).
Proof.
  induction a as [|x a IH]; [done|]. by rewrite !string_app_cons, IH.
Qed.

Lemma string_app_length a b :
  String.length (a +:+ b) = (String.length a + String.length b)%nat.
Proof.
  induction a as [|x a IH]; [done|]. rewrite string_app_cons. simpl.
  by rewrite IH.
Qed.

Lemma has_char_app c a b :
  has_char c (a +:+ b) = has_char c a || has_char c b.
Proof.
  induction a as [|x a IH]; [done|]. rewrite string_app_cons. simpl.
  case_decide; [done|exact IH].
Qed.

Lemma join_cons sep a b l :
  PyStr.join sep (a :: b :: l) = a +:+ sep +:+ PyStr.join sep (b :: l).
Proof. reflexivity. Qed.

(** [sep.join(s.split(sep))] gives [s] back. *)
Lemma join_split c s :
  PyStr.join (String c EmptyString) (PyStr.split c s) = s.
Proof.
  induction s as [|a s IH]; [done|]. simpl. case_decide as Hc.
  - subst a. pose proof (split_nonempty c s) as Hne.
    destruct (PyStr.split c s) as [|h t]; [done|].
    rewrite join_cons, IH. reflexivity.
  - destruct (PyStr.split c s) as [|h t] eqn:Hs.
    + by destruct (split_nonempty c s).
    + destruct t as [|h' t].
      * simpl in *. by subst.
      * rewrite join_cons in *. by rewrite string_app_cons, IH.
Qed.

Lemma split_no_char c s : has_char c s = false -> PyStr.split c s = [s].
Proof.
  induction s as [|a s IH]; [done|]. simpl. case_decide; [done|].
  intros Hs. by rewrite IH.
Qed.

Lemma split_app c a b :
  PyStr.split c (a +:+ String c b) = PyStr.split c a ++ PyStr.split c b.
Proof.
  induction a as [|x a IH].
  - rewrite string_app_empty_l. simpl. by rewrite decide_True.
  - rewrite string_app_cons. simpl. case_decide.
    + by rewrite IH.
    + rewrite IH. pose proof (split_nonempty c a).
      by destruct (PyStr.split c a).
Qed.

Lemma split_labels c s l : l ∈ PyStr.split c s -> has_char c l = false.
Proof.
  revert l. induction s as [|a s IH]; intros l; simpl.
  - by intros ->%list_elem_of_singleton.
  - case_decide as Hc.
    + intros [->|Hl]%elem_of_cons; [done|by apply IH].
    + pose proof (split_nonempty c s).
      destruct (PyStr.split c s) as [|h t]; [done|].
      intros [->|Hl]%elem_of_cons.
      * simpl. rewrite decide_False by done. apply IH. by left.
      * apply IH. by right.
Qed.

Lemma join_app sep l1 l2 :
  l1 <> [] -> l2 <> [] ->
  PyStr.join sep (l1 ++ l2) = PyStr.join sep l1 +:+ sep +:+ PyStr.join sep l2.
Proof.
  intros H1 H2. induction l1 as [|a l1 IH]; [done|].
  destruct l1 as [|b l1].
  - simpl. by destruct l2.
  - change ((a :: b :: l1) ++ l2) with (a :: b :: (l1 ++ l2)).
    rewrite join_cons.
    change (b :: (l1 ++ l2)) with ((b :: l1) ++ l2).
    rewrite IH by done. rewrite join_cons.
    by rewrite !string_app_assoc.
Qed.

Lemma last_two_shape (l : list string) :
  (2 <= length l)%nat ->
  exists l1 a b, l = l1 ++ [a; b] /\ PyStr.last_two l = [a; b].
Proof.
  intros Hlen. unfold PyStr.last_two.
  pose proof (take_drop (length l - 2) l) as Hsplit.
  pose proof (length_drop l (length l - 2)) as Hd.
  destruct (drop (length l - 2) l) as [|a [|b [|c r]]]; simpl in Hd; try lia.
  exists (take (length l - 2) l), a, b. by rewrite Hsplit.
Qed.

Lemma split_two_labels a b :
  has_char "." a = false -> has_char "." b = false ->
  PyStr.split "." (a +:+ "." +:+ b) = [a; b].
Proof.
  intros Ha Hb. change (a +:+ "." +:+ b) with (a +:+ String "." b).
  by rewrite split_app, !split_no_char.
Qed.

(** ** The zone of a domain *)

(** X1. The zone that [_get_zone] extracts is a suffix of the domain that
    starts at a label boundary, it has at most two labels, and a domain of at
    most two labels is its own zone. *)
Theorem get_zone_is_label_suffix domain :
  (exists p, domain = p +:+ _get_zone domain /\
             (p = EmptyString \/ exists q, p = q +:+ ".")) /\
  (length (PyStr.split "." (_get_zone domain)) <= 2)%nat /\
  ((length (PyStr.split "." domain) <= 2)%nat -> _get_zone domain = domain).
Proof.
  unfold _get_zone. case_decide as Hlen.
  - destruct (last_two_shape _ Hlen) as (l1 & a & b & Hparts & Hlast).
    rewrite Hlast.
    assert (Ha : has_char "." a = false).
    { apply (split_labels "." domain). rewrite Hparts. set_solver. }
    assert (Hb : has_char "." b = false).
    { apply (split_labels "." domain). rewrite Hparts. set_solver. }
    pose proof (join_split "." domain) as Hjoin. rewrite Hparts in Hjoin.
    split; [|split].
    + destruct l1 as [|x l1].
      * exists EmptyString. split; [by rewrite <- Hjoin|by left].
      * exists (PyStr.join "." (x :: l1) +:+ "."). split; [|right; eauto].
        rewrite <- Hjoin at 1. rewrite join_app by done.
        by rewrite string_app_assoc.
    + change (PyStr.join "." [a; b]) with (a +:+ "." +:+ b).
      by rewrite split_two_labels.
    + rewrite Hparts, length_app. simpl. intros Hle.
      destruct l1; [|simpl in Hle; lia]. by rewrite <- Hjoin.
  - split; [|split].
    + exists EmptyString. split; [done|by left].
    + lia.
    + done.
Qed.

Lemma get_zone_idempotent domain : _get_zone (_get_zone domain) = _get_zone domain.
Proof.
  unfold _get_zone at 2 3. case_decide as Hlen.
  - destruct (last_two_shape _ Hlen) as (l1 & a & b & Hparts & Hlast).
    rewrite Hlast.
    assert (Ha : has_char "." a = false).
    { apply (split_labels "." domain). rewrite Hparts. set_solver. }
    assert (Hb : has_char "." b = false).
    { apply (split_labels "." domain). rewrite Hparts. set_solver. }
    change (PyStr.join "." [a; b]) with (a +:+ "." +:+ b).
    unfold _get_zone. by rewrite split_two_labels.
  - unfold _get_zone. by rewrite decide_False.
Qed.

(** X2. The handler recomputes the zone from the base domain it is given;
    for the base domain of any record key this changes nothing: records are
    created, listed and deleted in the zone that the key names. *)
Theorem handler_zone_is_base_domain domain_name :
  _get_zone (resolve domain_name).1 = (resolve domain_name).1.
Proof. unfold resolve. simpl. apply get_zone_idempotent. Qed.

(** ** Wildcards *)

Lemma replace_wildcard_prefix new d :
  PyStr.replace "*." new ("*." +:+ d) = new +:+ PyStr.replace "*." new d.
Proof.
  unfold PyStr.replace.
  change ("*." +:+ d) with (String "*" (String "." d)).
  cbn [PyStr.replace_scan String.length Nat.sub].
  cbn [String.prefix]. destruct (ascii_dec "*" "*") as [_|]; [|done].
  destruct (ascii_dec "." ".") as [_|]; [|done].
  by rewrite prefix_empty.
Qed.

(** X3. A wildcard domain has the record location of the domain under the
    wildcard: [*.d] and [d] are grouped at the same TXT record name. *)
Theorem resolve_wildcard_collapses d : resolve ("*." +:+ d) = resolve d.
Proof.
  unfold resolve. rewrite replace_wildcard_prefix. by rewrite string_app_empty_l.
Qed.

(** ** [str.replace] *)

Lemma prefix_length p s :
  String.prefix p s = true -> (String.length p <= String.length s)%nat.
Proof.
  revert p. induction s as [|b s IH]; intros [|a p]; simpl; try done; try lia.
  destruct (ascii_dec a b); [|done]. intros Hp%IH. lia.
Qed.

(** Nothing is replaced in a string that lacks the first character of
    [old]. *)
Lemma replace_scan_no_first_char x t new s :
  has_char x s = false -> PyStr.replace_scan (String x t) new 0 s = s.
Proof.
  induction s as [|a s IH]; [done|]. simpl. case_decide as Hx; [done|].
  intros Hs. destruct (ascii_dec x a) as [->|_]; [done|]. by rewrite IH.
Qed.

(** The scan copies a stretch without the first character of [old]. *)
Lemma replace_scan_copies x t new c rest :
  has_char x c = false ->
  PyStr.replace_scan (String x t) new 0 (c +:+ rest)
  = c +:+ PyStr.replace_scan (String x t) new 0 rest.
Proof.
  induction c as [|a c IH]; [done|]. simpl. case_decide as Hx; [done|].
  intros Hc. rewrite !string_app_cons. simpl.
  destruct (ascii_dec x a) as [->|_]; [done|]. by rewrite IH.
Qed.

Lemma replace_scan_skips old new s :
  PyStr.replace_scan old new (String.length s) s = EmptyString.
Proof. induction s as [|a s IH]; [done|]. simpl. exact IH. Qed.

(** A string shorter than [old] comes back unchanged. *)
Lemma replace_scan_shorter old new s :
  (String.length s < String.length old)%nat ->
  PyStr.replace_scan old new 0 s = s.
Proof.
  induction s as [|a s IH]; [done|]. intros Hlen.
  cbn [PyStr.replace_scan].
  destruct (String.prefix old (String a s)) eqn:Hp.
  - apply prefix_length in Hp. lia.
  - rewrite IH; [done|]. simpl in Hlen. lia.
Qed.

(** An occurrence of [old] at the scan position is replaced whole. *)
Lemma replace_scan_match x t new :
  PyStr.replace_scan (String x t) new 0 (String x t) = new.
Proof.
  cbn [PyStr.replace_scan]. rewrite prefix_refl.
  cbn [String.length Nat.sub]. rewrite Nat.sub_0_r.
  by rewrite replace_scan_skips, string_app_empty_r.
Qed.

Lemma string_app_longer a b : b <> EmptyString -> a <> a +:+ b.
Proof.
  intros Hb Heq. apply (f_equal String.length) in Heq.
  rewrite string_app_length in Heq. destruct b; [done|]. simpl in Heq. lia.
Qed.

(** ** Record locations of ordinary domains *)

(** X4. For labels without dots and stars: a single label [b] and a
    two-label domain [a.b] are their own zone with an empty subdomain, and
    [c.a.b] lies in zone [a.b] with subdomain [c]. *)
Theorem resolve_up_to_three_labels a b c :
  has_char "." a = false -> has_char "." b = false -> has_char "." c = false ->
  has_char "*" a = false -> has_char "*" b = false -> has_char "*" c = false ->
  resolve b = (b, EmptyString) /\
  resolve (a +:+ "." +:+ b) = (a +:+ "." +:+ b, EmptyString) /\
  resolve (c +:+ "." +:+ a +:+ "." +:+ b) = (a +:+ "." +:+ b, c).
Proof.
  intros Ha Hb Hc Sa Sb Sc.
  assert (Hstar : forall s, has_char "*" s = false -> PyStr.replace "*." "" s = s).
  { intros s Hs. unfold PyStr.replace. by apply replace_scan_no_first_char. }
  assert (Hab : has_char "*" (a +:+ "." +:+ b) = false).
  { rewrite !has_char_app, Sa, Sb. done. }
  assert (Hcab : has_char "*" (c +:+ "." +:+ a +:+ "." +:+ b) = false).
  { rewrite has_char_app, Sc. simpl. exact Hab. }
  split; [|split]; unfold resolve.
  - rewrite (Hstar b Sb). unfold _get_base_domain.
    rewrite split_no_char by done. simpl.
    change ("." +:+ b) with (String "." b). unfold PyStr.replace.
    rewrite replace_scan_shorter by (simpl; lia). by rewrite decide_True.
  - rewrite (Hstar _ Hab). unfold _get_base_domain.
    rewrite split_two_labels by done. simpl.
    change (PyStr.join "." [a; b]) with (a +:+ "." +:+ b).
    change ("." +:+ a +:+ "." +:+ b) with (String "." (a +:+ "." +:+ b)).
    unfold PyStr.replace.
    rewrite replace_scan_shorter by (simpl; lia). by rewrite decide_True.
  - rewrite (Hstar _ Hcab). unfold _get_base_domain.
    change (c +:+ "." +:+ a +:+ "." +:+ b) with (c +:+ String "." (a +:+ "." +:+ b)).
    rewrite split_app, split_two_labels, split_no_char by done. simpl.
    change (PyStr.join "." [a; b]) with (a +:+ "." +:+ b).
    change ("." +:+ a +:+ "." +:+ b) with (String "." (a +:+ "." +:+ b)).
    unfold PyStr.replace.
    rewrite replace_scan_copies by done.
    rewrite replace_scan_match, string_app_empty_r.
    rewrite decide_False; [done|]. by apply string_app_longer.
Qed.

(** ** The file name of the certificate *)

Lemma replace_scan_char x new s :
  PyStr.replace_scan (String x EmptyString) new 0 s =
  match s with
  | EmptyString => EmptyString
  | String a s' =>
      (if decide (a = x) then new else String a EmptyString)
        +:+ PyStr.replace_scan (String x EmptyString) new 0 s'
  end.
Proof.
  destruct s as [|a s]; [done|]. cbn [PyStr.replace_scan String.length Nat.sub].
  cbn [String.prefix]. destruct (ascii_dec x a) as [->|Hne].
  - by rewrite prefix_empty, decide_True.
  - by rewrite decide_False by congruence.
Qed.

Lemma replace_scan_char_app x new a b :
  PyStr.replace_scan (String x EmptyString) new 0 (a +:+ b) =
  PyStr.replace_scan (String x EmptyString) new 0 a
    +:+ PyStr.replace_scan (String x EmptyString) new 0 b.
Proof.
  induction a as [|c a IH]; [done|].
  rewrite string_app_cons, (replace_scan_char x new (String c a)),
    (replace_scan_char x new (String c (a +:+ b))), IH.
  by rewrite string_app_assoc.
Qed.

Lemma replace_scan_char_removes x y s :
  x <> y ->
  has_char x (PyStr.replace_scan (String x EmptyString) (String y EmptyString) 0 s)
  = false.
Proof.
  intros Hxy. induction s as [|a s IH]; [done|].
  rewrite replace_scan_char. case_decide as Ha.
  - rewrite string_app_cons, string_app_empty_l. simpl.
    by rewrite decide_False by congruence.
  - rewrite string_app_cons, string_app_empty_l. simpl.
    by rewrite decide_False by done.
Qed.

(** X5. The file name under which [main] saves certificate and key holds
    no slash, and the name for a wildcard domain [*.d] is [wildcard-]
    followed by the name for [d]. *)
Theorem certificate_filename_safe d :
  has_char "/" (certificate_filename d) = false /\
  certificate_filename ("*." +:+ d) = "wildcard-" +:+ certificate_filename d.
Proof.
  unfold certificate_filename. split.
  - unfold PyStr.replace at 1. by apply replace_scan_char_removes.
  - rewrite replace_wildcard_prefix. unfold PyStr.replace at 1 3.
    by rewrite replace_scan_char_app.
Qed.

Lemma resolve_up_to_three_labels_witness :
  resolve "com" = ("com", EmptyString) /\
  resolve ("example" +:+ "." +:+ "com") = ("example" +:+ "." +:+ "com", EmptyString) /\
  resolve ("sub" +:+ "." +:+ "example" +:+ "." +:+ "com")
    = ("example" +:+ "." +:+ "com", "sub").
Proof.
  apply (resolve_up_to_three_labels "example" "com" "sub"); reflexivity.
Defined.

(** ** Grouping the challenges *)

Lemma located_at_snoc k seen ci :
  located_at k (seen ++ [ci]) =
  located_at k seen ++ (if decide (resolve (ci_domain_name ci) = k) then [ci] else []).
Proof.
  unfold located_at. rewrite filter_app. f_equal.
Qed.

Lemma located_at_none k seen :
  (forall ci, ci ∈ seen -> resolve (ci_domain_name ci) <> k) ->
  located_at k seen = [].
Proof.
  intros Hne. unfold located_at. induction seen as [|ci seen IH]; [done|].
  rewrite filter_cons_False by (apply Hne; by left).
  apply IH. intros ci' Hin. apply Hne. by right.
Qed.

Section GroupingInvariant.

Context {X : Type} `{Collaborators X}.

Lemma collect_authz_grouped seen (g : Groups) authz (w : World X) g' w' :
  grouped seen g ->
  collect_authz g authz w = (Ok g', w') ->
  exists ci, challenge_info_of authz = Some ci /\ grouped (seen ++ [ci]) g' /\ w' = w.
Proof.
  intros (Hnd & Hcover & Hall). unfold collect_authz, challenge_info_of.
  destruct (find_dns01 (authz_challenges authz)) as [c|]; [|done].
  destruct (resolve (identifier_value authz)) as [b s] eqn:Hres.
  unfold ret. intros [= <- <-]. eexists. split; [reflexivity|]. split; [|done].
  set (ci := {| ci_challenge := c; ci_authz := authz;
                ci_domain_name := identifier_value authz |}).
  set (g1 := if has_key (b, s) g then g
             else g ++ [((b, s), {| base_domain := b; subdomain := s;
                                    validations := []; challenges := [] |})]).
  assert (Hkeys1 : NoDup g1.*1 /\ (b, s) ∈ g1.*1 /\
                   forall k, k ∈ g.*1 -> k ∈ g1.*1).
  { subst g1. unfold has_key. case_bool_decide as Hin.
    - done.
    - rewrite fmap_app. simpl. split; [|split].
      + apply NoDup_app. split; [done|]. split; [|apply NoDup_singleton].
        intros k Hk ->%list_elem_of_singleton. done.
      + apply elem_of_app. right. by left.
      + intros k Hk. apply elem_of_app. by left. }
  destruct Hkeys1 as (Hnd1 & Hin1 & Hmono).
  assert (Hall1 : Forall (fun item : (string * string) * RecordInfo =>
                    item.1 = (base_domain item.2, subdomain item.2) /\
                    challenges item.2 = located_at item.1 seen /\
                    validations item.2
                      = (fun ci => chall_validation (ci_challenge ci))
                          <$> challenges item.2 /\
                    (item.1 <> (b, s) -> challenges item.2 <> [])) g1).
  { subst g1. unfold has_key. case_bool_decide as Hin.
    - eapply Forall_impl; [exact Hall|]. intros [k info]. simpl. tauto.
    - apply Forall_app. split.
      + eapply Forall_impl; [exact Hall|]. intros [k info]. simpl. tauto.
      + apply Forall_singleton. simpl. split; [done|]. split; [|done].
        symmetry. apply located_at_none. intros ci' Hci' Heq.
        apply Hin. rewrite <- Heq. by apply Hcover. }
  split; [by rewrite append_challenge_keys|]. split.
  - rewrite append_challenge_keys. intros ci' [Hci'|Hci']%elem_of_app.
    + by apply Hmono, Hcover.
    + apply list_elem_of_singleton in Hci' as ->. subst ci. simpl. by rewrite Hres.
  - unfold append_challenge. apply Forall_fmap.
    eapply Forall_impl; [exact Hall1|]. intros [k info] (Hk & Hch & Hval & Hne).
    simpl in *. rewrite located_at_snoc. subst ci. simpl. rewrite Hres.
    case_decide as Hkk; simpl.
    + subst k. rewrite decide_True by done.
      split; [done|]. split; [by rewrite Hch|]. split.
      * by rewrite fmap_app, Hval.
      * by destruct (challenges info).
    + rewrite decide_False by done. rewrite app_nil_r. auto.
Qed.

Lemma collect_fold_grouped authzs seen (g0 : Groups) (w : World X) g w' :
  grouped seen g0 ->
  for_fold authzs collect_authz g0 w = (Ok g, w') ->
  grouped (seen ++ challenge_infos authzs) g /\ w' = w /\
  length (challenge_infos authzs) = length authzs.
Proof.
  revert seen g0 w. induction authzs as [|a authzs IH]; intros seen g0 w Hg; simpl.
  - unfold ret. intros [= <- <-]. by rewrite app_nil_r.
  - unfold bind.
    destruct (collect_authz g0 a w) as [[g1|e|] w1] eqn:Hstep; [|done|done].
    intros Hrest.
    destruct (collect_authz_grouped _ _ _ _ _ _ Hg Hstep) as (ci & Hci & Hg1 & ->).
    destruct (IH _ _ _ Hg1 Hrest) as (Hfinal & -> & Hlen).
    unfold challenge_infos in *. simpl. rewrite Hci. simpl.
    rewrite <- app_assoc in Hfinal. simpl in Hfinal.
    split; [done|]. split; [done|]. by rewrite Hlen.
Qed.

(** X6. Grouping is a partition.  When step 1 succeeds it makes no call
    and leaves the world as it was; the record keys are pairwise distinct;
    every authorization contributes one entry; and each group holds exactly
    the entries whose domain has the group's location, in the order of the
    order's authorizations, with the validation values aligned to them and
    the location stored in the group's own fields. *)
Theorem collect_challenges_partitions authzs (w w' : World X) (g : Groups) :
  collect_challenges authzs w = (Ok g, w') ->
  w' = w /\
  NoDup g.*1 /\
  length (challenge_infos authzs) = length authzs /\
  (forall ci, ci ∈ challenge_infos authzs -> resolve (ci_domain_name ci) ∈ g.*1) /\
  (forall k info, (k, info) ∈ g ->
     k = (base_domain info, subdomain info) /\
     challenges info = located_at k (challenge_infos authzs) /\
     validations info
       = (fun ci => chall_validation (ci_challenge ci)) <$> challenges info /\
     challenges info <> []).
Proof.
  intros Hrun.
  assert (Hinit : grouped [] ([] : Groups)).
  { split; [constructor|]. split; [by intros ci ?%elem_of_nil|constructor]. }
  destruct (collect_fold_grouped _ _ _ _ _ _ Hinit Hrun)
    as ((Hnd & Hcover & Hall) & -> & Hlen).
  simpl in *. split; [done|]. split; [done|]. split; [done|]. split; [done|].
  intros k info Hin. rewrite Forall_forall in Hall. exact (Hall _ Hin).
Qed.

(** X7. An apex domain and its wildcard end up in one group: the order
    for [d] and [*.d] yields a single record location holding both
    validation values, the apex's first. *)
Theorem apex_and_wildcard_share_a_group d a1 a2 c1 c2 (w : World X) :
  identifier_value a1 = d ->
  identifier_value a2 = "*." +:+ d ->
  find_dns01 (authz_challenges a1) = Some c1 ->
  find_dns01 (authz_challenges a2) = Some c2 ->
  collect_challenges [a1; a2] w =
    (Ok [(resolve d,
          {| base_domain := (resolve d).1;
             subdomain := (resolve d).2;
             validations := [chall_validation c1; chall_validation c2];
             challenges :=
               [ {| ci_challenge := c1; ci_authz := a1; ci_domain_name := d |};
                 {| ci_challenge := c2; ci_authz := a2;
                    ci_domain_name := "*." +:+ d |} ] |})], w).
Proof.
  intros Hd1 Hd2 Hc1 Hc2. destruct (resolve d) as [b s] eqn:Hres. simpl.
  set (info1 := {| base_domain := b; subdomain := s;
                   validations := [chall_validation c1];
                   challenges := [ {| ci_challenge := c1; ci_authz := a1;
                                      ci_domain_name := d |} ] |}).
  assert (H1 : collect_authz [] a1 w = (Ok [((b, s), info1)], w)).
  { unfold collect_authz. rewrite Hc1, Hd1, Hres. unfold has_key.
    rewrite bool_decide_eq_false_2 by (simpl; apply not_elem_of_nil).
    simpl. by rewrite decide_True. }
  assert (H2 : collect_authz [((b, s), info1)] a2 w =
               (Ok [((b, s),
                     {| base_domain := b; subdomain := s;
                        validations := [chall_validation c1; chall_validation c2];
                        challenges :=
                          [ {| ci_challenge := c1; ci_authz := a1;
                               ci_domain_name := d |};
                            {| ci_challenge := c2; ci_authz := a2;
                               ci_domain_name := "*." +:+ d |} ] |})], w)).
  { assert (Hw : resolve ("*." +:+ d) = (b, s)).
    { rewrite <- Hres. unfold resolve.
      by rewrite replace_wildcard_prefix, string_app_empty_l. }
    unfold collect_authz. rewrite Hc2, Hd2, Hw.
    unfold has_key. rewrite bool_decide_eq_true_2 by (simpl; by left).
    simpl. by rewrite decide_True. }
  unfold collect_challenges. simpl. unfold bind. by rewrite H1, H2.
Qed.

Lemma collect_authz_cases (g : Groups) authz (w : World X) :
  (exists g', collect_authz g authz w = (Ok g', w) /\
              is_Some (find_dns01 (authz_challenges authz))) \/
  (collect_authz g authz w = (Raise NoDns01Challenge, w) /\
   find_dns01 (authz_challenges authz) = None).
Proof.
  unfold collect_authz. destruct (find_dns01 (authz_challenges authz)) as [c|].
  - left. destruct (resolve (identifier_value authz)). eexists. split; [reflexivity|eauto].
  - by right.
Qed.

(** X8. An authorization without a DNS-01 challenge stops the request
    before any DNS record is touched: [request_certificate] raises the
    "No DNS-01 challenge found" exception in the world that the order
    creation left. *)
Theorem missing_dns01_stops_before_dns fuel domains order authz (w w1 : World X) :
  client_new_order domains w = (Ok order, w1) ->
  authz ∈ authorizations order ->
  find_dns01 (authz_challenges authz) = None ->
  request_certificate fuel domains w = (Raise NoDns01Challenge, w1).
Proof.
  intros Hno Hin Hnone.
  assert (Hcollect : forall authzs (g0 : Groups),
             authz ∈ authzs ->
             for_fold authzs collect_authz g0 w1 = (Raise NoDns01Challenge, w1)).
  { induction authzs as [|a authzs IH]; intros g0 Ha; [by apply elem_of_nil in Ha|].
    simpl. unfold bind.
    destruct (collect_authz_cases g0 a w1) as [(g1 & -> & Hsome)|[-> Hn]]; [|done].
    apply elem_of_cons in Ha as [->|Ha]; [|by apply IH].
    rewrite Hnone in Hsome. by destruct Hsome. }
  unfold request_certificate, bind. rewrite Hno.
  unfold collect_challenges. by rewrite Hcollect.
Qed.

End GroupingInvariant.

(** ** The handle table of the DNS handler *)

Section HandleTable.

Context {X : Type} `{Collaborators X}.

Lemma create_ok_inv domain subdomain value (w w' : World X) i :
  create_txt_record domain subdomain value w = (Ok i, w') ->
  record_ids w' = <[record_name_of subdomain +:+ ":" +:+ value := i]> (record_ids w) /\
  trace w' = trace w ++
    [EvEnter (MCreate domain subdomain value);
     EvOvhCreate (_get_zone domain) (record_name_of subdomain) value 60;
     EvOvhRefresh (_get_zone domain);
     EvLeave (MCreate domain subdomain value)].
Proof.
  unfold create_txt_record, method, try_except, bind, client_post_record,
    client_post_refresh, call, get_record_ids, set_record_ids, ret, raise.
  simpl.
  destruct (ovh_post_record _ _ _ _ (ext w)) as [[[j|]|e] x1]; simpl; try done.
  destruct (ovh_post_refresh _ x1) as [[[]|e] x2]; simpl; try done.
  intros [= <- <-]. simpl. split; [done|]. by rewrite <- !app_assoc.
Qed.

(** X10. Creating a record and then deleting it with the same arguments is
    a round trip on the table: with a non-empty value and a provider whose
    delete and refresh go through, the provider is asked to delete exactly
    the id that the creation returned, and the key is gone; if the key was
    not in the table before the creation, the table is as it was. *)
Theorem create_then_delete_round_trip
    domain subdomain value (w w1 : World X) i x2 x3 :
  PyStr.truthy value = true ->
  create_txt_record domain subdomain value w = (Ok i, w1) ->
  ovh_delete_record (_get_zone domain) i (ext w1) = (Returns tt, x2) ->
  ovh_post_refresh (_get_zone domain) x2 = (Returns tt, x3) ->
  exists w2,
    delete_txt_record domain subdomain (Some value) w1 = (Ok tt, w2) /\
    record_ids w2
      = delete (record_name_of subdomain +:+ ":" +:+ value) (record_ids w) /\
    (record_ids w !! (record_name_of subdomain +:+ ":" +:+ value) = None ->
     record_ids w2 = record_ids w) /\
    ext w2 = x3 /\
    trace w2 = trace w1 ++
      [EvEnter (MDelete domain subdomain (Some value));
       EvOvhDelete (_get_zone domain) i;
       EvOvhRefresh (_get_zone domain);
       EvLeave (MDelete domain subdomain (Some value))].
Proof.
  intros Hv Hcreate Hdel Href.
  destruct (create_ok_inv _ _ _ _ _ _ Hcreate) as [Hids _].
  unfold delete_txt_record, method, bind, get_record_ids. simpl. rewrite Hv, Hids.
  rewrite lookup_insert_eq.
  unfold try_except, bind, client_delete_record, client_post_refresh, call,
    get_record_ids, set_record_ids, ret. simpl.
  rewrite Hdel. simpl. rewrite Href. simpl.
  eexists. split; [reflexivity|]. simpl. rewrite delete_insert_eq.
  split; [done|]. split; [apply delete_id|]. split; [done|].
  by rewrite <- !app_assoc.
Qed.

(** X11. A deletion that fails at the provider keeps the handle.  When the
    looked-up key holds id [i] and the provider's delete raises, or the
    delete goes through and the zone refresh raises, [delete_txt_record]
    still returns normally and the table is unchanged; in the first case no
    refresh is requested. *)
Theorem delete_txt_record_failure_keeps_handle
    domain subdomain value (w : World X) i :
  record_ids w !! delete_key (record_name_of subdomain) value = Some i ->
  (forall e x1,
     ovh_delete_record (_get_zone domain) i (ext w) = (Throws e, x1) ->
     delete_txt_record domain subdomain value w =
       (Ok tt, mkWorld x1 (record_ids w)
                 (trace w ++ [EvEnter (MDelete domain subdomain value);
                              EvOvhDelete (_get_zone domain) i;
                              EvLeave (MDelete domain subdomain value)]))) /\
  (forall x1 e x2,
     ovh_delete_record (_get_zone domain) i (ext w) = (Returns tt, x1) ->
     ovh_post_refresh (_get_zone domain) x1 = (Throws e, x2) ->
     delete_txt_record domain subdomain value w =
       (Ok tt, mkWorld x2 (record_ids w)
                 (trace w ++ [EvEnter (MDelete domain subdomain value);
                              EvOvhDelete (_get_zone domain) i;
                              EvOvhRefresh (_get_zone domain);
                              EvLeave (MDelete domain subdomain value)]))).
Proof.
  intros Hkey. split.
  - intros e x1 Hdel.
    unfold delete_txt_record, method, bind, get_record_ids. simpl. rewrite Hkey.
    unfold try_except, bind, client_delete_record, call, ret. simpl.
    rewrite Hdel. simpl. by rewrite <- !app_assoc.
  - intros x1 e x2 Hdel Href.
    unfold delete_txt_record, method, bind, get_record_ids. simpl. rewrite Hkey.
    unfold try_except, bind, client_delete_record, client_post_refresh, call, ret.
    simpl. rewrite Hdel. simpl. rewrite Href. simpl. by rewrite <- !app_assoc.
Qed.

(** X12. [delete_txt_record] touches at most the entry it looks up: every
    other key keeps its handle, and the looked-up key is removed or left as
    it is, whatever the provider does. *)
Theorem delete_txt_record_frame domain subdomain value (w : World X) :
  (forall k, k <> delete_key (record_name_of subdomain) value ->
     record_ids (snd (delete_txt_record domain subdomain value w)) !! k
       = record_ids w !! k) /\
  (record_ids (snd (delete_txt_record domain subdomain value w))
     !! delete_key (record_name_of subdomain) value = None \/
   record_ids (snd (delete_txt_record domain subdomain value w)) = record_ids w).
Proof.
  unfold delete_txt_record, method, bind, get_record_ids. simpl.
  destruct (record_ids w !! delete_key _ value) as [i|] eqn:Hkey; [|by split; [|right]].
  unfold try_except, bind, client_delete_record, client_post_refresh, call,
    get_record_ids, set_record_ids, ret. simpl.
  destruct (ovh_delete_record _ i (ext w)) as [[[]|e] x1]; simpl; [|by split; [|right]].
  destruct (ovh_post_refresh _ x1) as [[[]|e] x2]; simpl; [|by split; [|right]].
  split.
  - intros k Hk. by apply lookup_delete_ne.
  - left. apply lookup_delete_eq.
Qed.

(** X13. The empty value is a blind spot of the keying: [create_txt_record]
    files the handle of an empty value under [record_name:], while
    [delete_txt_record] treats an empty value as no value and looks up the
    bare record name.  After such a creation, deleting with the same
    arguments does nothing and the handle stays. *)
Theorem empty_value_handle_is_not_deleted domain subdomain (w w1 : World X) i :
  create_txt_record domain subdomain EmptyString w = (Ok i, w1) ->
  record_ids w !! record_name_of subdomain = None ->
  delete_txt_record domain subdomain (Some EmptyString) w1 =
    (Ok tt, mkWorld (ext w1) (record_ids w1)
              (trace w1 ++ [EvEnter (MDelete domain subdomain (Some EmptyString));
                            EvLeave (MDelete domain subdomain (Some EmptyString))])) /\
  record_ids w1 !! (record_name_of subdomain +:+ ":") = Some i.
Proof.
  intros Hcreate Hfree.
  destruct (create_ok_inv _ _ _ _ _ _ Hcreate) as [Hids _].
  change (record_name_of subdomain +:+ ":" +:+ EmptyString)
    with (record_name_of subdomain +:+ ":") in Hids.
  split; [|rewrite Hids; apply lookup_insert_eq].
  assert (Hlook : record_ids w1 !! record_name_of subdomain = None).
  { rewrite Hids, lookup_insert_ne; [done|].
    intros Heq. symmetry in Heq. by apply string_app_longer in Heq. }
  unfold delete_txt_record, method, bind, get_record_ids. simpl.
  rewrite Hlook. unfold ret. simpl. by rewrite <- app_assoc.
Qed.

End HandleTable.

(** ** What leaves the handle table alone *)

Section KeepsTable.

Context {X : Type}.

Lemma keeps_ret {A} (a : A) : keeps_table (ret a : M X A).
Proof. by intros w. Qed.

Lemma keeps_raise {A} e : keeps_table (raise e : M X A).
Proof. by intros w. Qed.

Lemma keeps_diverge {A} : keeps_table (diverge : M X A).
Proof. by intros w. Qed.

Lemma keeps_bind {A B} (m : M X A) (k : A -> M X B) :
  keeps_table m -> (forall a, keeps_table (k a)) -> keeps_table (bind m k).
Proof.
  intros Hm Hk w. unfold bind. specialize (Hm w).
  destruct (m w) as [[a|e|] w1]; simpl in *; [|done|done].
  by rewrite Hk.
Qed.

Lemma keeps_try_except {A} (body : M X A) handler :
  keeps_table body -> (forall e, keeps_table (handler e)) ->
  keeps_table (try_except body handler).
Proof.
  intros Hm Hk w. unfold try_except. specialize (Hm w).
  destruct (body w) as [[a|e|] w1]; simpl in *; [done| |done].
  by rewrite Hk.
Qed.

Lemma keeps_for_each {A} (xs : list A) (body : A -> M X unit) :
  (forall a, keeps_table (body a)) -> keeps_table (for_each xs body).
Proof.
  intros Hb. induction xs as [|a xs IH]; simpl.
  - apply keeps_ret.
  - apply keeps_bind; auto.
Qed.

Lemma keeps_for_fold {A S} (xs : list A) (body : S -> A -> M X S) (s : S) :
  (forall s a, keeps_table (body s a)) -> keeps_table (for_fold xs body s).
Proof.
  intros Hb. revert s. induction xs as [|a xs IH]; intros s; simpl.
  - apply keeps_ret.
  - apply keeps_bind; auto.
Qed.

Lemma keeps_emit ev : keeps_table (emit ev : M X unit).
Proof. by intros w. Qed.

Lemma keeps_call {A} (f : X -> Reply A * X) ev : keeps_table (call f ev).
Proof.
  intros w. unfold call. by destruct (f (ext w)) as [[a|e] x1].
Qed.

Lemma keeps_method {A} m (body : M X A) :
  keeps_table body -> keeps_table (method m body).
Proof.
  intros Hb w. unfold method.
  specialize (Hb (mkWorld (ext w) (record_ids w) (trace w ++ [EvEnter m]))).
  by destruct (body _) as [r w1].
Qed.

End KeepsTable.

Ltac keeps_auto :=
  repeat first
    [ progress intros
    | apply keeps_ret | apply keeps_raise | apply keeps_diverge
    | apply keeps_bind | apply keeps_try_except
    | apply keeps_for_each | apply keeps_for_fold
    | apply keeps_method | apply keeps_call | apply keeps_emit
    | case_match | case_decide ].

Section TableUntouched.

Context {X : Type} `{Collaborators X}.

Lemma keeps_time_time : keeps_table (time_time : M X Z).
Proof. by intros w. Qed.

Lemma keeps_sleep_for d : keeps_table (sleep_for d : M X unit).
Proof. by intros w. Qed.

Lemma keeps_cleanup domain subdomain :
  keeps_table (cleanup_old_challenge_records domain subdomain : M X unit).
Proof.
  unfold cleanup_old_challenge_records, client_get_records,
    client_delete_record, client_post_refresh.
  keeps_auto.
Qed.

Lemma keeps_poll_loop fuel ci deadline last :
  keeps_table (poll_loop fuel ci deadline last : M X _).
Proof.
  revert last. induction fuel as [|fuel IH]; intros last; simpl.
  - apply keeps_diverge.
  - apply keeps_bind; [apply keeps_time_time|]. intros now.
    case_decide; [|apply keeps_ret].
    apply keeps_bind; [unfold client_poll; apply keeps_call|]. intros st.
    repeat case_decide; try apply keeps_ret; try apply keeps_raise.
    apply keeps_bind; [apply keeps_sleep_for|]. intros _. apply IH.
Qed.

(** X14. Only [create_txt_record] and [delete_txt_record] write the handle
    table.  The clean-up of old records (which may delete records at the
    provider), the verification, the public DNS check, the answering and the
    polling all leave it exactly as they found it, whatever the
    collaborators do. *)
Theorem table_written_only_by_create_and_delete :
  (forall domain subdomain,
     keeps_table (cleanup_old_challenge_records domain subdomain : M X unit)) /\
  (forall g : Groups, keeps_table (cleanup_phase g : M X _)) /\
  (forall g : Groups, keeps_table (verify_phase g : M X bool)) /\
  (forall g : Groups, keeps_table (public_check g : M X unit)) /\
  (forall g : Groups, keeps_table (answer_phase g : M X unit)) /\
  (forall fuel (g : Groups), keeps_table (poll_phase fuel g : M X _)).
Proof.
  split; [apply keeps_cleanup|]. split.
  { intros g. unfold cleanup_phase. apply keeps_for_fold. intros s item.
    unfold cleanup_step. case_decide; [apply keeps_ret|].
    apply keeps_bind; [apply keeps_cleanup|]. intros; apply keeps_ret. }
  split.
  { intros g. unfold verify_phase. apply keeps_for_fold. intros b item.
    unfold verify_step, scan_step, client_get_records, client_get_record, print.
    keeps_auto. }
  split.
  { intros g. unfold public_check, resolver_resolve. keeps_auto. }
  split.
  { intros g. unfold answer_phase, client_answer_challenge. keeps_auto. }
  intros fuel g. unfold poll_phase. apply keeps_for_fold. intros last ci.
  unfold poll_domain.
  apply keeps_bind; [apply keeps_time_time|]. intros now.
  apply keeps_bind; [apply keeps_poll_loop|]. intros r. keeps_auto.
Qed.

End TableUntouched.

(** ** The clean-up of old challenge records *)

Ltac trace_eq :=
  simpl; rewrite <- ?app_assoc; simpl; rewrite <- ?app_assoc; done.

Section CleanupTrace.

Context {X : Type} `{Collaborators X}.

Lemma for_each_calls_return {A} (f : A -> X -> Reply unit * X) (ev : A -> Event)
    l (w : World X) x' :
  all_return f l (ext w) = Some x' ->
  for_each l (fun a => call (f a) (fun _ => ev a)) w
    = (Ok tt, mkWorld x' (record_ids w) (trace w ++ (ev <$> l))).
Proof.
  revert w. induction l as [|a l IH]; intros w.
  - simpl. intros [= <-]. rewrite app_nil_r. by destruct w.
  - cbn [for_each all_return]. unfold bind at 1. unfold call at 1.
    destruct (f a (ext w)) as [[[]|e] x1]; [|done]. intros Hrest.
    rewrite (IH (mkWorld x1 (record_ids w) (trace w ++ [ev a])) Hrest).
    simpl. by rewrite <- app_assoc.
Qed.

Lemma for_each_calls_stop {A} (f : A -> X -> Reply unit * X) (ev : A -> Event)
    pre a post (w : World X) x1 e x2 :
  all_return f pre (ext w) = Some x1 ->
  f a x1 = (Throws e, x2) ->
  for_each (pre ++ a :: post) (fun a => call (f a) (fun _ => ev a)) w
    = (Raise (External e),
       mkWorld x2 (record_ids w) (trace w ++ (ev <$> pre ++ [a]))).
Proof.
  revert w. induction pre as [|b pre IH]; intros w.
  - simpl. intros [= <-] Hthrow. unfold bind, call. by rewrite Hthrow.
  - cbn [for_each all_return app]. unfold bind at 1. unfold call at 1.
    destruct (f b (ext w)) as [[[]|e'] x0]; [|done]. intros Hrest Hthrow.
    rewrite (IH (mkWorld x0 (record_ids w) (trace w ++ [ev b])) Hrest Hthrow).
    simpl. by rewrite <- app_assoc.
Qed.

(** X15. [cleanup_old_challenge_records], for a listing [ids] of the old
    records, in every case returns normally.  For an empty listing it makes
    no further call.  Otherwise it asks the provider to delete the listed
    ids in order; if every deletion returns it then asks once for a zone
    refresh (whose failure is swallowed); at the first deletion that raises
    it stops: the ids after it are not touched and no refresh is asked
    for. *)
Theorem cleanup_refreshes_only_after_deleting_all
    domain subdomain (w : World X) ids x1 :
  ovh_get_records (_get_zone domain) (record_name_of subdomain) (ext w)
    = (Returns ids, x1) ->
  (ids = [] ->
   cleanup_old_challenge_records domain subdomain w =
     (Ok tt, mkWorld x1 (record_ids w)
               (trace w ++
                  [EvEnter (MCleanup domain subdomain);
                   EvOvhList (_get_zone domain) (record_name_of subdomain);
                   EvLeave (MCleanup domain subdomain)]))) /\
  (forall x2,
     ids <> [] ->
     all_return (ovh_delete_record (_get_zone domain)) ids x1 = Some x2 ->
     cleanup_old_challenge_records domain subdomain w =
       (Ok tt, mkWorld (snd (ovh_post_refresh (_get_zone domain) x2)) (record_ids w)
                 (trace w ++
                    EvEnter (MCleanup domain subdomain)
                    :: EvOvhList (_get_zone domain) (record_name_of subdomain)
                    :: (EvOvhDelete (_get_zone domain) <$> ids)
                    ++ [EvOvhRefresh (_get_zone domain);
                        EvLeave (MCleanup domain subdomain)]))) /\
  (forall pre i post x2 e x3,
     ids = pre ++ i :: post ->
     all_return (ovh_delete_record (_get_zone domain)) pre x1 = Some x2 ->
     ovh_delete_record (_get_zone domain) i x2 = (Throws e, x3) ->
     cleanup_old_challenge_records domain subdomain w =
       (Ok tt, mkWorld x3 (record_ids w)
                 (trace w ++
                    EvEnter (MCleanup domain subdomain)
                    :: EvOvhList (_get_zone domain) (record_name_of subdomain)
                    :: (EvOvhDelete (_get_zone domain) <$> pre ++ [i])
                    ++ [EvLeave (MCleanup domain subdomain)]))).
Proof.
  intros Hlist.
  set (w1 := mkWorld x1 (record_ids w)
               ((trace w ++ [EvEnter (MCleanup domain subdomain)])
                  ++ [EvOvhList (_get_zone domain) (record_name_of subdomain)])).
  assert (Hget :
    client_get_records (_get_zone domain) (record_name_of subdomain)
      (mkWorld (ext w) (record_ids w)
         (trace w ++ [EvEnter (MCleanup domain subdomain)]))
    = (Ok ids, w1)).
  { unfold client_get_records, call. simpl. by rewrite Hlist. }
  split; [|split].
  - intros ->.
    unfold cleanup_old_challenge_records, method, try_except.
    unfold bind at 1. rewrite Hget.
    unfold ret. subst w1. simpl. by rewrite <- !app_assoc.
  - intros x2 Hne Hall.
    unfold cleanup_old_challenge_records, method, try_except.
    unfold bind at 1. rewrite Hget.
    assert (Hloop :
      for_each ids
        (fun record_id => client_delete_record (_get_zone domain) record_id) w1
      = (Ok tt, mkWorld x2 (record_ids w1)
                  (trace w1 ++ (EvOvhDelete (_get_zone domain) <$> ids)))).
    { unfold client_delete_record.
      by apply (for_each_calls_return (ovh_delete_record (_get_zone domain))
                  (EvOvhDelete (_get_zone domain))). }
    destruct ids as [|i0 ids0]; [done|].
    unfold bind at 1. rewrite Hloop.
    unfold client_post_refresh, call. simpl.
    destruct (ovh_post_refresh (_get_zone domain) x2) as [[[]|e] x3]; simpl;
      unfold ret; simpl; f_equal; f_equal; by rewrite <- !app_assoc.
  - intros pre i post x2 e x3 Hsplit Hall Hthrow.
    unfold cleanup_old_challenge_records, method, try_except.
    unfold bind at 1. rewrite Hget. rewrite Hsplit. clear Hsplit Hget Hlist.
    assert (Hloop :
      for_each (pre ++ i :: post)
        (fun record_id => client_delete_record (_get_zone domain) record_id) w1
      = (Raise (External e),
         mkWorld x3 (record_ids w1)
           (trace w1 ++ (EvOvhDelete (_get_zone domain) <$> pre ++ [i])))).
    { unfold client_delete_record.
      by apply (for_each_calls_stop (ovh_delete_record (_get_zone domain))
                  (EvOvhDelete (_get_zone domain))) with (x1 := x2). }
    destruct (pre ++ i :: post) as [|j rest] eqn:Hshape.
    { by destruct pre. }
    unfold bind at 1. rewrite Hloop. unfold ret. subst w1. simpl.
    f_equal. f_equal. by rewrite <- !app_assoc.
Qed.

End CleanupTrace.

(** ** Record creation and teardown *)

Lemma delete_enters_none evs :
  Forall (fun ev => kind_of ev <> KDeleteEnter) evs -> delete_enters evs = [].
Proof.
  induction 1 as [|ev evs Hev _ IH]; [done|].
  destruct ev as [| | | | | | | | | | |[]|[]|]; simpl in Hev; try done;
    exact IH.
Qed.

Lemma delete_leaves_none evs :
  Forall (fun ev => kind_of ev <> KDeleteLeave) evs -> delete_leaves evs = [].
Proof.
  induction 1 as [|ev evs Hev _ IH]; [done|].
  destruct ev as [| | | | | | | | | | |[]|[]|]; simpl in Hev; try done;
    exact IH.
Qed.

Section CreateAndTeardown.

Context {X : Type} `{Collaborators X}.

Lemma create_step_result b s vals acc (w w' : World X) created :
  for_fold vals
    (fun created validation =>
       create_txt_record b s validation ;;
       ret (created ++ [(b, s, validation)]))%py acc w = (Ok created, w') ->
  created = acc ++ ((fun v => (b, s, v)) <$> vals) /\
  (exists evs, trace w' = trace w ++ evs /\
               create_enters evs = (fun v => (b, s, v)) <$> vals) /\
  (forall k, is_Some (record_ids w !! k) -> is_Some (record_ids w' !! k)) /\
  (forall v, v ∈ vals ->
             is_Some (record_ids w' !! (record_name_of s +:+ ":" +:+ v))).
Proof.
  revert acc w. induction vals as [|v vals IH]; intros acc w.
  - simpl. unfold ret. intros [= <- <-]. rewrite app_nil_r.
    split; [done|]. split; [exists []; by rewrite app_nil_r|]. split; [done|].
    by intros v ?%elem_of_nil.
  - cbn [for_fold]. unfold bind at 1. unfold bind at 1.
    destruct (create_txt_record b s v w) as [[i|e|] w1] eqn:Hc; [|done|done].
    unfold ret at 1. intros Hrest.
    destruct (create_ok_inv _ _ _ _ _ _ Hc) as [Hids Htr].
    destruct (IH _ _ Hrest) as (-> & (evs & Htr' & Hen) & Hmono & Hkeys).
    split; [by rewrite <- app_assoc|]. split; [|split].
    + exists ([EvEnter (MCreate b s v);
               EvOvhCreate (_get_zone b) (record_name_of s) v 60;
               EvOvhRefresh (_get_zone b);
               EvLeave (MCreate b s v)] ++ evs).
      split; [rewrite Htr', Htr; by rewrite <- app_assoc|].
      unfold create_enters in *. by rewrite omap_app, Hen.
    + intros k Hk. apply Hmono. rewrite Hids. apply lookup_insert_is_Some'. by right.
    + intros v' [->|Hv']%elem_of_cons; [|by apply Hkeys].
      apply Hmono. rewrite Hids. apply lookup_insert_is_Some'. by left.
Qed.

Lemma create_fold_result (g : Groups) acc (w0 w' : World X) created :
  for_fold g create_step acc w0 = (Ok created, w') ->
  created = acc ++ expected_records g /\
  (exists evs, trace w' = trace w0 ++ evs /\ create_enters evs = expected_records g) /\
  (forall k, is_Some (record_ids w0 !! k) -> is_Some (record_ids w' !! k)) /\
  (forall b s v, (b, s, v) ∈ expected_records g ->
     is_Some (record_ids w' !! (record_name_of s +:+ ":" +:+ v))).
Proof.
  revert acc w0. induction g as [|item g IH]; intros acc w0.
  - simpl. unfold ret. intros [= <- <-]. unfold expected_records. simpl.
    rewrite app_nil_r. split; [done|].
    split; [exists []; by rewrite app_nil_r|]. split; [done|].
    by intros b s v ?%elem_of_nil.
  - cbn [for_fold]. unfold bind at 1. unfold create_step at 1.
    destruct (for_fold (validations item.2) _ acc w0) as [[c1|e|] w1] eqn:Hstep;
      [|done|done].
    intros Hrest.
    destruct (create_step_result _ _ _ _ _ _ _ Hstep)
      as (-> & (evs1 & Htr1 & Hen1) & Hmono1 & Hkeys1).
    destruct (IH _ _ Hrest) as (-> & (evs2 & Htr2 & Hen2) & Hmono2 & Hkeys2).
    unfold expected_records in *. simpl. split; [by rewrite <- app_assoc|].
    split; [|split].
    + exists (evs1 ++ evs2). split; [rewrite Htr2, Htr1; by rewrite <- app_assoc|].
      unfold create_enters in *. by rewrite omap_app, Hen1, Hen2.
    + intros k Hk. by apply Hmono2, Hmono1.
    + intros b s v [Hin|Hin]%elem_of_app; [|eapply Hkeys2; exact Hin].
      apply list_elem_of_fmap in Hin as (v' & [= -> -> ->] & Hv').
      by apply Hmono2, Hkeys1.
Qed.

(** X16. When the create step succeeds, the list of created records is one
    entry per validation value, group by group in order;
    [create_txt_record] was entered with exactly these arguments in this
    order; and every created record has a handle in the table. *)
Theorem create_phase_creates_every_value (g : Groups) (w w' : World X) created :
  create_phase g w = (Ok created, w') ->
  created = expected_records g /\
  (exists evs, trace w' = trace w ++ evs /\ create_enters evs = expected_records g) /\
  (forall b s v, (b, s, v) ∈ created ->
     is_Some (record_ids w' !! (record_name_of s +:+ ":" +:+ v))).
Proof.
  unfold create_phase. intros Hrun.
  destruct (create_fold_result _ _ _ _ _ Hrun) as (-> & Hev & _ & Hkeys).
  simpl. split; [done|]. split; [done|]. exact Hkeys.
Qed.

(** X17. A failure while the records are being created leaves
    [request_certificate] at once: the exception of [create_txt_record] is
    what the caller gets, the run ends in the world where the creation
    failed, and [delete_txt_record] is never entered, so the records created
    before the failure stay. *)
Theorem create_failure_skips_teardown
    fuel domains order (g : Groups) cleaned e (w w1 w2 w3 w4 : World X) :
  client_new_order domains w = (Ok order, w1) ->
  collect_challenges (authorizations order) w1 = (Ok g, w2) ->
  cleanup_phase g w2 = (Ok cleaned, w3) ->
  create_phase g w3 = (Raise e, w4) ->
  request_certificate fuel domains w = (Raise e, w4) /\
  exists evs, trace w4 = trace w ++ evs /\
              Forall (fun ev => kind_of ev <> KDeleteEnter) evs.
Proof.
  intros Hno Hc Hcl Hcr. split.
  - unfold request_certificate, bind. by rewrite Hno, Hc, Hcl, Hcr.
  - pose proof (new_order_trace domains w) as T1. rewrite Hno in T1. simpl in T1.
    destruct (traced_run _ _ w1 (traced_collect (authorizations order)))
      as (r2 & w2' & evs2 & R2 & T2 & K2). rewrite Hc in R2. injection R2 as <- <-.
    destruct (traced_run _ _ w2 (traced_cleanup_phase g))
      as (r3 & w3' & evs3 & R3 & T3 & K3). rewrite Hcl in R3. injection R3 as <- <-.
    destruct (traced_run _ _ w3 (traced_create_phase g))
      as (r4 & w4' & evs4 & R4 & T4 & K4). rewrite Hcr in R4. injection R4 as <- <-.
    exists ([EvNewOrder domains] ++ evs2 ++ evs3 ++ evs4). split.
    + rewrite T4, T3, T2, T1. by rewrite <- !app_assoc.
    + apply Forall_app. split; [by repeat constructor|].
      apply Forall_app. split; [eapply of_kinds_exclude; [|exact K2]; done|].
      apply Forall_app. split; [eapply of_kinds_exclude; [|exact K3]; done|].
      eapply of_kinds_exclude; [|exact K4]; done.
Qed.

Lemma delete_call_trace domain subdomain value (w : World X) :
  exists w' inner,
    delete_txt_record domain subdomain value w = (Ok tt, w') /\
    trace w' = trace w ++ EvEnter (MDelete domain subdomain value) :: inner
                 ++ [EvLeave (MDelete domain subdomain value)] /\
    Forall (of_kinds [KDelete; KRefresh]) inner.
Proof.
  destruct (delete_never_raises domain subdomain value w) as [w' Hok].
  revert Hok. unfold delete_txt_record, method.
  match goal with
  | |- context [bind get_record_ids ?k] => set (body := bind get_record_ids k)
  end.
  assert (Hbody : traced (of_kinds [KDelete; KRefresh]) body).
  { subst body. unfold client_delete_record, client_post_refresh. traced_auto. }
  destruct (traced_run _ body
              (mkWorld (ext w) (record_ids w)
                 (trace w ++ [EvEnter (MDelete domain subdomain value)])) Hbody)
    as (r & w1 & inner & Hrun & Htr & Hin).
  rewrite Hrun. intros [= -> <-]. eexists _, inner.
  split; [reflexivity|]. split; [|done].
  simpl. rewrite Htr. trace_eq.
Qed.

(** X18. The clean-up loop is best effort and complete in its attempts:
    whatever the provider does, it returns normally and
    [delete_txt_record] is entered, and left, once for every created record,
    in the order of creation. *)
Theorem teardown_attempts_every_record created (w : World X) :
  exists w' evs,
    teardown created w = (Ok tt, w') /\
    trace w' = trace w ++ evs /\
    delete_enters evs = (fun '(b, s, v) => (b, s, Some v)) <$> created /\
    delete_leaves evs = delete_enters evs.
Proof.
  revert w. induction created as [|[[b s] v] created IH]; intros w.
  - exists w, []. simpl. by rewrite app_nil_r.
  - change (teardown ((b, s, v) :: created) w)
      with (bind (delete_txt_record b s (Some v)) (fun _ => teardown created) w).
    unfold bind.
    destruct (delete_call_trace b s (Some v) w) as (w1 & inner & -> & Htr1 & Hinner).
    destruct (IH w1) as (w' & evs & Hrun & Htr & Hen & Hlv).
    exists w', (EvEnter (MDelete b s (Some v)) :: inner
                  ++ [EvLeave (MDelete b s (Some v))] ++ evs).
    assert (He : delete_enters inner = []).
    { apply delete_enters_none. eapply of_kinds_exclude; [|exact Hinner]. done. }
    assert (Hl : delete_leaves inner = []).
    { apply delete_leaves_none. eapply of_kinds_exclude; [|exact Hinner]. done. }
    assert (HE : delete_enters
                   (EvEnter (MDelete b s (Some v)) :: inner
                      ++ [EvLeave (MDelete b s (Some v))] ++ evs)
                 = (b, s, Some v) :: delete_enters evs).
    { unfold delete_enters in *. simpl. rewrite omap_app, He. done. }
    assert (HL : delete_leaves
                   (EvEnter (MDelete b s (Some v)) :: inner
                      ++ [EvLeave (MDelete b s (Some v))] ++ evs)
                 = (b, s, Some v) :: delete_leaves evs).
    { unfold delete_leaves in *. simpl. rewrite omap_app, Hl. done. }
    split; [exact Hrun|]. split; [rewrite Htr, Htr1; trace_eq|].
    rewrite HE, HL, Hlv, Hen. done.
Qed.

End CreateAndTeardown.

(** ** Verification, answering and the two exits of polling *)

Section LaterSteps.

Context {X : Type} `{Collaborators X}.

Lemma verify_fold_false (g : Groups) (w : World X) :
  fst (for_fold g verify_step false w) = Ok false.
Proof.
  destruct (verify_fold_returns g false w) as (b & w' & Hrun). rewrite Hrun.
  destruct b; [|done]. by apply verify_fold_true in Hrun.
Qed.

(** X19. An error while listing the records of one group makes the
    verification report false, whatever the other groups show: the flag,
    once false, is never set back. *)
Theorem listing_error_clears_the_flag (pre post : Groups) item (w : World X) e x1 :
  ovh_get_records (_get_zone (base_domain item.2))
    (record_name_of (subdomain item.2)) (ext (snd (verify_phase pre w)))
    = (Throws e, x1) ->
  fst (verify_phase (pre ++ item :: post) w) = Ok false.
Proof.
  unfold verify_phase. intros Hlist.
  rewrite for_fold_app. unfold bind at 1.
  destruct (verify_fold_returns pre true w) as (b1 & wi & Hpre).
  rewrite Hpre in Hlist |- *. simpl in Hlist. cbn [for_fold]. unfold bind at 1.
  assert (Hstep : exists wi', verify_step b1 item wi = (Ok false, wi')).
  { unfold verify_step, try_except. unfold bind at 1.
    unfold client_get_records at 1, call. rewrite Hlist. simpl.
    unfold bind, print, emit, ret. simpl. eauto. }
  destruct Hstep as [wi' ->]. apply verify_fold_false.
Qed.

(** X20. An order without authorizations needs no DNS work: after the
    order is created, [request_certificate] prints that all records are
    confirmed, waits the propagation time and calls finalization with a
    deadline 90 seconds later; no provider call, no answer and no poll is
    made, and the outcome is that of the finalization. *)
Theorem empty_order_goes_straight_to_finalization
    fuel domains order (w w1 : World X) :
  client_new_order domains w = (Ok order, w1) ->
  authorizations order = [] ->
  request_certificate fuel domains w =
    client_poll_and_finalize order
      (clock (time_sleep (seconds DNS_PROPAGATION_WAIT) (ext w1)) + seconds 90)
      (mkWorld (time_sleep (seconds DNS_PROPAGATION_WAIT) (ext w1)) (record_ids w1)
         (trace w1 ++ [EvPrint LineAllConfirmed;
                       EvSleep (seconds DNS_PROPAGATION_WAIT)])).
Proof.
  intros Hno Hempty. unfold request_certificate, bind. rewrite Hno, Hempty.
  simpl. unfold ret. simpl.
  unfold after_verification, answer_and_poll, after_answer, poll_step, finish,
    try_except, bind, print, emit, sleep_for, public_check, answer_phase,
    poll_phase, teardown, time_time, ret.
  simpl. by rewrite <- app_assoc.
Qed.

(** X21. Both exits of the polling step pass through the clean-up.  When
    polling succeeds, the records are deleted first and then the order is
    finalized, with a deadline of 90 seconds from then; when polling raises,
    the records are deleted and the same exception leaves.  With a provider
    whose deletions and refreshes go through, no handle of a created record
    (of non-empty value) is left in the table at that point. *)
Theorem teardown_on_both_exits_of_polling fuel order (g : Groups) created (w : World X) :
  (forall last w1,
     poll_phase fuel g w = (Ok last, w1) ->
     exists w2,
       teardown created w1 = (Ok tt, w2) /\
       after_answer fuel order g created w
         = client_poll_and_finalize order (clock (ext w2) + seconds 90) w2) /\
  (forall e w1,
     poll_phase fuel g w = (Raise e, w1) ->
     exists w2,
       teardown created w1 = (Ok tt, w2) /\
       after_answer fuel order g created w = (Raise e, w2)) /\
  ((forall zone i x, fst (ovh_delete_record zone i x) = Returns tt) ->
   (forall zone x, fst (ovh_post_refresh zone x) = Returns tt) ->
   forall w1 b s v, (b, s, v) ∈ created -> PyStr.truthy v = true ->
     record_ids (snd (teardown created w1))
       !! (record_name_of s +:+ ":" +:+ v) = None).
Proof.
  split; [|split].
  - intros last w1 Hpoll. destruct (teardown_never_raises created w1) as [w2 Htd].
    exists w2. split; [done|].
    unfold after_answer, poll_step, finish, try_except, bind.
    rewrite Hpoll. unfold ret at 1. rewrite Htd. done.
  - intros e w1 Hpoll.
    destruct (poll_step_reraises fuel g created w e w1 Hpoll) as (w2 & Htd & Hstep).
    exists w2. split; [done|]. unfold after_answer, bind. by rewrite Hstep.
  - intros Hdel Href w1 b s v Hin Hv. by eapply teardown_clears.
Qed.

(** X22. The answering step answers the challenges one by one, group by
    group and member by member.  When every answer is accepted, every
    challenge was answered exactly once, in that order, and the step returns.
    At the first answer that the ACME client rejects the step stops and
    raises that very error: the challenges before it were answered, the
    rejected one was tried, and none after it is touched.  One of the two
    always applies. *)
Theorem answer_phase_answers_in_order (g : Groups) (w : World X) :
  (forall x',
     all_return (fun ci => acme_answer_challenge (ci_challenge ci))
       (all_challenges g) (ext w) = Some x' ->
     answer_phase g w =
       (Ok tt, mkWorld x' (record_ids w)
                 (trace w ++ ((fun ci => EvAnswer (ci_challenge ci))
                                <$> all_challenges g)))) /\
  (forall pre ci post x1 e x2,
     all_challenges g = pre ++ ci :: post ->
     all_return (fun ci => acme_answer_challenge (ci_challenge ci)) pre (ext w)
       = Some x1 ->
     acme_answer_challenge (ci_challenge ci) x1 = (Throws e, x2) ->
     answer_phase g w =
       (Raise (External e),
        mkWorld x2 (record_ids w)
          (trace w ++ ((fun ci => EvAnswer (ci_challenge ci)) <$> pre ++ [ci])))) /\
  ((exists x',
      all_return (fun ci => acme_answer_challenge (ci_challenge ci))
        (all_challenges g) (ext w) = Some x') \/
   (exists pre ci post x1 e x2,
      all_challenges g = pre ++ ci :: post /\
      all_return (fun ci => acme_answer_challenge (ci_challenge ci)) pre (ext w)
        = Some x1 /\
      acme_answer_challenge (ci_challenge ci) x1 = (Throws e, x2))).
Proof.
  unfold answer_phase, client_answer_challenge. split; [|split].
  - intros x' Hall.
    exact (for_each_calls_return
             (fun ci => acme_answer_challenge (ci_challenge ci))
             (fun ci => EvAnswer (ci_challenge ci)) _ w x' Hall).
  - intros pre ci post x1 e x2 -> Hall Hthrow.
    exact (for_each_calls_stop
             (fun ci => acme_answer_challenge (ci_challenge ci))
             (fun ci => EvAnswer (ci_challenge ci)) pre ci post w x1 e x2
             Hall Hthrow).
  - generalize (all_challenges g) (ext w). intros cs.
    induction cs as [|ci cs IH]; intros x; [left; by eexists|].
    cbn [all_return].
    destruct (acme_answer_challenge (ci_challenge ci) x) as [[[]|e] x1] eqn:Hans.
    + destruct (IH x1) as [?|(pre & ci' & post & x2 & e & x3 & -> & Hall & Hthrow)];
        [by left|].
      right. exists (ci :: pre), ci', post, x2, e, x3. split; [done|].
      cbn [all_return]. by rewrite Hans.
    + right. exists [], ci, cs, x, e, x1. by repeat split.
Qed.

(** X23. The public DNS check is a diagnostic only: it always returns
    normally, never changes the handle table, and makes exactly one resolver
    query per challenge, for the name [_acme-challenge.] followed by the
    domain as the order names it. *)
Theorem public_check_is_diagnostic (g : Groups) (w : World X) :
  exists w',
    public_check g w = (Ok tt, w') /\
    record_ids w' = record_ids w /\
    trace w' = trace w ++
      ((fun ci => EvResolve ("_acme-challenge." +:+ ci_domain_name ci))
         <$> all_challenges g).
Proof.
  destruct (public_check_trace g w) as (w' & Hrun & Htr).
  exists w'. split; [done|]. split; [|done].
  assert (Hk : keeps_table (public_check g : M X unit)).
  { unfold public_check, resolver_resolve. keeps_auto. }
  specialize (Hk w). by rewrite Hrun in Hk.
Qed.

End LaterSteps.

(** ** The stand-alone clean-up script *)

Section ScriptProofs.

Context {X : Type} `{Collaborators X}.

Lemma traced_script_body zone :
  traced (concerns zone "_acme-challenge") (cleanup_script_body zone : M X unit).
Proof.
  unfold cleanup_script_body, client_get_records, client_get_record,
    client_delete_record, client_post_refresh.
  apply traced_try_except; [|intros; apply traced_raise].
  apply traced_bind; [by apply traced_call|]. intros ids.
  destruct ids as [|i ids]; [apply traced_ret|].
  apply traced_bind; [|intros; by apply traced_call].
  apply traced_for_each. intros j.
  apply traced_bind; [by apply traced_call|]. intros; by apply traced_call.
Qed.

(** X24. The script works on one record name of one zone only: every
    provider call it makes concerns the name [_acme-challenge] in the zone of
    the first configured domain, which is the zone [request_certificate]
    uses for that domain.  The other configured domains, and challenge
    records of subdomains, are never looked at. *)
Theorem script_touches_only_first_zone first rest (w : World X) :
  script_zone first = (resolve first).1 /\
  cleanup_acme_records (first :: rest) w = cleanup_acme_records [first] w /\
  exists evs,
    trace (snd (cleanup_acme_records (first :: rest) w)) = trace w ++ evs /\
    Forall (concerns (resolve first).1 "_acme-challenge") evs.
Proof.
  split; [reflexivity|]. split; [reflexivity|].
  unfold cleanup_acme_records.
  destruct (traced_run _ _ w (traced_script_body (script_zone first)))
    as (r & w' & evs & Hrun & Htr & Hev).
  rewrite Hrun. simpl. exists evs. split; [done|]. exact Hev.
Qed.

Lemma script_loop_return zone ids (w : World X) x' :
  all_return (read_then_delete zone) ids (ext w) = Some x' ->
  for_each ids
    (fun record_id =>
       record <- client_get_record zone record_id ;;
       client_delete_record zone record_id)%py w
  = (Ok tt, mkWorld x' (record_ids w) (trace w ++ read_and_delete zone ids)).
Proof.
  revert w. induction ids as [|i ids IH]; intros w.
  - simpl. intros [= <-]. rewrite app_nil_r. by destruct w.
  - cbn [for_each all_return]. unfold read_then_delete at 1.
    unfold bind at 1. unfold bind at 1. unfold client_get_record at 1, call at 1.
    destruct (ovh_get_record zone i (ext w)) as [[d|e] x1]; [|done]. simpl.
    unfold client_delete_record at 1, call at 1. simpl.
    destruct (ovh_delete_record zone i x1) as [[[]|e] x2]; [|done]. intros Hrest.
    match goal with
    | |- for_each ids ?body ?w1 = _ => rewrite (IH w1 Hrest)
    end.
    simpl. by rewrite <- !app_assoc.
Qed.

Lemma script_loop_stop zone pre i post (w : World X) x2 :
  all_return (read_then_delete zone) pre (ext w) = Some x2 ->
  for_each (pre ++ i :: post)
    (fun record_id =>
       record <- client_get_record zone record_id ;;
       client_delete_record zone record_id)%py w
  = match ovh_get_record zone i x2 with
    | (Throws e, x3) =>
        (Raise (External e),
         mkWorld x3 (record_ids w)
           (trace w ++ read_and_delete zone pre ++ [EvOvhGet zone i]))
    | (Returns _, x3) =>
        match ovh_delete_record zone i x3 with
        | (Throws e, x4) =>
            (Raise (External e),
             mkWorld x4 (record_ids w)
               (trace w ++ read_and_delete zone pre
                  ++ [EvOvhGet zone i; EvOvhDelete zone i]))
        | (Returns _, x4) =>
            for_each post
              (fun record_id =>
                 record <- client_get_record zone record_id ;;
                 client_delete_record zone record_id)%py
              (mkWorld x4 (record_ids w)
                 (trace w ++ read_and_delete zone pre
                    ++ [EvOvhGet zone i; EvOvhDelete zone i]))
        end
    end.
Proof.
  revert w. induction pre as [|j pre IH]; intros w.
  - simpl. intros [= <-]. unfold bind at 1. unfold bind at 1.
    unfold client_get_record at 1, call at 1.
    destruct (ovh_get_record zone i (ext w)) as [[d|e] x1]; [|done]. simpl.
    unfold client_delete_record at 1, call at 1. simpl.
    destruct (ovh_delete_record zone i x1) as [[[]|e] x3]; simpl;
      by rewrite <- ?app_assoc.
  - cbn [for_each all_return app]. unfold read_then_delete at 1.
    unfold bind at 1. unfold bind at 1. unfold client_get_record at 1, call at 1.
    destruct (ovh_get_record zone j (ext w)) as [[d|e] x1]; [|done]. simpl.
    unfold client_delete_record at 1, call at 1. simpl.
    destruct (ovh_delete_record zone j x1) as [[[]|e] x3]; [|done]. intros Hrest.
    match goal with
    | |- for_each _ ?body ?w1 = _ => rewrite (IH w1 Hrest)
    end.
    simpl.
    destruct (ovh_get_record zone i x2) as [[d'|e'] x4].
    + destruct (ovh_delete_record zone i x4) as [[[]|e'] x5];
        by rewrite <- ?app_assoc.
    + by rewrite <- ?app_assoc.
Qed.

(** X25. How the script ends.  With no domain configured it ends with an
    [IndexError] before any call.  Unlike the handler's clean-up it lets
    every provider error through, and it stops at the first one: when the
    listing raises, after this one call; when reading or deleting a listed
    record raises, right there, with the records before it read and deleted
    and those after it untouched, and without a zone refresh; when the
    refresh raises, after it.  For an empty listing it ends normally
    without another call.  Otherwise, when no call raises, it has read and
    then deleted every listed record, in order, and then asked once for a
    zone refresh. *)
Theorem script_ends_with_error_or_all_deleted first rest (w : World X) :
  cleanup_acme_records [] w = (ScriptIndexError, w) /\
  (forall e x1,
     ovh_get_records (script_zone first) "_acme-challenge" (ext w) = (Throws e, x1) ->
     cleanup_acme_records (first :: rest) w =
       (ScriptDone (Raise (External e)),
        mkWorld x1 (record_ids w)
          (trace w ++ [EvOvhList (script_zone first) "_acme-challenge"]))) /\
  (forall x1,
     ovh_get_records (script_zone first) "_acme-challenge" (ext w)
       = (Returns [], x1) ->
     cleanup_acme_records (first :: rest) w =
       (ScriptDone (Ok tt),
        mkWorld x1 (record_ids w)
          (trace w ++ [EvOvhList (script_zone first) "_acme-challenge"]))) /\
  (forall ids x1 x2,
     ovh_get_records (script_zone first) "_acme-challenge" (ext w)
       = (Returns ids, x1) ->
     ids <> [] ->
     all_return (read_then_delete (script_zone first)) ids x1 = Some x2 ->
     cleanup_acme_records (first :: rest) w =
       (ScriptDone
          (match fst (ovh_post_refresh (script_zone first) x2) with
           | Returns _ => Ok tt
           | Throws e => Raise (External e)
           end),
        mkWorld (snd (ovh_post_refresh (script_zone first) x2)) (record_ids w)
          (trace w ++
             EvOvhList (script_zone first) "_acme-challenge"
             :: read_and_delete (script_zone first) ids
             ++ [EvOvhRefresh (script_zone first)]))) /\
  (forall ids x1 pre i post x2 e x3,
     ovh_get_records (script_zone first) "_acme-challenge" (ext w)
       = (Returns ids, x1) ->
     ids = pre ++ i :: post ->
     all_return (read_then_delete (script_zone first)) pre x1 = Some x2 ->
     (ovh_get_record (script_zone first) i x2 = (Throws e, x3) ->
      cleanup_acme_records (first :: rest) w =
        (ScriptDone (Raise (External e)),
         mkWorld x3 (record_ids w)
           (trace w ++
              EvOvhList (script_zone first) "_acme-challenge"
              :: read_and_delete (script_zone first) pre
              ++ [EvOvhGet (script_zone first) i]))) /\
     (forall d x2',
        ovh_get_record (script_zone first) i x2 = (Returns d, x2') ->
        ovh_delete_record (script_zone first) i x2' = (Throws e, x3) ->
        cleanup_acme_records (first :: rest) w =
          (ScriptDone (Raise (External e)),
           mkWorld x3 (record_ids w)
             (trace w ++
                EvOvhList (script_zone first) "_acme-challenge"
                :: read_and_delete (script_zone first) pre
                ++ [EvOvhGet (script_zone first) i;
                    EvOvhDelete (script_zone first) i])))).
Proof.
  split; [done|]. split.
  { intros e x1 Hlist.
    unfold cleanup_acme_records, cleanup_script_body, try_except, bind,
      client_get_records, call, raise.
    by rewrite Hlist. }
  split.
  { intros x1 Hlist.
    unfold cleanup_acme_records, cleanup_script_body, try_except, bind,
      client_get_records, call, ret.
    by rewrite Hlist. }
  split.
  - intros ids x1 x2 Hlist Hne Hall.
    unfold cleanup_acme_records, cleanup_script_body, try_except.
    unfold bind at 1. unfold client_get_records at 1, call at 1.
    rewrite Hlist. simpl.
    destruct ids as [|i0 ids0]; [done|]. revert Hall.
    generalize (i0 :: ids0). clear Hlist Hne. intros ids Hall.
    unfold bind at 1.
    match goal with
    | |- context [for_each ids ?body ?w1] =>
        rewrite (script_loop_return (script_zone first) ids w1 x2 Hall)
    end.
    unfold client_post_refresh, call. simpl.
    destruct (ovh_post_refresh (script_zone first) x2) as [[[]|e] x3]; simpl;
      unfold raise; simpl; by rewrite <- ?app_assoc.
  - intros ids x1 pre i post x2 e x3 Hlist -> Hall.
    assert (Hrun : forall r w2,
      for_each (pre ++ i :: post)
        (fun record_id =>
           record <- client_get_record (script_zone first) record_id ;;
           client_delete_record (script_zone first) record_id)%py
        (mkWorld x1 (record_ids w)
           (trace w ++ [EvOvhList (script_zone first) "_acme-challenge"]))
        = (Raise r, w2) ->
      cleanup_acme_records (first :: rest) w = (ScriptDone (Raise r), w2)).
    { intros r w2 Hloop.
      unfold cleanup_acme_records, cleanup_script_body, try_except.
      unfold bind at 1. unfold client_get_records at 1, call at 1.
      rewrite Hlist. simpl.
      destruct (pre ++ i :: post) as [|j l] eqn:Hshape; [by destruct pre|].
      unfold bind at 1. rewrite Hloop. done. }
    pose proof (script_loop_stop (script_zone first) pre i post
                  (mkWorld x1 (record_ids w)
                     (trace w ++ [EvOvhList (script_zone first) "_acme-challenge"]))
                  x2 Hall) as Hstop.
    split.
    + intros Hthrow. apply Hrun. rewrite Hstop, Hthrow. simpl.
      by rewrite <- ?app_assoc.
    + intros d x2' Hread Hthrow. apply Hrun. rewrite Hstop, Hread, Hthrow. simpl.
      by rewrite <- ?app_assoc.
Qed.

End ScriptProofs.

(** ** Quotes around a TXT value *)

Lemma rstrip_appended c v :
  has_char c v = false ->
  PyStr.rstrip c (v +:+ String c EmptyString) = v.
Proof.
  induction v as [|a v IH].
  - intros _. rewrite string_app_empty_l. simpl. by rewrite decide_True.
  - simpl. case_decide as Ha; [done|]. intros Hv.
    rewrite IH by done. by destruct v.
Qed.

Lemma rstrip_without c v : has_char c v = false -> PyStr.rstrip c v = v.
Proof.
  induction v as [|a v IH]; [done|]. simpl. case_decide as Ha; [done|].
  intros Hv. rewrite IH by done. by destruct v.
Qed.

Lemma lstrip_without c v : has_char c v = false -> PyStr.lstrip c v = v.
Proof.
  destruct v as [|a v]; [done|]. simpl. by case_decide.
Qed.

(** X26. Stripping the quotes recovers a validation value.  For a value
    without quote characters, the target that the provider reports compares
    equal to it whether the provider wraps it in quotes or not; a record
    without a target reads as the empty string. *)
Theorem clean_target_recovers_value v :
  has_char dquote v = false ->
  clean_target_of (Some (String dquote (v +:+ String dquote EmptyString))) = v /\
  clean_target_of (Some v) = v /\
  clean_target_of None = EmptyString.
Proof.
  intros Hv. unfold clean_target_of, PyStr.strip. simpl default.
  split; [|split].
  - cbn [PyStr.lstrip]. rewrite decide_True by done.
    destruct v as [|a v]; [reflexivity|].
    rewrite string_app_cons. cbn [PyStr.lstrip].
    simpl in Hv. destruct (decide (a = dquote)) as [|Ha]; [done|].
    rewrite <- string_app_cons. apply rstrip_appended. simpl.
    by rewrite decide_False.
  - by rewrite lstrip_without, rstrip_without.
  - reflexivity.
Qed.

(** ** The statements on concrete runs *)

Lemma collect_challenges_partitions_witness :
  NoDup demo_groups.*1 /\
  length (challenge_infos (authorizations demo_order)) = 2%nat /\
  (forall k info, (k, info) ∈ demo_groups ->
     challenges info = located_at k (challenge_infos (authorizations demo_order))).
Proof.
  destruct (collect_challenges_partitions (X := Sim.State)
              (authorizations demo_order) (demo_world [] []) (demo_world [] [])
              demo_groups)
    as (_ & Hnd & Hlen & _ & Hgroups).
  - vm_compute. reflexivity.
  - split; [exact Hnd|]. split; [exact Hlen|].
    intros k info Hin. exact (proj1 (proj2 (Hgroups k info Hin))).
Defined.

Lemma apex_and_wildcard_share_a_group_witness :
  collect_challenges [Sim.authz_for "a.com"; Sim.authz_for ("*." +:+ "a.com")]
    (demo_world [] []) =
    (Ok [(resolve "a.com",
          {| base_domain := (resolve "a.com").1;
             subdomain := (resolve "a.com").2;
             validations := ["v-a.com"; "v-*.a.com"];
             challenges :=
               [ {| ci_challenge := ci_challenge (demo_ci "a.com");
                    ci_authz := Sim.authz_for "a.com"; ci_domain_name := "a.com" |};
                 {| ci_challenge := ci_challenge (demo_ci "*.a.com");
                    ci_authz := Sim.authz_for ("*." +:+ "a.com");
                    ci_domain_name := "*." +:+ "a.com" |} ] |})],
     demo_world [] []).
Proof.
  apply (apex_and_wildcard_share_a_group (X := Sim.State) "a.com"
           (Sim.authz_for "a.com") (Sim.authz_for ("*." +:+ "a.com"))
           (ci_challenge (demo_ci "a.com")) (ci_challenge (demo_ci "*.a.com"))
           (demo_world [] [])); reflexivity.
Defined.

Lemma missing_dns01_stops_before_dns_witness :
  request_certificate 19 ["a.com"] HttpOnly.start =
    (Raise NoDns01Challenge, mkWorld tt ∅ [EvNewOrder ["a.com"]]).
Proof.
  apply (missing_dns01_stops_before_dns (X := unit) 19 ["a.com"]
           HttpOnly.order HttpOnly.authz HttpOnly.start).
  - reflexivity.
  - left.
  - reflexivity.
Defined.

Lemma create_then_delete_round_trip_witness :
  exists w2,
    delete_txt_record "a.com" "" (Some "v-a.com") (one_record_world [])
      = (Ok tt, w2) /\
    record_ids w2 = record_ids (demo_world [] []).
Proof.
  destruct (create_then_delete_round_trip (X := Sim.State) "a.com" "" "v-a.com"
              (demo_world [] []) (one_record_world []) 1
              (snd (Sim.delete_record "a.com" 1 (ext (one_record_world []))))
              (snd (Sim.delete_record "a.com" 1 (ext (one_record_world [])))))
    as (w2 & Hrun & _ & Hfresh & _).
  - reflexivity.
  - vm_compute. reflexivity.
  - vm_compute. reflexivity.
  - vm_compute. reflexivity.
  - exists w2. split; [exact Hrun|]. apply Hfresh. reflexivity.
Defined.

Lemma delete_txt_record_failure_keeps_handle_witness :
  record_ids
    (snd (delete_txt_record "a.com" "" (Some "v-a.com")
            (one_record_world [Sim.FailDelete])))
  = record_ids (one_record_world [Sim.FailDelete]).
Proof.
  destruct (delete_txt_record_failure_keeps_handle (X := Sim.State)
              "a.com" "" (Some "v-a.com") (one_record_world [Sim.FailDelete]) 1)
    as [Hdel _].
  - vm_compute. reflexivity.
  - rewrite (Hdel (ProviderError "delete")
               (ext (one_record_world [Sim.FailDelete]))); reflexivity.
Defined.

Lemma empty_value_handle_is_not_deleted_witness :
  record_ids
    (snd (delete_txt_record "a.com" "" (Some "")
            (snd (create_txt_record "a.com" "" "" (demo_world [] [])))))
    !! "_acme-challenge:" = Some 1.
Proof.
  destruct (empty_value_handle_is_not_deleted (X := Sim.State) "a.com" ""
              (demo_world [] [])
              (snd (create_txt_record "a.com" "" "" (demo_world [] []))) 1)
    as [Hrun Hkey].
  - vm_compute. reflexivity.
  - reflexivity.
  - rewrite Hrun. exact Hkey.
Defined.

Lemma cleanup_refreshes_only_after_deleting_all_witness :
  trace (snd (cleanup_old_challenge_records "a.com" "" dup_world)) =
    [EvEnter (MCleanup "a.com" "");
     EvOvhList "a.com" "_acme-challenge";
     EvOvhDelete "a.com" 1; EvOvhDelete "a.com" 2;
     EvOvhRefresh "a.com";
     EvLeave (MCleanup "a.com" "")].
Proof.
  destruct (cleanup_refreshes_only_after_deleting_all (X := Sim.State) "a.com" ""
              dup_world [1; 2] (ext dup_world)) as (_ & Hall & _).
  - vm_compute. reflexivity.
  - destruct (all_return (ovh_delete_record (_get_zone "a.com")) [1; 2]
                (ext dup_world)) as [x2|] eqn:Hx; [|vm_compute in Hx; discriminate].
    rewrite (Hall x2 ltac:(done) eq_refl). reflexivity.
Defined.

Lemma create_phase_creates_every_value_witness :
  demo_created = expected_records demo_groups /\
  (forall b s v, (b, s, v) ∈ demo_created ->
     is_Some (record_ids (demo_created_world [] [])
                !! (record_name_of s +:+ ":" +:+ v))).
Proof.
  destruct (create_phase_creates_every_value (X := Sim.State) demo_groups
              (demo_world [] []) (demo_created_world [] []) demo_created)
    as (Hcreated & _ & Hkeys).
  - vm_compute. reflexivity.
  - split; [exact Hcreated | exact Hkeys].
Defined.

Lemma create_failure_skips_teardown_witness :
  fst (request_certificate 19 demo_domains (demo_world [Sim.FailCreate] []))
    = Raise (External (ProviderError "create")).
Proof.
  destruct (create_failure_skips_teardown (X := Sim.State) 19 demo_domains
              demo_order demo_groups
              {[("a.com", EmptyString)]}
              (External (ProviderError "create"))
              (demo_world [Sim.FailCreate] [])
              (snd (client_new_order demo_domains (demo_world [Sim.FailCreate] [])))
              (snd (client_new_order demo_domains (demo_world [Sim.FailCreate] [])))
              (snd (cleanup_phase demo_groups
                      (snd (client_new_order demo_domains
                              (demo_world [Sim.FailCreate] [])))))
              (snd (create_phase demo_groups
                      (snd (cleanup_phase demo_groups
                              (snd (client_new_order demo_domains
                                      (demo_world [Sim.FailCreate] []))))))))
    as [Hrun _].
  - reflexivity.
  - vm_compute. reflexivity.
  - vm_compute. reflexivity.
  - vm_compute. reflexivity.
  - rewrite Hrun. reflexivity.
Defined.

Lemma listing_error_clears_the_flag_witness :
  fst (verify_phase ([] ++ dup_item :: []) (demo_world [Sim.FailList] []))
    = Ok false.
Proof.
  apply (listing_error_clears_the_flag (X := Sim.State) [] [] dup_item
           (demo_world [Sim.FailList] []) (ProviderError "list")
           (Sim.init [Sim.FailList] [])).
  reflexivity.
Defined.

Lemma empty_order_goes_straight_to_finalization_witness :
  fst (request_certificate 0 [] (demo_world [] []))
    = Ok {| order_uri := "order/1"; authorizations := []; fullchain_pem := "PEM" |}.
Proof.
  rewrite (empty_order_goes_straight_to_finalization (X := Sim.State) 0 []
             {| order_uri := "order/1"; authorizations := [];
                fullchain_pem := EmptyString |}
             (demo_world [] [])
             (snd (client_new_order [] (demo_world [] [])))).
  - reflexivity.
  - reflexivity.
  - reflexivity.
Defined.

Lemma answer_phase_answers_in_order_witness :
  fst (answer_phase demo_groups (demo_world [Sim.FailAnswer] []))
    = Raise (External (AcmeError "answer")) /\
  trace (snd (answer_phase demo_groups (demo_world [Sim.FailAnswer] [])))
    = [EvAnswer (ci_challenge (demo_ci "a.com"))].
Proof.
  destruct (answer_phase_answers_in_order (X := Sim.State) demo_groups
              (demo_world [Sim.FailAnswer] [])) as (_ & Hstop & _).
  rewrite (Hstop [] (demo_ci "a.com") [demo_ci "*.a.com"]
             (Sim.init [Sim.FailAnswer] []) (AcmeError "answer")
             (Sim.init [Sim.FailAnswer] [])); [by split| | |];
    vm_compute; reflexivity.
Defined.

Lemma script_ends_with_error_or_all_deleted_witness :
  fst (cleanup_acme_records ["*.a.com"; "b.org"] dup_world) = ScriptDone (Ok tt) /\
  trace (snd (cleanup_acme_records ["*.a.com"; "b.org"] dup_world)) =
    [EvOvhList "a.com" "_acme-challenge";
     EvOvhGet "a.com" 1; EvOvhDelete "a.com" 1;
     EvOvhGet "a.com" 2; EvOvhDelete "a.com" 2;
     EvOvhRefresh "a.com"].
Proof.
  destruct (script_ends_with_error_or_all_deleted (X := Sim.State)
              "*.a.com" ["b.org"] dup_world) as (_ & _ & _ & Hall & _).
  destruct (all_return (read_then_delete (script_zone "*.a.com")) [1; 2]
              (ext dup_world)) as [x2|] eqn:Hx; [|vm_compute in Hx; discriminate].
  rewrite (Hall [1; 2] (ext dup_world) x2);
    [|vm_compute; reflexivity|done|exact Hx].
  injection Hx as <-. split; vm_compute; reflexivity.
Defined.

Lemma clean_target_recovers_value_witness :
  clean_target_of (Some (String dquote ("abc" +:+ String dquote EmptyString))) = "abc" /\
  clean_target_of (Some "abc") = "abc" /\
  clean_target_of None = EmptyString.
Proof. apply (clean_target_recovers_value "abc"). reflexivity. Defined.

(** ** A run in which nothing fails *)

Section Cooperative.

Context {X : Type} `{Collaborators X}.

Hypothesis post_returns :
  forall zone name value ttl x,
    exists i, fst (ovh_post_record zone name value ttl x) = Returns (Some i).
Hypothesis refresh_returns :
  forall zone x, fst (ovh_post_refresh zone x) = Returns tt.
Hypothesis delete_returns :
  forall zone i x, fst (ovh_delete_record zone i x) = Returns tt.
Hypothesis answer_returns :
  forall c x, fst (acme_answer_challenge c x) = Returns tt.
Hypothesis poll_valid :
  forall a x, fst (acme_poll a x) = Returns STATUS_VALID.
Hypothesis finalize_returns :
  forall o d x, exists o', fst (acme_poll_and_finalize o d x) = Returns o'.

Lemma create_returns domain subdomain value (w : World X) :
  exists i w', create_txt_record domain subdomain value w = (Ok i, w').
Proof using post_returns refresh_returns.
  unfold create_txt_record, method, try_except, bind, client_post_record,
    client_post_refresh, call, get_record_ids, set_record_ids, ret. simpl.
  destruct (post_returns (_get_zone domain) (record_name_of subdomain) value 60 (ext w))
    as [i Hp].
  destruct (ovh_post_record _ _ _ _ (ext w)) as [r x1]. simpl in Hp. subst r. simpl.
  pose proof (refresh_returns (_get_zone domain) x1) as Hr.
  destruct (ovh_post_refresh _ x1) as [r x2]. simpl in Hr. subst r. simpl.
  eauto.
Qed.

Lemma create_fold_returns (g : Groups) acc (w : World X) :
  exists created w', for_fold g create_step acc w = (Ok created, w').
Proof using post_returns refresh_returns.
  revert acc w. induction g as [|item g IH]; intros acc w.
  - simpl. by eexists _, _.
  - cbn [for_fold]. unfold bind at 1. unfold create_step at 1.
    assert (Hinner : forall vals acc0 (w0 : World X),
      exists c w', for_fold vals
        (fun created validation =>
           create_txt_record (base_domain item.2) (subdomain item.2) validation ;;
           ret (created ++ [(base_domain item.2, subdomain item.2, validation)]))%py
        acc0 w0 = (Ok c, w')).
    { induction vals as [|v vals IHv]; intros acc0 w0.
      - simpl. by eexists _, _.
      - cbn [for_fold]. unfold bind at 1. unfold bind at 1.
        destruct (create_returns (base_domain item.2) (subdomain item.2) v w0)
          as (i & w1 & ->).
        unfold ret at 1. apply IHv. }
    destruct (Hinner (validations item.2) acc w) as (c & w1 & ->). apply IH.
Qed.

Lemma answer_phase_run (g : Groups) (w : World X) :
  exists w',
    answer_phase g w = (Ok tt, w') /\
    trace w' = trace w ++
      ((fun ci => EvAnswer (ci_challenge ci)) <$> all_challenges g).
Proof using answer_returns.
  unfold answer_phase. generalize (all_challenges g). intros cs. revert w.
  induction cs as [|ci cs IH]; intros w.
  - exists w. simpl. by rewrite app_nil_r.
  - cbn [for_each]. unfold bind at 1. unfold client_answer_challenge at 1, call.
    pose proof (answer_returns (ci_challenge ci) (ext w)) as Ha.
    destruct (acme_answer_challenge _ (ext w)) as [r x1]. simpl in Ha. subst r.
    destruct (IH (mkWorld x1 (record_ids w) (trace w ++ [EvAnswer (ci_challenge ci)])))
      as (w' & Hrun & Htr).
    exists w'. split; [exact Hrun|]. rewrite Htr. simpl. by rewrite <- app_assoc.
Qed.

Lemma poll_domain_valid fuel last ci (w : World X) :
  (1 <= fuel)%nat ->
  exists w',
    poll_domain fuel last ci w = (Ok (Some STATUS_VALID), w') /\
    trace w' = trace w ++ [EvPoll (ci_authz ci) (Returns STATUS_VALID)].
Proof using poll_valid.
  intros Hfuel. destruct fuel as [|fuel]; [lia|].
  unfold poll_domain. cbn [poll_loop]. unfold bind, time_time.
  rewrite decide_True by (unfold seconds; lia).
  unfold client_poll, call.
  pose proof (poll_valid (ci_authz ci) (ext w)) as Hp.
  destruct (acme_poll _ (ext w)) as [r x1]. simpl in Hp. subst r. simpl.
  unfold ret. simpl. eauto.
Qed.

Lemma poll_phase_run fuel (g : Groups) (w : World X) :
  (1 <= fuel)%nat ->
  exists last w',
    poll_phase fuel g w = (Ok last, w') /\
    trace w' = trace w ++
      ((fun ci => EvPoll (ci_authz ci) (Returns STATUS_VALID)) <$> all_challenges g).
Proof using poll_valid.
  intros Hfuel. unfold poll_phase. generalize (all_challenges g) (@None Status).
  intros cs. revert w. induction cs as [|ci cs IH]; intros w last.
  - exists last, w. simpl. by rewrite app_nil_r.
  - cbn [for_fold]. unfold bind at 1.
    destruct (poll_domain_valid fuel last ci w Hfuel) as (w1 & -> & Htr1).
    destruct (IH w1 (Some STATUS_VALID)) as (last' & w' & Hrun & Htr).
    exists last', w'. split; [exact Hrun|]. rewrite Htr, Htr1. simpl.
    by rewrite <- app_assoc.
Qed.

Lemma teardown_enters created (w : World X) :
  exists w' evs,
    teardown created w = (Ok tt, w') /\
    trace w' = trace w ++ evs /\
    Forall (of_kinds delete_kinds) evs /\
    delete_enters evs = (fun '(b, s, v) => (b, s, Some v)) <$> created.
Proof.
  revert w. induction created as [|[[b s] v] created IH]; intros w.
  - exists w, []. simpl. rewrite app_nil_r. by repeat split.
  - change (teardown ((b, s, v) :: created) w)
      with (bind (delete_txt_record b s (Some v)) (fun _ => teardown created) w).
    unfold bind.
    destruct (delete_call_trace b s (Some v) w) as (w1 & inner & -> & Htr1 & Hinner).
    destruct (IH w1) as (w' & evs & Hrun & Htr & Hk & Hen).
    exists w', (EvEnter (MDelete b s (Some v)) :: inner
                  ++ [EvLeave (MDelete b s (Some v))] ++ evs).
    split; [exact Hrun|]. split; [rewrite Htr, Htr1; trace_eq|]. split.
    + constructor; [done|]. apply Forall_app. split.
      * eapply Forall_impl; [exact Hinner|]. by apply of_kinds_mono.
      * constructor; [done|]. exact Hk.
    + assert (He : delete_enters inner = []).
      { apply delete_enters_none. eapply of_kinds_exclude; [|exact Hinner]. done. }
      assert (HE : delete_enters
                     (EvEnter (MDelete b s (Some v)) :: inner
                        ++ [EvLeave (MDelete b s (Some v))] ++ evs)
                   = (b, s, Some v) :: delete_enters evs).
      { unfold delete_enters in *. simpl. rewrite omap_app, He. done. }
      rewrite HE, Hen. done.
Qed.

Lemma create_enters_none evs :
  Forall (fun ev => kind_of ev <> KCreateEnter) evs -> create_enters evs = [].
Proof.
  induction 1 as [|ev evs Hev _ IH]; [done|].
  destruct ev as [| | | | | | | | | | |[]|[]|]; simpl in Hev; try done;
    exact IH.
Qed.

Lemma collect_returns authzs (g0 : Groups) (w : World X) :
  (forall a, a ∈ authzs -> is_Some (find_dns01 (authz_challenges a))) ->
  exists g, for_fold authzs collect_authz g0 w = (Ok g, w).
Proof.
  revert g0. induction authzs as [|a authzs IH]; intros g0 Hall.
  - simpl. by eexists.
  - cbn [for_fold]. unfold bind.
    destruct (collect_authz_cases g0 a w) as [(g1 & -> & _)|[_ Hnone]].
    + apply IH. intros a' Ha'. apply Hall. by right.
    + specialize (Hall a ltac:(by left)). rewrite Hnone in Hall.
      by destruct Hall.
Qed.

(** X9. A run in which no collaborator fails issues the certificate and
    leaves nothing behind.  If every provider call and every answer goes
    through, every authorization offers a DNS-01 challenge and is valid when
    polled, and finalization returns, then [request_certificate] (with room
    for one loop iteration) returns exactly the order that the finalization
    call handed back, and that call, with a deadline of 90 seconds, is the
    last thing it does.  Before it, in this order: the set-up, in which
    [create_txt_record] is entered once for every validation value; one
    answer per challenge; one poll per challenge; and the clean-up, in which
    [delete_txt_record] is entered once for every created record.  At the
    end no handle of a created record (of non-empty value) is left in the
    table. *)
Theorem cooperative_run_issues_and_cleans fuel domains order (w w1 : World X) :
  (1 <= fuel)%nat ->
  client_new_order domains w = (Ok order, w1) ->
  (forall a, a ∈ authorizations order ->
             is_Some (find_dns01 (authz_challenges a))) ->
  exists g o' w9 w' setup deletes,
    collect_challenges (authorizations order) w1 = (Ok g, w1) /\
    request_certificate fuel domains w = (Ok o', w') /\
    client_poll_and_finalize order (clock (ext w9) + seconds 90) w9 = (Ok o', w') /\
    trace w9 = trace w1 ++ setup
      ++ ((fun ci => EvAnswer (ci_challenge ci)) <$> all_challenges g)
      ++ ((fun ci => EvPoll (ci_authz ci) (Returns STATUS_VALID))
            <$> all_challenges g)
      ++ deletes /\
    Forall (of_kinds setup_kinds) setup /\
    create_enters setup = expected_records g /\
    Forall (of_kinds delete_kinds) deletes /\
    delete_enters deletes
      = (fun '(b, s, v) => (b, s, Some v)) <$> expected_records g /\
    (forall b s v, (b, s, v) ∈ expected_records g -> PyStr.truthy v = true ->
       record_ids w' !! (record_name_of s +:+ ":" +:+ v) = None).
Proof using All.
  intros Hfuel Hno Hdns.
  destruct (collect_returns (authorizations order) [] w1 Hdns) as [g Hc].
  exists g. unfold request_certificate, bind. rewrite Hno.
  unfold collect_challenges at 2. rewrite Hc.
  (* clean-up of old records *)
  destruct (cleanup_phase_trace g ∅ w1) as (cl & w2 & e_cl & Hcl & Htr_cl & Hk_cl & _).
  unfold cleanup_phase. rewrite Hcl.
  (* creation *)
  destruct (create_fold_returns g [] w2) as (created & w3 & Hcr).
  unfold create_phase. rewrite Hcr.
  destruct (create_fold_result _ _ _ _ _ Hcr)
    as (Hcreated & (e_cr & Htr_cr & Hen_cr) & _).
  simpl in Hcreated.
  assert (Hk_cr : Forall (of_kinds create_kinds) e_cr).
  { destruct (traced_run _ (create_phase g) w2 (traced_create_phase g))
      as (r' & w3' & e_cr' & Hrun' & Htr' & Hk').
    unfold create_phase in Hrun'. rewrite Hcr in Hrun'. injection Hrun' as <- <-.
    rewrite Htr_cr in Htr'. apply app_inv_head in Htr'. by subst. }
  (* verification *)
  destruct (traced_run _ (verify_phase g) w3 (traced_verify_phase g))
    as (rv & w4 & e_v & Hv & Htr_v & Hk_v).
  destruct (verify_fold_returns g true w3) as (b & w4' & Hv').
  unfold verify_phase in Hv |- *. rewrite Hv' in Hv |- *. injection Hv as <- <-.
  unfold after_verification, bind, print, emit, sleep_for. simpl.
  (* public check, answers, polls *)
  match goal with
  | |- context [public_check g ?w5] =>
      destruct (public_check_trace g w5) as (w6 & Hpc & Htr_pc)
  end.
  rewrite Hpc. simpl in Htr_pc. unfold answer_and_poll, bind.
  destruct (answer_phase_run g w6) as (w7 & -> & Htr_a).
  unfold after_answer, poll_step, finish, try_except, bind.
  destruct (poll_phase_run fuel g w7 Hfuel) as (last & w8 & -> & Htr_p).
  unfold ret at 1.
  (* clean-up and finalization *)
  pose proof (teardown_clears created w8 delete_returns refresh_returns) as Hclear.
  destruct (teardown_enters created w8) as (w9 & e_td & Htd & Htr_td & Hk_td & Hen_td).
  rewrite Htd in Hclear |- *. simpl in Hclear.
  unfold time_time. simpl.
  destruct (finalize_returns order (clock (ext w9) + seconds 90) (ext w9)) as [o' Hf].
  assert (Hfinal : exists w',
    client_poll_and_finalize order (clock (ext w9) + seconds 90) w9 = (Ok o', w') /\
    record_ids w' = record_ids w9).
  { unfold client_poll_and_finalize, call.
    destruct (acme_poll_and_finalize _ _ (ext w9)) as [r x10]. simpl in Hf. subst r.
    eauto. }
  destruct Hfinal as (w' & Hfinal & Hids).
  exists o', w9, w',
    (e_cl ++ e_cr ++ e_v
       ++ [EvPrint (verdict b); EvSleep (seconds DNS_PROPAGATION_WAIT)]
       ++ ((fun ci => EvResolve ("_acme-challenge." +:+ ci_domain_name ci))
             <$> all_challenges g)),
    e_td.
  split; [done|]. split; [exact Hfinal|]. split; [exact Hfinal|].
  assert (Hres : Forall (of_kinds [KResolve])
                   ((fun ci => EvResolve ("_acme-challenge." +:+ ci_domain_name ci))
                      <$> all_challenges g)).
  { apply Forall_fmap, Forall_forall. intros ci _. done. }
  split.
  { rewrite Htr_td, Htr_p, Htr_a, Htr_pc, Htr_v, Htr_cr, Htr_cl.
    rewrite <- !app_assoc. simpl. done. }
  split.
  { apply Forall_app. split.
    { eapply Forall_impl; [exact Hk_cl|]. by apply of_kinds_mono. }
    apply Forall_app. split.
    { eapply Forall_impl; [exact Hk_cr|]. by apply of_kinds_mono. }
    apply Forall_app. split.
    { eapply Forall_impl; [exact Hk_v|]. by apply of_kinds_mono. }
    apply Forall_app. split; [by repeat constructor|].
    eapply Forall_impl; [exact Hres|]. by apply of_kinds_mono. }
  split.
  { assert (E1 : create_enters e_cl = []).
    { apply create_enters_none. eapply of_kinds_exclude; [|exact Hk_cl]. done. }
    assert (E2 : create_enters e_v = []).
    { apply create_enters_none. eapply of_kinds_exclude; [|exact Hk_v]. done. }
    assert (E3 : create_enters
                   ((fun ci => EvResolve ("_acme-challenge." +:+ ci_domain_name ci))
                      <$> all_challenges g) = []).
    { apply create_enters_none. eapply of_kinds_exclude; [|exact Hres]. done. }
    unfold create_enters in *. rewrite !omap_app, E1, E2, E3, Hen_cr. simpl.
    by rewrite app_nil_r. }
  split; [exact Hk_td|]. split; [by rewrite Hen_td, Hcreated|].
  intros b0 s0 v0 Hin Hv0. rewrite Hids. eapply Hclear; [|exact Hv0].
  rewrite Hcreated. exact Hin.
Qed.

End Cooperative.

Lemma cooperative_run_issues_and_cleans_witness :
  exists o' w',
    request_certificate 1 demo_domains AllGood.start = (Ok o', w') /\
    fullchain_pem o' = "PEM" /\
    record_ids w' !! "_acme-challenge:v-a.com" = None.
Proof.
  assert (Hpost : forall zone name value ttl (x : AllGood.State),
            exists i, fst (ovh_post_record zone name value ttl x) = Returns (Some i))
    by (intros; by exists 7).
  assert (Hfin : forall o d (x : AllGood.State),
            exists o', fst (acme_poll_and_finalize o d x) = Returns o')
    by (intros o d x; by eexists).
  destruct (cooperative_run_issues_and_cleans (X := AllGood.State)
              Hpost (fun _ _ => eq_refl) (fun _ _ _ => eq_refl)
              (fun _ _ => eq_refl) (fun _ _ => eq_refl) Hfin
              1%nat demo_domains
              {| order_uri := "order/1";
                 authorizations := Sim.authz_for <$> demo_domains;
                 fullchain_pem := EmptyString |}
              AllGood.start
              (mkWorld AllGood.here ∅ [EvNewOrder demo_domains]))
    as (g & o' & w9 & w' & setup & deletes & Hc & Hrun & Hfinal & _ & _ & _ & _ & _
        & Hkeys).
  - lia.
  - reflexivity.
  - intros a Ha. apply list_elem_of_fmap in Ha as (d & -> & _). simpl. eauto.
  - exists o', w'. split; [exact Hrun|]. split.
    + revert Hfinal. unfold client_poll_and_finalize, call. simpl.
      by intros [= <- _].
    + vm_compute in Hc. injection Hc as <-.
      apply (Hkeys "a.com" "" "v-a.com"); [|reflexivity].
      unfold expected_records. simpl. left.
Defined.
